(** * Connection pooling and OAuth token lifecycle of the Snowflake MCP server

    A shallow embedding of [snowflake_mcp_server.py] (the connection pool:
    [get_snowflake_connection], [return_connection_to_pool]; the tools:
    [execute_query] and the show_... and describe_... tools) and of
    [oauth_handler.py] (the [OAuthTokenManager] and the callback handler),
    followed by the properties proved about them.

    The Snowflake driver, the token endpoint, the clock and the file system
    are outside the program: they are interfaces ([Driver], [QueryDriver],
    [Platform], [CacheFiles]) whose answers may depend on everything that
    happened before.  Python exceptions
    are values of an error type; every function of the program is a
    computation in a state-and-exception monad over the program's mutable
    state, the outside world, the history of calls made to the outside and
    the log. *)

From Stdlib Require Import Ascii String DecimalString List ZArith Lia Bool.
From stdpp Require Import gmap strings list fin_maps.

Local Open Scope string_scope.
Local Open Scope list_scope.

(** ** Python helpers shared by both modules *)

(** [needle in hay] on Python strings. *)
Fixpoint contains (needle hay : string) : bool :=
  String.prefix needle hay ||
  match hay with
  | EmptyString => false
  | String _ rest => contains needle rest
  end.

(** Truth value of [os.getenv(...)]: [None] and the empty string are false. *)
Definition truthy (o : option string) : bool :=
  match o with
  | Some s => negb (String.eqb s "")
  | None => false
  end.

(** An optional string inside an f-string: [None] prints as the text None. *)
Definition fmt (o : option string) : string :=
  match o with
  | Some s => s
  | None => "None"
  end.

(** [l.pop()] on a list: the last element and the list without it. *)
Definition list_pop {A} (l : list A) : option (A * list A) :=
  match rev l with
  | x :: r => Some (x, rev r)
  | [] => None
  end.

Inductive level := Debug | Info | Warning | Error.

(** ** The connection pool ([snowflake_mcp_server.py]) *)
Module Pool.

Definition conn := nat.
Definition cursor := nat.

(** A value in a result row: SQL NULL ([None]) or a string. *)
Inductive cell := CNull | CStr (s : string).
Definition row := list cell.

Definition cell_str (c : cell) : string :=
  match c with
  | CNull => "None"
  | CStr s => s
  end.

(** [name != SNOWFLAKE_WAREHOUSE], a cell against a configured string. *)
Definition cell_differs (c : cell) (o : option string) : bool :=
  match c, o with
  | CStr s, Some t => negb (String.eqb s t)
  | CNull, None => false
  | _, _ => true
  end.

(** Exceptions.  [DatabaseError] stands for
    [snowflake.connector.errors.DatabaseError] and its subclasses,
    [OtherError] for any other subclass of [Exception] the driver raises. *)
Inductive exn :=
| ImportError (m : string)
| ValueError (m : string)
| TypeError (m : string)
| IndexError (m : string)
| PermissionError (m : string)
| DatabaseError (m : string)
| OtherError (m : string).

(** [str(e)] *)
Definition exn_str (e : exn) : string :=
  match e with
  | ImportError m | ValueError m | TypeError m | IndexError m
  | PermissionError m | DatabaseError m | OtherError m => m
  end.

Inductive param :=
| ParamStr (s : option string)
| ParamBool (b : bool)
| ParamInt (n : Z).

(** Calls made to the driver, and the history of them with their outcome
    ([true]: returned, [false]: raised). *)
Inductive call :=
| Connect (params : list (string * param))
| Cursor (c : conn)
| Execute (cur : cursor) (sql : string)
| Fetchone (cur : cursor)
| Fetchall (cur : cursor)
| Close (c : conn).

Inductive event := Ev (c : call) (ok : bool).

(** The Snowflake connector as seen by the program. *)
Class Driver (World : Type) := {
  drv_connect : list (string * param) -> World -> World * (exn + conn);
  drv_cursor : conn -> World -> World * (exn + cursor);
  drv_execute : cursor -> string -> World -> World * (exn + unit);
  drv_fetchone : cursor -> World -> World * (exn + option row);
  drv_fetchall : cursor -> World -> World * (exn + list row);
  drv_close : conn -> World -> World * (exn + unit)
}.

(** The process environment read by [os.getenv], and the module global
    [SNOWFLAKE_AVAILABLE]. *)
Record Env := {
  SNOWFLAKE_AVAILABLE : bool;
  SNOWFLAKE_ACCOUNT : option string;
  SNOWFLAKE_USER : option string;
  SNOWFLAKE_PASSWORD : option string;
  SNOWFLAKE_ROLE : option string;
  SNOWFLAKE_WAREHOUSE : option string;
  SNOWFLAKE_DATABASE : option string;
  SNOWFLAKE_SCHEMA : option string
}.

Definition MAX_POOL_SIZE : nat := 5.
Definition CONNECTION_TIMEOUT : Z := 60.

Section Program.
Context {World : Type} {driver : Driver World}.

(** [connection_pool] is the module's dictionary from key to list of idle
    connections; [trace] and [log] only grow. *)
Record state := {
  connection_pool : gmap string (list conn);
  world : World;
  trace : list event;
  log : list (level * string)
}.

Definition M (A : Type) : Type := state -> state * (exn + A).

Definition ret {A} (a : A) : M A := fun s => (s, inr a).
Definition raise {A} (e : exn) : M A := fun s => (s, inl e).
Definition bind {A B} (m : M A) (k : A -> M B) : M B :=
  fun s =>
    match m s with
    | (s', inr a) => k a s'
    | (s', inl e) => (s', inl e)
    end.

(** [try: body except Exception as e: handler(e)] *)
Definition try_except {A} (body : M A) (handler : exn -> M A) : M A :=
  fun s =>
    match body s with
    | (s', inl e) => handler e s'
    | r => r
    end.

Definition is_ok {A} (r : exn + A) : bool :=
  match r with
  | inr _ => true
  | inl _ => false
  end.

Definition driver_call {A} (c : call) (f : World -> World * (exn + A)) : M A :=
  fun s =>
    let (w, r) := f (world s) in
    ({| connection_pool := connection_pool s;
        world := w;
        trace := trace s ++ [Ev c (is_ok r)];
        log := log s |}, r).

Definition connect (params : list (string * param)) : M conn :=
  driver_call (Connect params) (drv_connect params).
Definition get_cursor (c : conn) : M cursor :=
  driver_call (Cursor c) (drv_cursor c).
Definition execute (cur : cursor) (sql : string) : M unit :=
  driver_call (Execute cur sql) (drv_execute cur sql).
Definition fetchone (cur : cursor) : M (option row) :=
  driver_call (Fetchone cur) (drv_fetchone cur).
Definition fetchall (cur : cursor) : M (list row) :=
  driver_call (Fetchall cur) (drv_fetchall cur).
Definition close (c : conn) : M unit :=
  driver_call (Close c) (drv_close c).

Definition logger (lv : level) (msg : string) : M unit :=
  fun s =>
    ({| connection_pool := connection_pool s;
        world := world s;
        trace := trace s;
        log := log s ++ [(lv, msg)] |}, inr tt).

Definition set_pool (p : gmap string (list conn)) : M unit :=
  fun s =>
    ({| connection_pool := p;
        world := world s;
        trace := trace s;
        log := log s |}, inr tt).

Definition get_pool : M (gmap string (list conn)) :=
  fun s => (s, inr (connection_pool s)).

Declare Scope pool_scope.
Delimit Scope pool_scope with pool.
Notation "x <- m ;; k" := (bind m (fun x => k))
  (at level 100, m at next level, k at level 200, right associativity)
  : pool_scope.
Notation "m ;; k" := (bind m (fun _ => k))
  (at level 100, k at level 200, right associativity) : pool_scope.
Local Open Scope pool_scope.

(** [all(required_vars)] *)
Definition required_vars_set (env : Env) : bool :=
  forallb truthy
    [SNOWFLAKE_ACCOUNT env; SNOWFLAKE_USER env;
     SNOWFLAKE_PASSWORD env; SNOWFLAKE_ROLE env].

(** The key built by [get_snowflake_connection]. *)
Definition acquire_key (env : Env) : string :=
  let conn_key :=
    fmt (SNOWFLAKE_ACCOUNT env) +:+ "_" +:+ fmt (SNOWFLAKE_USER env)
      +:+ "_" +:+ fmt (SNOWFLAKE_ROLE env) in
  if truthy (SNOWFLAKE_WAREHOUSE env)
  then conn_key +:+ ("_" +:+ fmt (SNOWFLAKE_WAREHOUSE env))
  else conn_key.

(** The key built by [return_connection_to_pool] from the row of
    [CURRENT_ACCOUNT(), CURRENT_USER(), CURRENT_ROLE(), CURRENT_WAREHOUSE()]. *)
Definition release_key (account user role warehouse : cell) : string :=
  cell_str account +:+ "_" +:+ cell_str user +:+ "_" +:+ cell_str role
    +:+ "_" +:+ cell_str warehouse.

(** The liveness probe run on a pooled connection. *)
Definition liveness_probe (c : conn) : M unit :=
  cur <- get_cursor c ;;
  execute cur "SELECT 1" ;;
  fetchone cur ;;
  ret tt.

(** The pool branch of [get_snowflake_connection]: [Some c] when the
    function returns the pooled connection [c], [None] when it goes on to
    create a connection. *)
Definition reuse_pooled (env : Env) (conn_key : string) : M (option conn) :=
  p <- get_pool ;;
  match p !! conn_key with
  | Some l =>
      match list_pop l with
      | Some (c, l') =>
          set_pool (<[conn_key := l']> p) ;;
          try_except
            (liveness_probe c ;;
             logger Debug ("Reusing existing connection from pool for "
                             +:+ fmt (SNOWFLAKE_USER env)) ;;
             ret (Some c))
            (fun e =>
               logger Warning
                 ("Pooled connection is no longer valid, creating new one: "
                    +:+ exn_str e) ;;
               try_except (close c)
                 (fun close_error =>
                    logger Debug ("Error closing invalid connection: "
                                    +:+ exn_str close_error)) ;;
               ret None)
      | None => ret None
      end
  | None => ret None
  end.

Definition connect_params (env : Env) : list (string * param) :=
  [("account", ParamStr (SNOWFLAKE_ACCOUNT env));
   ("user", ParamStr (SNOWFLAKE_USER env));
   ("password", ParamStr (SNOWFLAKE_PASSWORD env));
   ("autocommit", ParamBool true);
   ("client_session_keep_alive", ParamBool true);
   ("application", ParamStr (Some "Snowflake_MCP_Server"));
   ("client_prefetch_threads", ParamInt 4);
   ("network_timeout", ParamInt CONNECTION_TIMEOUT);
   ("login_timeout", ParamInt CONNECTION_TIMEOUT)]
  ++ (if truthy (SNOWFLAKE_ROLE env)
      then [("role", ParamStr (SNOWFLAKE_ROLE env))] else [])
  ++ (if truthy (SNOWFLAKE_DATABASE env)
      then [("database", ParamStr (SNOWFLAKE_DATABASE env))] else [])
  ++ (if truthy (SNOWFLAKE_SCHEMA env)
      then [("schema", ParamStr (SNOWFLAKE_SCHEMA env))] else []).

(** [USE ROLE]: a failure raises [PermissionError]. *)
Definition set_role (env : Env) (cur : cursor) : M unit :=
  try_except
    (execute cur ("USE ROLE " +:+ fmt (SNOWFLAKE_ROLE env)) ;;
     logger Info ("Successfully set role to " +:+ fmt (SNOWFLAKE_ROLE env)))
    (fun e =>
       logger Error ("Error setting role to " +:+ fmt (SNOWFLAKE_ROLE env)
                       +:+ ": " +:+ exn_str e) ;;
       raise (PermissionError
                ("Cannot set role to " +:+ fmt (SNOWFLAKE_ROLE env)
                   +:+ ". Error: " +:+ exn_str e))).

(** The loop over the rows of [SHOW WAREHOUSES]. *)
Fixpoint try_warehouses (env : Env) (cur : cursor) (warehouses : list row)
  : M unit :=
  match warehouses with
  | [] => ret tt
  | warehouse_info :: rest =>
      match warehouse_info with
      | [] => raise (IndexError "tuple index out of range")
      | warehouse_name :: _ =>
          if cell_differs warehouse_name (SNOWFLAKE_WAREHOUSE env)
          then
            try_except
              (execute cur ("USE WAREHOUSE " +:+ cell_str warehouse_name) ;;
               logger Info ("Found alternative warehouse: "
                              +:+ cell_str warehouse_name))
              (fun warehouse_error =>
                 logger Debug ("Could not use warehouse "
                                 +:+ cell_str warehouse_name +:+ ": "
                                 +:+ exn_str warehouse_error) ;;
                 try_warehouses env cur rest)
          else try_warehouses env cur rest
      end
  end.

(** The search for another warehouse after the configured one failed. *)
Definition find_alternative_warehouse (env : Env) (cur : cursor) : M unit :=
  try_except
    (execute cur "SHOW WAREHOUSES" ;;
     warehouses <- fetchall cur ;;
     match warehouses with
     | [] => ret tt
     | _ => try_warehouses env cur warehouses
     end)
    (fun warehouse_error =>
       logger Debug ("Could not find alternative warehouse: "
                       +:+ exn_str warehouse_error)).

(** The body of [if SNOWFLAKE_WAREHOUSE:]. *)
Definition select_warehouse (env : Env) (cur : cursor) : M unit :=
  try_except
    (execute cur ("USE WAREHOUSE " +:+ fmt (SNOWFLAKE_WAREHOUSE env)) ;;
     logger Info ("Successfully set warehouse to "
                    +:+ fmt (SNOWFLAKE_WAREHOUSE env)))
    (fun e =>
       let error_msg := exn_str e in
       (if contains "Insufficient privileges" error_msg
        then
          logger Warning
            ("Insufficient privileges to use warehouse "
               +:+ fmt (SNOWFLAKE_WAREHOUSE env)
               +:+ ". Some operations may fail.") ;;
          logger Warning
            "Consider using a different role or warehouse with appropriate permissions."
        else
          logger Warning
            ("Could not set warehouse to " +:+ fmt (SNOWFLAKE_WAREHOUSE env)
               +:+ ": " +:+ exn_str e) ;;
          logger Warning
            "Some operations may fail without warehouse access. Consider using a different role.") ;;
       find_alternative_warehouse env cur).

Definition select_database (env : Env) (cur : cursor) : M unit :=
  try_except
    (execute cur ("USE DATABASE " +:+ fmt (SNOWFLAKE_DATABASE env)) ;;
     logger Info ("Successfully set database to "
                    +:+ fmt (SNOWFLAKE_DATABASE env)))
    (fun e =>
       logger Warning ("Could not set database to "
                         +:+ fmt (SNOWFLAKE_DATABASE env) +:+ ": "
                         +:+ exn_str e)).

Definition select_schema (env : Env) (cur : cursor) : M unit :=
  try_except
    (execute cur ("USE SCHEMA " +:+ fmt (SNOWFLAKE_SCHEMA env)) ;;
     logger Info ("Successfully set schema to "
                    +:+ fmt (SNOWFLAKE_SCHEMA env)))
    (fun e =>
       logger Warning ("Could not set schema to "
                         +:+ fmt (SNOWFLAKE_SCHEMA env) +:+ ": "
                         +:+ exn_str e)).

Definition set_session_parameters (cur : cursor) : M unit :=
  try_except
    (execute cur "ALTER SESSION SET STATEMENT_TIMEOUT_IN_SECONDS = 300" ;;
     execute cur "ALTER SESSION SET TIMEZONE = 'UTC'" ;;
     execute cur "ALTER SESSION SET USE_CACHED_RESULT = TRUE" ;;
     execute cur "ALTER SESSION SET QUERY_TAG = 'snowflake_mcp_server'")
    (fun session_error =>
       logger Warning ("Could not set all session parameters: "
                         +:+ exn_str session_error)).

(** Session initialisation after the role has been set. *)
Definition init_session (env : Env) (cur : cursor) : M unit :=
  (if truthy (SNOWFLAKE_WAREHOUSE env)
   then select_warehouse env cur else ret tt) ;;
  (if truthy (SNOWFLAKE_DATABASE env)
   then select_database env cur else ret tt) ;;
  (if truthy (SNOWFLAKE_SCHEMA env)
   then select_schema env cur else ret tt) ;;
  set_session_parameters cur.

(** The two [except] clauses around the creation of a connection. *)
Definition connection_error_handler (env : Env) (e : exn) : M conn :=
  match e with
  | DatabaseError error_msg =>
      if contains "Insufficient privileges" error_msg
      then
        logger Error ("Permission error connecting to Snowflake: "
                        +:+ exn_str e) ;;
        raise (PermissionError
                 ("Insufficient privileges for role "
                    +:+ fmt (SNOWFLAKE_ROLE env) +:+ ". Error: "
                    +:+ exn_str e))
      else if contains "Authentication failed" error_msg
      then
        logger Error ("Authentication error connecting to Snowflake: "
                        +:+ exn_str e) ;;
        raise (ValueError
                 "Authentication failed. Please check your Snowflake credentials.")
      else
        logger Error ("Database error connecting to Snowflake: "
                        +:+ exn_str e) ;;
        raise e
  | _ =>
      logger Error ("Error connecting to Snowflake: " +:+ exn_str e) ;;
      raise e
  end.

(** The creation branch of [get_snowflake_connection]. *)
Definition create_connection (env : Env) : M conn :=
  try_except
    (c <- connect (connect_params env) ;;
     cur <- get_cursor c ;;
     set_role env cur ;;
     init_session env cur ;;
     logger Info ("Connected to Snowflake using role "
                    +:+ fmt (SNOWFLAKE_ROLE env)) ;;
     ret c)
    (connection_error_handler env).

Definition get_snowflake_connection (env : Env) : M conn :=
  if negb (SNOWFLAKE_AVAILABLE env)
  then raise (ImportError
                "snowflake-connector-python is not installed. Cannot connect to Snowflake.")
  else if negb (required_vars_set env)
  then raise (ValueError
                "Missing required Snowflake environment variables. Ensure SNOWFLAKE_ACCOUNT, SNOWFLAKE_USER, SNOWFLAKE_PASSWORD, and SNOWFLAKE_ROLE are set.")
  else
    pooled <- reuse_pooled env (acquire_key env) ;;
    match pooled with
    | Some c => ret c
    | None => create_connection env
    end.

(** [account, user, role, warehouse = cursor.fetchone()] *)
Definition unpack4 (r : option row) : M (cell * cell * cell * cell) :=
  match r with
  | None => raise (TypeError "cannot unpack non-iterable NoneType object")
  | Some [account; user; role; warehouse] =>
      ret (account, user, role, warehouse)
  | Some l =>
      if (List.length l <? 4)%nat
      then raise (ValueError "not enough values to unpack")
      else raise (ValueError "too many values to unpack")
  end.

(** The identity query of [return_connection_to_pool]. *)
Definition query_identity (c : conn) : M (cell * cell * cell * cell) :=
  cur <- get_cursor c ;;
  execute cur
    "SELECT CURRENT_ACCOUNT(), CURRENT_USER(), CURRENT_ROLE(), CURRENT_WAREHOUSE()" ;;
  r <- fetchone cur ;;
  unpack4 r.

(** The [except] clause of [return_connection_to_pool]: close the
    connection and swallow every error. *)
Definition release_failed (c : conn) (e : exn) : M unit :=
  logger Warning ("Error returning connection to pool: " +:+ exn_str e) ;;
  try_except (close c)
    (fun close_error =>
       logger Debug ("Error closing connection: " +:+ exn_str close_error)).

Definition return_connection_to_pool (env : Env) (conn : option conn)
  : M unit :=
  match conn with
  | None => ret tt
  | Some c =>
      if negb (SNOWFLAKE_AVAILABLE env) then ret tt
      else
        try_except
          (identity <- query_identity c ;;
           let '(account, user, role, warehouse) := identity in
           let conn_key := release_key account user role warehouse in
           p <- get_pool ;;
           (match p !! conn_key with
            | None => set_pool (<[conn_key := []]> p)
            | Some _ => ret tt
            end) ;;
           p <- get_pool ;;
           let idle := default [] (p !! conn_key) in
           if (List.length idle <? MAX_POOL_SIZE)%nat
           then
             set_pool (<[conn_key := idle ++ [c]]> p) ;;
             logger Debug ("Returned connection to pool for "
                             +:+ cell_str user)
           else
             close c ;;
             logger Debug ("Connection pool full, closed connection for "
                             +:+ cell_str user))
          (release_failed c)
  end.

End Program.
Arguments state World : clear implicits.
Arguments M World A : clear implicits.

(** *** A reference backend

    A small deterministic Snowflake used to run the program on concrete
    scenarios: roles that may be used, visible warehouses that may or may
    not be usable, and one session per connection handle. *)

Fixpoint strip_prefix (p s : string) : option string :=
  match p with
  | EmptyString => Some s
  | String a p' =>
      match s with
      | String b s' => if Ascii.eqb a b then strip_prefix p' s' else None
      | EmptyString => None
      end
  end.

Record session := {
  s_account : cell;
  s_user : cell;
  s_role : cell;
  s_warehouse : cell;
  s_result : list row
}.

Record backend := {
  usable_roles : list string;
  visible_warehouses : list (string * bool);
  sessions : list session;
  closed : list conn
}.

Definition param_cell (name : string) (params : list (string * param)) : cell :=
  match find (fun kv => String.eqb (fst kv) name) params with
  | Some (_, ParamStr (Some v)) => CStr v
  | _ => CNull
  end.

Definition with_sessions (b : backend) (l : list session) : backend :=
  {| usable_roles := usable_roles b;
     visible_warehouses := visible_warehouses b;
     sessions := l;
     closed := closed b |}.

Definition update_session (b : backend) (n : nat) (f : session -> session)
  : backend :=
  with_sessions b (alter f n (sessions b)).

Definition is_closed (b : backend) (c : conn) : bool :=
  existsb (Nat.eqb c) (closed b).

Definition backend_connect (params : list (string * param)) (b : backend)
  : backend * (exn + conn) :=
  (with_sessions b
     (sessions b ++
        [{| s_account := param_cell "account" params;
            s_user := param_cell "user" params;
            s_role := CNull;
            s_warehouse := CNull;
            s_result := [] |}]),
   inr (List.length (sessions b))).

Definition backend_cursor (c : conn) (b : backend) : backend * (exn + cursor) :=
  if is_closed b c
  then (b, inl (OtherError "Connection is closed"))
  else (b, inr c).

Definition set_result (rows : list row) (s : session) : session :=
  {| s_account := s_account s; s_user := s_user s; s_role := s_role s;
     s_warehouse := s_warehouse s; s_result := rows |}.

Definition set_session_role (r : string) (s : session) : session :=
  {| s_account := s_account s; s_user := s_user s; s_role := CStr r;
     s_warehouse := s_warehouse s; s_result := [] |}.

Definition set_session_warehouse (w : string) (s : session) : session :=
  {| s_account := s_account s; s_user := s_user s; s_role := s_role s;
     s_warehouse := CStr w; s_result := [] |}.

Definition backend_execute (cur : cursor) (sql : string) (b : backend)
  : backend * (exn + unit) :=
  if is_closed b cur
  then (b, inl (DatabaseError "Connection is closed"))
  else
    match strip_prefix "USE ROLE " sql with
    | Some r =>
        if existsb (String.eqb r) (usable_roles b)
        then (update_session b cur (set_session_role r), inr tt)
        else (b, inl (DatabaseError "Role does not exist or not authorized"))
    | None =>
    match strip_prefix "USE WAREHOUSE " sql with
    | Some w =>
        if existsb (fun nw => String.eqb (fst nw) w && snd nw)
                   (visible_warehouses b)
        then (update_session b cur (set_session_warehouse w), inr tt)
        else (b, inl (DatabaseError
                        "Insufficient privileges to operate on warehouse"))
    | None =>
    if String.eqb sql "SHOW WAREHOUSES"
    then (update_session b cur
            (set_result (map (fun nw => [CStr (fst nw); CStr "STARTED"])
                             (visible_warehouses b))), inr tt)
    else if String.prefix "SELECT CURRENT_ACCOUNT()" sql
    then (update_session b cur
            (fun s => set_result
                        [[s_account s; s_user s; s_role s; s_warehouse s]] s),
          inr tt)
    else if String.prefix "SELECT" sql
    then (update_session b cur (set_result [[CStr "1"]]), inr tt)
    else (b, inr tt)
    end
    end.

Definition backend_fetchone (cur : cursor) (b : backend)
  : backend * (exn + option row) :=
  match sessions b !! cur with
  | Some s =>
      match s_result s with
      | r :: rest => (update_session b cur (set_result rest), inr (Some r))
      | [] => (b, inr None)
      end
  | None => (b, inl (OtherError "no such cursor"))
  end.

Definition backend_fetchall (cur : cursor) (b : backend)
  : backend * (exn + list row) :=
  match sessions b !! cur with
  | Some s => (update_session b cur (set_result []), inr (s_result s))
  | None => (b, inl (OtherError "no such cursor"))
  end.

Definition backend_close (c : conn) (b : backend) : backend * (exn + unit) :=
  ({| usable_roles := usable_roles b;
      visible_warehouses := visible_warehouses b;
      sessions := sessions b;
      closed := c :: closed b |}, inr tt).

#[export] Instance backend_driver : Driver backend := {
  drv_connect := backend_connect;
  drv_cursor := backend_cursor;
  drv_execute := backend_execute;
  drv_fetchone := backend_fetchone;
  drv_fetchall := backend_fetchall;
  drv_close := backend_close
}.

Definition initial_state {World} (w : World) : state World :=
  {| connection_pool := ∅; world := w; trace := []; log := [] |}.

(** The scenario of the specification: ANALYST cannot use WH_MISSING but
    can use WH_BACKUP. *)
Definition acme_backend : backend :=
  {| usable_roles := ["ANALYST"];
     visible_warehouses := [("WH_MISSING", false); ("WH_BACKUP", true)];
     sessions := [];
     closed := [] |}.

(** The same account with no role granted to the user. *)
Definition locked_backend : backend :=
  {| usable_roles := [];
     visible_warehouses := [("WH_BACKUP", true)];
     sessions := [];
     closed := [] |}.

(** An account with two usable warehouses behind two that cannot be
    used. *)
Definition spare_backend : backend :=
  {| usable_roles := ["ANALYST"];
     visible_warehouses :=
       [("WH_MISSING", false); ("WH_LOCKED", false);
        ("WH_A", true); ("WH_B", true)];
     sessions := [];
     closed := [] |}.

(** An account on which the session's role can be changed. *)
Definition two_role_backend : backend :=
  {| usable_roles := ["ANALYST"; "ANALYST_None"];
     visible_warehouses := [("WH_BACKUP", true)];
     sessions := [];
     closed := [] |}.

Definition acme_env (warehouse : option string) : Env :=
  {| SNOWFLAKE_AVAILABLE := true;
     SNOWFLAKE_ACCOUNT := Some "ACME";
     SNOWFLAKE_USER := Some "BOT";
     SNOWFLAKE_PASSWORD := Some "secret";
     SNOWFLAKE_ROLE := Some "ANALYST";
     SNOWFLAKE_WAREHOUSE := warehouse;
     SNOWFLAKE_DATABASE := None;
     SNOWFLAKE_SCHEMA := None |}.

(** *** Vocabulary of the properties *)

Section Vocabulary.
Context {World : Type} {driver : Driver World}.

(** No key of the pool holds more than [MAX_POOL_SIZE] idle connections. *)
Definition pool_bounded (p : gmap string (list conn)) : Prop :=
  forall k l, p !! k = Some l -> List.length l <= MAX_POOL_SIZE.

(** The two operations of the connection manager, and runs of them. *)
Inductive op :=
| Acquire (env : Env)
| Release (env : Env) (c : option conn).

Definition run_op (o : op) (s : state World) : state World :=
  match o with
  | Acquire env => fst (get_snowflake_connection env s)
  | Release env c => fst (return_connection_to_pool env c s)
  end.

Definition run_ops (ops : list op) (s : state World) : state World :=
  fold_left (fun s o => run_op o s) ops s.

Definition release_all (env : Env) (cs : list conn) (s : state World)
  : state World :=
  fold_left (fun s c => fst (return_connection_to_pool env (Some c) s)) cs s.

Definition acquire_times (env : Env) (n : nat) (s : state World)
  : state World :=
  Nat.iter n (fun s => fst (get_snowflake_connection env s)) s.

(** The state [s] with the pool replaced by [p]. *)
Definition with_pool (p : gmap string (list conn)) (s : state World)
  : state World :=
  {| connection_pool := p; world := world s; trace := trace s; log := log s |}.

(** Along the releases of [cs] from [s], every identity query answers the
    row [(a, u, r, w)]. *)
Fixpoint all_report (env : Env) (a u r w : cell) (cs : list conn)
  (s : state World) : Prop :=
  match cs with
  | [] => True
  | c :: cs' =>
      (exists s1, query_identity c s = (s1, inr (a, u, r, w))) /\
      all_report env a u r w cs'
        (fst (return_connection_to_pool env (Some c) s))
  end.

(** A computation that leaves the pool alone, and one that only adds to
    the history of driver calls. *)
Definition preserves_pool {A} (m : M World A) : Prop :=
  forall s, connection_pool (fst (m s)) = connection_pool s.

Definition extends_trace {A} (m : M World A) : Prop :=
  forall s, exists t, trace (fst (m s)) = trace s ++ t.

Definition never_raises {A} (m : M World A) : Prop :=
  forall s, exists a, snd (m s) = inr a.

(** [close] was called on [c] somewhere in the history [t]. *)
Definition closed_in (c : conn) (t : list event) : Prop :=
  exists ok, In (Ev (Close c) ok) t.

(** The warehouses the fallback may try: the first column of every row of
    [SHOW WAREHOUSES] that differs from the configured one. *)
Definition candidates (env : Env) (rows : list row) : list string :=
  map cell_str
    (List.filter (fun name => cell_differs name (SNOWFLAKE_WAREHOUSE env))
            (map (hd CNull) rows)).

Definition use_warehouse (cur : cursor) (ok : bool) (w : string) : event :=
  Ev (Execute cur ("USE WAREHOUSE " +:+ w)) ok.

(** The [USE WAREHOUSE] statements of a history. *)
Definition is_use_warehouse (ev : event) : bool :=
  match ev with
  | Ev (Execute _ sql) _ => String.prefix "USE WAREHOUSE " sql
  | _ => false
  end.

Definition warehouse_attempts (t : list event) : list event :=
  List.filter is_use_warehouse t.

Definition not_use_warehouse (ev : event) : Prop :=
  is_use_warehouse ev = false.

(** A computation all of whose driver calls satisfy [P]. *)
Definition emits (P : event -> Prop) {A} (m : M World A) : Prop :=
  forall s, exists t, trace (fst (m s)) = trace s ++ t /\ Forall P t.

(** The attempts of the fallback over [cands]: each candidate in turn
    fails until one succeeds and ends the search, or all fail. *)
Inductive fallback_attempts (cur : cursor) (cands : list string)
  : list event -> Prop :=
| none_usable :
    fallback_attempts cur cands (map (use_warehouse cur false) cands)
| first_usable tried w rest :
    cands = tried ++ w :: rest ->
    fallback_attempts cur cands
      (map (use_warehouse cur false) tried ++ [use_warehouse cur true w]).

End Vocabulary.

End Pool.

(** ** The OAuth token manager and callback handler ([oauth_handler.py]) *)
Module OAuth.

(** Values of the token dictionary, as [json] decodes them.  Instants and
    durations ([time.time()], [expires_in], [expires_at]) are numbers of
    seconds, taken in [Z]. *)
Inductive pyval := PNone | PStr (s : string) | PNum (n : Z).

#[export] Instance pyval_eq_dec : EqDecision pyval.
Proof. solve_decision. Defined.

Inductive exn :=
| TypeError (m : string)
| IndexError (m : string)
| KeyError (m : string).

Definition exn_str (e : exn) : string :=
  match e with
  | TypeError m | IndexError m | KeyError m => m
  end.

(** A [requests.RequestException]: its text, and the text of the response
    it carries, if any. *)
Record request_exception := {
  re_str : string;
  re_response_text : option string
}.

(** The outcome of [requests.post]: the call raises, or returns a response
    on which [raise_for_status()] raises (an error status) or whose
    [json()] is the given object. *)
Inductive post_result :=
| PostRaised (e : request_exception)
| PostResponse (http_error : option request_exception)
               (json : gmap string pyval).

Inductive call :=
| Post (url : string) (data : list (string * pyval)) (auth : string * string)
| WriteCache (file : string) (content : gmap string pyval).

Inductive event := Ev (c : call) (ok : bool).

(** The clock, the token endpoint, the cache file and the random source. *)
Class Platform (World : Type) := {
  time_time : World -> World * Z;
  requests_post : string -> list (string * pyval) -> string * string ->
                  World -> World * post_result;
  write_cache : string -> gmap string pyval -> World -> World * option string;
  token_urlsafe : nat -> World -> World * string
}.

(** The functions of [urllib.parse] the module uses. *)
Class UrlLib := {
  urlencode : list (string * string) -> string;
  urlparse_query : string -> string;
  parse_qs : string -> gmap string (list string)
}.

(** The constructor arguments of [OAuthTokenManager]. *)
Record manager := {
  account : string;
  client_id : string;
  client_secret : string;
  redirect_uri : string;
  token_cache_file : string
}.

(** What [_send_response] is called with. *)
Record response := {
  message : string;
  status_code : Z
}.

Section Program.
Context {World : Type} {platform : Platform World} {urllib : UrlLib}.

Record state := {
  tokens : gmap string pyval;
  world : World;
  trace : list event;
  log : list (level * string)
}.

Definition M (A : Type) : Type := state -> state * (exn + A).

Definition ret {A} (a : A) : M A := fun s => (s, inr a).
Definition raise {A} (e : exn) : M A := fun s => (s, inl e).
Definition bind {A B} (m : M A) (k : A -> M B) : M B :=
  fun s =>
    match m s with
    | (s', inr a) => k a s'
    | (s', inl e) => (s', inl e)
    end.

Definition try_except {A} (body : M A) (handler : exn -> M A) : M A :=
  fun s =>
    match body s with
    | (s', inl e) => handler e s'
    | r => r
    end.

Declare Scope oauth_scope.
Delimit Scope oauth_scope with oauth.
Notation "x <- m ;; k" := (bind m (fun x => k))
  (at level 100, m at next level, k at level 200, right associativity)
  : oauth_scope.
Notation "m ;; k" := (bind m (fun _ => k))
  (at level 100, k at level 200, right associativity) : oauth_scope.
Local Open Scope oauth_scope.

Definition with_world (s : state) (w : World) : state :=
  {| tokens := tokens s; world := w; trace := trace s; log := log s |}.

Definition now : M Z :=
  fun s => let (w, t) := time_time (world s) in (with_world s w, inr t).

Definition post (url : string) (data : list (string * pyval))
  (auth : string * string) : M post_result :=
  fun s =>
    let (w, r) := requests_post url data auth (world s) in
    ({| tokens := tokens s;
        world := w;
        trace := trace s ++
                 [Ev (Post url data auth)
                     (match r with PostRaised _ => false | _ => true end)];
        log := log s |}, inr r).

Definition logger (lv : level) (msg : string) : M unit :=
  fun s =>
    ({| tokens := tokens s; world := world s; trace := trace s;
        log := log s ++ [(lv, msg)] |}, inr tt).

Definition get_tokens : M (gmap string pyval) :=
  fun s => (s, inr (tokens s)).

Definition set_tokens (t : gmap string pyval) : M unit :=
  fun s =>
    ({| tokens := t; world := world s; trace := trace s; log := log s |},
     inr tt).

(** [d.get(k)] and [d.get(k, default)] *)
Definition dict_get (k : string) (d : gmap string pyval) : pyval :=
  default PNone (d !! k).
Definition dict_get_default (k : string) (dflt : pyval)
  (d : gmap string pyval) : pyval :=
  default dflt (d !! k).

Definition key_in (k : string) (d : gmap string pyval) : bool :=
  bool_decide (is_Some (d !! k)).

(** [_save_tokens]: an [IOError] is logged and swallowed. *)
Definition _save_tokens (mgr : manager) : M unit :=
  fun s =>
    let (w, r) := write_cache (token_cache_file mgr) (tokens s) (world s) in
    let s' :=
      {| tokens := tokens s;
         world := w;
         trace := trace s ++
                  [Ev (WriteCache (token_cache_file mgr) (tokens s))
                      (match r with None => true | Some _ => false end)];
         log := log s |} in
    match r with
    | None => (s', inr tt)
    | Some e => logger Warning ("Error saving tokens to cache: " +:+ e) s'
    end.

(** [time.time() + token_data.get('expires_in', 3600)] *)
Definition expiry_of (token_data : gmap string pyval) : M Z :=
  t <- now ;;
  match dict_get_default "expires_in" (PNum 3600) token_data with
  | PNum n => ret (t + n)%Z
  | PStr _ =>
      raise (TypeError "unsupported operand type(s) for +: 'float' and 'str'")
  | PNone =>
      raise (TypeError
               "unsupported operand type(s) for +: 'float' and 'NoneType'")
  end.

(** [time.time() > self.tokens.get('expires_at', 0)] *)
Definition is_expired : M bool :=
  t <- now ;;
  d <- get_tokens ;;
  match dict_get_default "expires_at" (PNum 0) d with
  | PNum e => ret (e <? t)%Z
  | PStr _ =>
      raise (TypeError "'>' not supported between instances of 'float' and 'str'")
  | PNone =>
      raise (TypeError
               "'>' not supported between instances of 'float' and 'NoneType'")
  end.

Definition token_url (mgr : manager) : string :=
  "https://" +:+ account mgr +:+ ".snowflakecomputing.com/oauth/token".

(** The [except requests.RequestException] clause of both token calls. *)
Definition request_failed (what : string) (e : request_exception) : M bool :=
  logger Error (what +:+ re_str e) ;;
  (match re_response_text e with
   | Some text => logger Error ("Response content: " +:+ text)
   | None => ret tt
   end) ;;
  ret false.

Definition exchange_code_for_token (mgr : manager) (code : string) : M bool :=
  let data :=
    [("grant_type", PStr "authorization_code");
     ("code", PStr code);
     ("redirect_uri", PStr (redirect_uri mgr))] in
  r <- post (token_url mgr) data (client_id mgr, client_secret mgr) ;;
  match r with
  | PostRaised e => request_failed "Error exchanging code for token: " e
  | PostResponse (Some e) _ =>
      request_failed "Error exchanging code for token: " e
  | PostResponse None token_data =>
      expires_at <- expiry_of token_data ;;
      let token_data := <["expires_at" := PNum expires_at]> token_data in
      set_tokens token_data ;;
      _save_tokens mgr ;;
      logger Info "Successfully obtained OAuth tokens" ;;
      ret true
  end.

Definition refresh_token (mgr : manager) : M bool :=
  d <- get_tokens ;;
  match d !! "refresh_token" with
  | None =>
      logger Error "No refresh token available" ;;
      ret false
  | Some stored =>
      let data :=
        [("grant_type", PStr "refresh_token");
         ("refresh_token", stored)] in
      r <- post (token_url mgr) data (client_id mgr, client_secret mgr) ;;
      match r with
      | PostRaised e => request_failed "Error refreshing token: " e
      | PostResponse (Some e) _ =>
          request_failed "Error refreshing token: " e
      | PostResponse None token_data =>
          expires_at <- expiry_of token_data ;;
          let token_data := <["expires_at" := PNum expires_at]> token_data in
          d <- get_tokens ;;
          let token_data :=
            match token_data !! "refresh_token", d !! "refresh_token" with
            | None, Some kept => <["refresh_token" := kept]> token_data
            | _, _ => token_data
            end in
          set_tokens token_data ;;
          _save_tokens mgr ;;
          logger Info "Successfully refreshed OAuth tokens" ;;
          ret true
      end
  end.

(** [not self.tokens or 'access_token' not in self.tokens] *)
Definition no_access_token (d : gmap string pyval) : bool :=
  bool_decide (d = ∅) || negb (key_in "access_token" d).

Definition get_access_token (mgr : manager) : M pyval :=
  d <- get_tokens ;;
  if no_access_token d
  then
    logger Warning "No access token available" ;;
    ret PNone
  else
    expired <- is_expired ;;
    if expired
    then
      logger Info "Access token expired, attempting to refresh" ;;
      refreshed <- refresh_token mgr ;;
      if negb refreshed then ret PNone
      else d <- get_tokens ;; ret (dict_get "access_token" d)
    else d <- get_tokens ;; ret (dict_get "access_token" d).

Definition has_valid_tokens : M bool :=
  d <- get_tokens ;;
  if no_access_token d then ret false
  else
    expired <- is_expired ;;
    if expired
    then d <- get_tokens ;; ret (key_in "refresh_token" d)
    else ret true.

Definition get_connection_parameters (mgr : manager)
  : M (gmap string pyval) :=
  let result :=
    d <- get_tokens ;;
    ret (<["token" := dict_get "access_token" d]>
           (<["authenticator" := PStr "oauth"]> ∅)) in
  valid <- has_valid_tokens ;;
  if negb valid
  then
    d <- get_tokens ;;
    if key_in "refresh_token" d
    then
      refreshed <- refresh_token mgr ;;
      if negb refreshed then ret ∅ else result
    else ret ∅
  else result.

Definition get_authorization_url (mgr : manager) : M (string * string) :=
  fun s =>
    let (w, state) := token_urlsafe 32 (world s) in
    let params :=
      [("response_type", "code");
       ("client_id", client_id mgr);
       ("redirect_uri", redirect_uri mgr);
       ("state", state);
       ("scope", "session:role:*");
       ("prompt", "login")] in
    let auth_url :=
      "https://" +:+ account mgr +:+ ".snowflakecomputing.com/oauth/authorize" in
    let full_url := auth_url +:+ "?" +:+ urlencode params in
    (with_world s w, inr (full_url, state)).

(** [values[0]] and [params[k][0]] *)
Definition index0 (values : list string) : M string :=
  match values with
  | v :: _ => ret v
  | [] => raise (IndexError "list index out of range")
  end.

Definition first_value (k : string) (params : gmap string (list string))
  : M string :=
  match params !! k with
  | Some values => index0 values
  | None => raise (KeyError k)
  end.

(** [str(code)] for an integer. *)
Definition str_int (n : Z) : string := NilZero.string_of_int (Z.to_int n).

Definition dquote : string := String (Ascii.ascii_of_nat 34) EmptyString.

(** The line logged for every answer.  [send_response] of
    [BaseHTTPRequestHandler] calls [log_request(code)], which passes the
    request line in double quotes, [str(code)] and a dash to
    [log_message]; the handler overrides [log_message] to hand the line to
    [logger.info] behind the name of the handler. *)
Definition request_log (requestline : string) (code : Z) : string :=
  "OAuthCallbackHandler: " +:+ dquote +:+ requestline +:+ dquote +:+ " "
    +:+ str_int code +:+ " -".

(** [_send_response]: the answer is logged, then its headers and its page
    are written to the connection, which is taken to accept them. *)
Definition send_response (requestline msg : string) (code : Z)
  : M response :=
  logger Info (request_log requestline code) ;;
  ret {| message := msg; status_code := code |}.

(** [OAuthCallbackHandler.do_GET] of the server set up for [token_manager]
    and [state], on a request whose line is [requestline] and whose target
    is [path] ([self.requestline], [self.path]); the result is the
    response sent. *)
Definition do_GET (token_manager : manager) (state : string)
  (requestline path : string) : M response :=
  try_except
    (let query := urlparse_query path in
     let params := parse_qs query in
     if String.prefix "/oauth/callback" path
     then
       invalid <-
         (match params !! "state" with
          | None => ret true
          | Some _ =>
              v <- first_value "state" params ;;
              ret (negb (String.eqb v state))
          end) ;;
       if (invalid : bool)
       then send_response requestline "Error: Invalid state parameter" 400
       else
         match params !! "error" with
         | Some _ =>
             error_msg <- first_value "error" params ;;
             error_desc <-
               index0 (default ["Unknown error"]
                         (params !! "error_description")) ;;
             send_response requestline
               ("Error: " +:+ error_msg +:+ " - " +:+ error_desc) 400
         | None =>
             match params !! "code" with
             | None =>
                 send_response requestline
                   "Error: No authorization code received" 400
             | Some _ =>
                 code <- first_value "code" params ;;
                 exchanged <- exchange_code_for_token token_manager code ;;
                 if (exchanged : bool)
                 then
                   send_response requestline
                     "Authentication successful! You can close this window and return to the application."
                     200
                 else
                   send_response requestline
                     "Error: Failed to exchange code for token" 500
             end
         end
     else send_response requestline "Not Found" 404)
    (fun e =>
       logger Error ("Error handling OAuth callback: " +:+ exn_str e) ;;
       send_response requestline ("Server Error: " +:+ exn_str e) 500).

End Program.
Arguments state World : clear implicits.
Arguments M World A : clear implicits.

(** *** Logging out *)

(** [os.path.exists] and [os.remove] on the cache file; [os_remove]
    answers the text of the [IOError] it raises, if any. *)
Class CacheFiles (World : Type) := {
  path_exists : string -> World -> bool;
  os_remove : string -> World -> World * option string
}.

Section Logout.
Context {World : Type} {files : CacheFiles World}.

Definition remove_cache (mgr : manager) : M World (option string) :=
  fun s =>
    let (w, r) := os_remove (token_cache_file mgr) (world s) in
    (with_world s w, inr r).

Definition clear_tokens (mgr : manager) : M World unit :=
  bind (set_tokens ∅)
    (fun _ s =>
       if path_exists (token_cache_file mgr) (world s)
       then
         bind (remove_cache mgr)
           (fun r =>
              match r with
              | None => logger Info "Cleared token cache file"
              | Some e =>
                  logger Warning ("Error removing token cache file: " +:+ e)
              end) s
       else ret tt s).

End Logout.

(** *** Vocabulary of the properties *)

(** The one call a refresh makes to the token endpoint. *)
Definition refresh_call (mgr : manager) (stored : pyval) : call :=
  Post (token_url mgr)
    [("grant_type", PStr "refresh_token"); ("refresh_token", stored)]
    (client_id mgr, client_secret mgr).

Definition post_ok (r : post_result) : bool :=
  match r with
  | PostRaised _ => false
  | PostResponse _ _ => true
  end.

(** The backend rejects the request, or the request does not get through. *)
Definition rejected (r : post_result) : Prop :=
  match r with
  | PostRaised _ => True
  | PostResponse (Some _) _ => True
  | PostResponse None _ => False
  end.

(** The token set stored after a successful refresh at instant [t] whose
    response is [token_data] with lifetime [n]. *)
Definition refreshed_tokens (stored : pyval) (t n : Z)
  (token_data : gmap string pyval) : gmap string pyval :=
  match token_data !! "refresh_token" with
  | None =>
      <["refresh_token" := stored]>
        (<["expires_at" := PNum (t + n)]> token_data)
  | Some _ => <["expires_at" := PNum (t + n)]> token_data
  end.

(** *** A reference platform

    A clock that stands still, a token endpoint that answers from a queue
    of prepared replies, and a cache file that can or cannot be written. *)

Record net := {
  clock : Z;
  replies : list post_result;
  disk_full : bool
}.

Definition net_post (url : string) (data : list (string * pyval))
  (auth : string * string) (w : net) : net * post_result :=
  match replies w with
  | r :: rest =>
      ({| clock := clock w; replies := rest; disk_full := disk_full w |}, r)
  | [] =>
      (w, PostRaised {| re_str := "Connection refused";
                        re_response_text := None |})
  end.

#[export] Instance net_platform : Platform net := {
  time_time := fun w => (w, clock w);
  requests_post := net_post;
  write_cache := fun _ _ w =>
    (w, if disk_full w then Some "No space left on device" else None);
  token_urlsafe := fun _ w => (w, "dGhlLXN0YXRlLXRva2Vu")
}.

(** The cache file is there, and can be removed when it can be
    written. *)
#[export] Instance net_files : CacheFiles net := {
  path_exists := fun _ _ => true;
  os_remove := fun _ w =>
    (w, if disk_full w then Some "Read-only file system" else None)
}.

(** Query strings without escapes, enough for the scenarios below. *)
Fixpoint split_on (sep : Ascii.ascii) (s : string) (acc : string)
  : list string :=
  match s with
  | EmptyString => [acc]
  | String c rest =>
      if Ascii.eqb c sep
      then acc :: split_on sep rest ""
      else split_on sep rest (acc +:+ String c "")
  end.

Fixpoint after_char (sep : Ascii.ascii) (s : string) : string :=
  match s with
  | EmptyString => ""
  | String c rest => if Ascii.eqb c sep then rest else after_char sep rest
  end.

Definition add_field (field : string) (m : gmap string (list string))
  : gmap string (list string) :=
  match split_on "="%char field "" with
  | [k; v] =>
      if String.eqb v "" then m
      else <[k := default [] (m !! k) ++ [v]]> m
  | _ => m
  end.

Definition plain_parse_qs (q : string) : gmap string (list string) :=
  fold_left (fun m field => add_field field m) (split_on "&"%char q "") ∅.

Definition plain_urlencode (params : list (string * string)) : string :=
  String.concat "&" (map (fun kv => fst kv +:+ "=" +:+ snd kv) params).

#[export] Instance plain_urllib : UrlLib := {
  urlencode := plain_urlencode;
  urlparse_query := after_char "?"%char;
  parse_qs := plain_parse_qs
}.

Definition snow_manager : manager :=
  {| account := "ACME";
     client_id := "client";
     client_secret := "secret";
     redirect_uri := "http://localhost:8090/oauth/callback";
     token_cache_file := "/tmp/oauth_tokens.json" |}.

Definition initial_state {World} (t : gmap string pyval) (w : World)
  : state World :=
  {| tokens := t; world := w; trace := []; log := [] |}.

(** An access token that expired at 1000, with a refresh token. *)
Definition expired_tokens : gmap string pyval :=
  <["access_token" := PStr "old-access"]>
    (<["refresh_token" := PStr "the-refresh"]>
       (<["expires_at" := PNum 1000]> ∅)).

(** A refresh response that issues no new refresh token. *)
Definition refreshed_reply : post_result :=
  PostResponse None
    (<["access_token" := PStr "new-access"]>
       (<["expires_in" := PNum 600]> ∅)).

(** The expired token set at instant 2000, with one prepared reply. *)
Definition expired_state (reply : post_result) : state net :=
  initial_state expired_tokens
    {| clock := 2000; replies := [reply]; disk_full := false |}.

Definition rejected_reply : post_result :=
  PostResponse
    (Some {| re_str := "400 Client Error: Bad Request";
             re_response_text := Some "invalid_grant" |}) ∅.

End OAuth.

(** ** The tools ([snowflake_mcp_server.py])

    [execute_query] and the listing and describing tools.  The tools named
    show_... and describe_... are one body each, repeated with another
    object kind and another statement; [list_objects] and
    [describe_object] are these bodies, and the tools below are given as
    the source writes their statements. *)
Module Tools.
Import Pool.

(** What is handed to [format_output]: a list of dictionaries, one
    dictionary, or the result of a query.  A dictionary is given by the
    pairs it is built from, in their order. *)
Inductive data :=
| Rows (rows : list (list (string * cell)))
| Row (r : list (string * cell))
| QueryResult (columns : list string) (rows : list (list (string * cell)))
              (row_count : nat) (truncated : bool).

(** What [execute_query] returns: the dictionary of the test mode, or the
    formatted text. *)
Inductive query_output :=
| TestMode (error : string) (query : string)
| Output (text : string).

(** What the tools use of a cursor beyond the calls of the connection
    manager: the names in [cursor.description] ([None] without a result
    set) and [fetchmany]. *)
Class QueryDriver (World : Type) := {
  drv_description : cursor -> World -> option (list string);
  drv_fetchmany : cursor -> Z -> World -> World * (exn + list row)
}.

(** [str.upper] and [json.dumps(data, indent=2, default=str)]. *)
Class PyLib := {
  upper : string -> string;
  json_dumps : data -> string
}.

Section Program.
Context {World : Type} {driver : Driver World} {qdriver : QueryDriver World}
  {pylib : PyLib}.

Declare Scope tools_scope.
Delimit Scope tools_scope with tools.
Notation "x <- m ;; k" := (bind m (fun x => k))
  (at level 100, m at next level, k at level 200, right associativity)
  : tools_scope.
Notation "m ;; k" := (bind m (fun _ => k))
  (at level 100, k at level 200, right associativity) : tools_scope.
Local Open Scope tools_scope.

Definition format_output (d : option data) : string :=
  match d with
  | None => "No data available"
  | Some d => json_dumps d
  end.

(** [try: body finally: final]: the outcome of [body] stands unless
    [final] raises. *)
Definition try_finally {A} (body : M World A) (final : M World unit)
  : M World A :=
  fun s =>
    let (s1, r) := body s in
    match final s1 with
    | (s2, inr _) => (s2, r)
    | (s2, inl e) => (s2, inl e)
    end.

(** [cursor.description], read from the world. *)
Definition description (cur : cursor) : M World (option (list string)) :=
  fun s => (s, inr (drv_description cur (world s))).

(** [cursor.fetchmany(n)]; the history keeps the calls of the connection
    manager only. *)
Definition fetchmany (cur : cursor) (n : Z) : M World (list row) :=
  fun s =>
    let (w, r) := drv_fetchmany cur n (world s) in
    ({| connection_pool := connection_pool s; world := w;
        trace := trace s; log := log s |}, r).

(** [[col[0] for col in cursor.description]] *)
Definition column_names (cur : cursor) : M World (list string) :=
  d <- description cur ;;
  match d with
  | Some names => ret names
  | None => raise (TypeError "'NoneType' object is not iterable")
  end.

(** The [try] ... [except] of every show_... tool, on the connection
    acquired. *)
Definition list_objects_body (what query : string) (conn : conn)
  : M World string :=
  try_except
    (cur <- get_cursor conn ;;
     execute cur query ;;
     results <- fetchall cur ;;
     columns <- column_names cur ;;
     ret (format_output
            (Some (Rows (map (fun r => combine columns r) results)))))
    (fun e =>
       logger Error ("Error listing " +:+ what +:+ ": " +:+ exn_str e) ;;
       raise e).

(** The body of every show_... tool. *)
Definition list_objects (env : Env) (what query : string) : M World string :=
  logger Info ("Listing all " +:+ what) ;;
  if negb (SNOWFLAKE_AVAILABLE env)
  then raise (ImportError
                ("Snowflake connector is not installed. Cannot list "
                   +:+ what +:+ "."))
  else
    conn <- get_snowflake_connection env ;;
    try_finally (list_objects_body what query conn)
      (return_connection_to_pool env (Some conn)).

(** The [try] ... [except] of every describe_... tool. *)
Definition describe_object_body (what name query : string) (conn : conn)
  : M World string :=
  try_except
    (cur <- get_cursor conn ;;
     execute cur query ;;
     results <- fetchall cur ;;
     columns <- column_names cur ;;
     match results with
     | first :: _ =>
         ret (format_output (Some (Row (combine columns first))))
     | [] => raise (IndexError "list index out of range")
     end)
    (fun e =>
       logger Error ("Error describing " +:+ what +:+ " " +:+ name
                       +:+ ": " +:+ exn_str e) ;;
       raise e).

(** The body of every describe_... tool. *)
Definition describe_object (env : Env) (what name query : string)
  : M World string :=
  logger Info ("Describing " +:+ what +:+ ": " +:+ name) ;;
  if negb (SNOWFLAKE_AVAILABLE env)
  then raise (ImportError
                ("Snowflake connector is not installed. Cannot describe "
                   +:+ what +:+ "."))
  else
    conn <- get_snowflake_connection env ;;
    try_finally (describe_object_body what name query conn)
      (return_connection_to_pool env (Some conn)).

(** [ IN db.schema], [ IN DATABASE db] or nothing. *)
Definition in_scope (database schema : option string) : string :=
  if truthy database && truthy schema
  then " IN " +:+ fmt database +:+ "." +:+ fmt schema
  else if truthy database
  then " IN DATABASE " +:+ fmt database
  else "".

Definition show_alerts (env : Env) (database schema : option string)
  : M World string :=
  list_objects env "alerts" ("SHOW ALERTS" +:+ in_scope database schema).

Definition show_columns (env : Env) (table_name database schema : option string)
  : M World string :=
  list_objects env "columns"
    ("SHOW COLUMNS" +:+
       (if truthy table_name && truthy database && truthy schema
        then " IN TABLE " +:+ fmt database +:+ "." +:+ fmt schema
               +:+ "." +:+ fmt table_name
        else in_scope database schema)).

Definition show_databases (env : Env) (pattern : option string)
  : M World string :=
  list_objects env "databases"
    ("SHOW DATABASES" +:+
       (if truthy pattern then " LIKE '" +:+ fmt pattern +:+ "'" else "")).

Definition show_schemas (env : Env) (database : option string)
  : M World string :=
  list_objects env "schemas"
    ("SHOW SCHEMAS" +:+
       (if truthy database then " IN DATABASE " +:+ fmt database else "")).

Definition show_grants (env : Env) : M World string :=
  list_objects env "grants" "SHOW GRANTS".

Definition show_warehouses (env : Env) : M World string :=
  list_objects env "warehouses" "SHOW WAREHOUSES".

Definition describe_account (env : Env) (name : string) : M World string :=
  describe_object env "account" name ("DESCRIBE ACCOUNT " +:+ name).

Definition describe_alert (env : Env) (name : string)
  (database schema : option string) : M World string :=
  describe_object env "alert" name
    ("DESCRIBE ALERT " +:+
       (if truthy database && truthy schema
        then fmt database +:+ "." +:+ fmt schema +:+ "." +:+ name
        else name)).

Definition describe_column (env : Env) (name table : string)
  (database schema : option string) : M World string :=
  describe_object env "column" name
    ("DESCRIBE COLUMN " +:+
       (if truthy database && truthy schema
        then fmt database +:+ "." +:+ fmt schema +:+ "." +:+ table
               +:+ "." +:+ name
        else if truthy schema
        then fmt schema +:+ "." +:+ table +:+ "." +:+ name
        else table +:+ "." +:+ name)).

(** The write operations [execute_query] looks for. *)
Definition write_ops : list string :=
  ["INSERT"; "UPDATE"; "DELETE"; "CREATE"; "DROP"; "ALTER"].

(** [any(write_op in query.upper() for write_op in [...])] *)
Definition mentions_write (query : string) : bool :=
  existsb (fun write_op => contains write_op (upper query)) write_ops.

(** Truth value of [limit_rows]: [None] and 0 are false. *)
Definition limit_set (limit_rows : option Z) : bool :=
  match limit_rows with
  | Some n => negb (n =? 0)%Z
  | None => false
  end.

(** [row_dict[col] = row[i]] for every column: a row shorter than the
    columns raises. *)
Definition format_row (columns : list string) (r : row)
  : M World (list (string * cell)) :=
  if (List.length r <? List.length columns)%nat
  then raise (IndexError "tuple index out of range")
  else ret (combine columns r).

Fixpoint format_rows (columns : list string) (rows : list row)
  : M World (list (list (string * cell))) :=
  match rows with
  | [] => ret []
  | r :: rest =>
      row_dict <- format_row columns r ;;
      formatted_rows <- format_rows columns rest ;;
      ret (row_dict :: formatted_rows)
  end.

(** The [try] ... [except] of [execute_query]. *)
Definition execute_query_body (query : string) (limit_rows : option Z)
  (conn : conn) : M World query_output :=
  try_except
    (cur <- get_cursor conn ;;
     execute cur query ;;
     d <- description cur ;;
     let columns := default [] d in
     rows <- (if limit_set limit_rows
              then fetchmany cur (default 0%Z limit_rows)
              else fetchall cur) ;;
     let row_count := List.length rows in
     next <- fetchone cur ;;
     let truncated :=
       match next with Some _ => true | None => false end in
     formatted_rows <- format_rows columns rows ;;
     ret (Output
            (format_output
               (Some (QueryResult columns formatted_rows row_count
                        truncated)))))
    (fun e =>
       logger Error ("Error executing query: " +:+ exn_str e) ;;
       raise e).

(** [execute_query]; [allow_write] is [args.allow_write]. *)
Definition execute_query (env : Env) (allow_write : bool) (query : string)
  (limit_rows : option Z) : M World query_output :=
  logger Info ("Executing query: " +:+ query) ;;
  if negb (SNOWFLAKE_AVAILABLE env)
  then ret (TestMode
              "snowflake-connector-python is not installed. Running in test mode only."
              query)
  else if negb allow_write && mentions_write query
  then raise (ValueError
                "Write operations are not allowed. Start the server with --allow-write to enable them.")
  else
    conn <- get_snowflake_connection env ;;
    try_finally (execute_query_body query limit_rows conn)
      (return_connection_to_pool env (Some conn)).

End Program.

(** *** Reference instances *)

(** A driver whose [connect] always raises [DatabaseError] with the text
    that is its world. *)
#[export] Instance refusing_driver : Driver string := {
  drv_connect := fun _ w => (w, inl (DatabaseError w));
  drv_cursor := fun _ w => (w, inl (OtherError "not connected"));
  drv_execute := fun _ _ w => (w, inl (OtherError "not connected"));
  drv_fetchone := fun _ w => (w, inl (OtherError "not connected"));
  drv_fetchall := fun _ w => (w, inl (OtherError "not connected"));
  drv_close := fun _ w => (w, inl (OtherError "not connected"))
}.

Definition backend_description (cur : cursor) (b : backend)
  : option (list string) :=
  match sessions b !! cur with
  | Some _ => Some ["name"; "state"]
  | None => None
  end.

Definition backend_fetchmany (cur : cursor) (n : Z) (b : backend)
  : backend * (exn + list row) :=
  match sessions b !! cur with
  | Some s =>
      (update_session b cur (set_result (skipn (Z.to_nat n) (s_result s))),
       inr (firstn (Z.to_nat n) (s_result s)))
  | None => (b, inl (OtherError "no such cursor"))
  end.

#[export] Instance backend_query_driver : QueryDriver backend := {
  drv_description := backend_description;
  drv_fetchmany := backend_fetchmany
}.

(** Upper case of the letters a to z, and a plain rendering. *)
Definition ascii_upper (c : Ascii.ascii) : Ascii.ascii :=
  let n := Ascii.nat_of_ascii c in
  if (97 <=? n)%nat && (n <=? 122)%nat
  then Ascii.ascii_of_nat (n - 32)
  else c.

Fixpoint plain_upper (s : string) : string :=
  match s with
  | EmptyString => EmptyString
  | String c rest => String (ascii_upper c) (plain_upper rest)
  end.

Definition plain_row (r : list (string * cell)) : string :=
  "{" +:+ String.concat ", "
            (map (fun kv => fst kv +:+ ": " +:+ cell_str (snd kv)) r) +:+ "}".

Definition plain_dumps (d : data) : string :=
  match d with
  | Rows rows => "[" +:+ String.concat ", " (map plain_row rows) +:+ "]"
  | Row r => plain_row r
  | QueryResult _ rows _ truncated =>
      "[" +:+ String.concat ", " (map plain_row rows) +:+ "]"
        +:+ (if truncated then " (truncated)" else "")
  end.

#[export] Instance plain_pylib : PyLib := {
  upper := plain_upper;
  json_dumps := plain_dumps
}.

End Tools.

(** * Properties of the connection pool *)

Section PoolProofs.
Import Pool.
Context {World : Type} {driver : Driver World}.

(** ** Strings and lists *)

Lemma append_cons a (s t : string) : String a s +:+ t = String a (s +:+ t).
Proof. reflexivity. Qed.

Lemma append_assoc (s t u : string) : (s +:+ t) +:+ u = s +:+ (t +:+ u).
Proof.
  induction s as [|a s IH]; [reflexivity|].
  rewrite !append_cons, IH. reflexivity.
Qed.

Lemma append_length (s t : string) :
  String.length (s +:+ t) = String.length s + String.length t.
Proof.
  induction s as [|a s IH]; [reflexivity|].
  rewrite append_cons. simpl. rewrite IH. reflexivity.
Qed.

Lemma append_longer (s t : string) : t <> "" -> s +:+ t <> s.
Proof.
  intros Ht Heq. apply (f_equal String.length) in Heq.
  rewrite append_length in Heq. destruct t; [congruence|]. simpl in Heq. lia.
Qed.

Lemma list_pop_snoc {A} (l : list A) (x : A) : list_pop (l ++ [x]) = Some (x, l).
Proof. unfold list_pop. rewrite rev_unit, rev_involutive. reflexivity. Qed.

Lemma list_pop_Some {A} (l l' : list A) (x : A) :
  list_pop l = Some (x, l') -> l = l' ++ [x].
Proof.
  unfold list_pop. intros H.
  destruct (rev l) as [|y r] eqn:E; [discriminate|].
  injection H as -> <-.
  rewrite <- (rev_involutive l), E. reflexivity.
Qed.

Lemma truthy_Some (o : option string) :
  truthy o = true -> exists s, o = Some s /\ s <> "".
Proof.
  destruct o as [s|]; [|discriminate]. simpl. intros H.
  exists s. split; [reflexivity|]. intros ->. discriminate.
Qed.

(** ** The monad *)

Lemma bind_inr {A B} (m : M World A) (k : A -> M World B) s s' a :
  m s = (s', inr a) -> bind m k s = k a s'.
Proof. unfold bind. intros ->. reflexivity. Qed.

Lemma bind_inl {A B} (m : M World A) (k : A -> M World B) s s' e :
  m s = (s', inl e) -> bind m k s = (s', inl e).
Proof. unfold bind. intros ->. reflexivity. Qed.

Lemma try_inr {A} (m : M World A) h s s' a :
  m s = (s', inr a) -> try_except m h s = (s', inr a).
Proof. unfold try_except. intros ->. reflexivity. Qed.

Lemma try_inl {A} (m : M World A) h s s' e :
  m s = (s', inl e) -> try_except m h s = h e s'.
Proof. unfold try_except. intros ->. reflexivity. Qed.

(** A driver call seen from the driver's side. *)
Lemma driver_call_eq {A} (c : call) (f : World -> World * (exn + A)) s w r :
  f (world s) = (w, r) ->
  driver_call c f s =
    ({| connection_pool := connection_pool s; world := w;
        trace := trace s ++ [Ev c (is_ok r)]; log := log s |}, r).
Proof. unfold driver_call. intros ->. reflexivity. Qed.

(** ** Frame properties: what a computation leaves alone *)

Lemma preserves_ret {A} (a : A) : preserves_pool (World := World) (ret a).
Proof. intros s. reflexivity. Qed.

Lemma preserves_raise {A} e : preserves_pool (World := World) (A := A) (raise e).
Proof. intros s. reflexivity. Qed.

Lemma preserves_logger lv msg : preserves_pool (World := World) (logger lv msg).
Proof. intros s. reflexivity. Qed.

Lemma preserves_driver_call {A} c (f : World -> World * (exn + A)) :
  preserves_pool (driver_call c f).
Proof. intros s. unfold driver_call. destruct (f (world s)). reflexivity. Qed.

Lemma preserves_bind {A B} (m : M World A) (k : A -> M World B) :
  preserves_pool m -> (forall a, preserves_pool (k a)) ->
  preserves_pool (bind m k).
Proof.
  intros Hm Hk s. unfold bind. specialize (Hm s).
  destruct (m s) as [s' [e|a]]; simpl in *; [exact Hm|].
  rewrite Hk. exact Hm.
Qed.

Lemma preserves_try {A} (m : M World A) h :
  preserves_pool m -> (forall e, preserves_pool (h e)) ->
  preserves_pool (try_except m h).
Proof.
  intros Hm Hh s. unfold try_except. specialize (Hm s).
  destruct (m s) as [s' [e|a]]; simpl in *; [|exact Hm].
  rewrite Hh. exact Hm.
Qed.

Lemma extends_ret {A} (a : A) : extends_trace (World := World) (ret a).
Proof. intros s. exists []. simpl. rewrite app_nil_r. reflexivity. Qed.

Lemma extends_raise {A} e : extends_trace (World := World) (A := A) (raise e).
Proof. intros s. exists []. simpl. rewrite app_nil_r. reflexivity. Qed.

Lemma extends_logger lv msg : extends_trace (World := World) (logger lv msg).
Proof. intros s. exists []. simpl. rewrite app_nil_r. reflexivity. Qed.

Lemma extends_set_pool p : extends_trace (World := World) (set_pool p).
Proof. intros s. exists []. simpl. rewrite app_nil_r. reflexivity. Qed.

Lemma extends_get_pool : extends_trace (World := World) get_pool.
Proof. intros s. exists []. simpl. rewrite app_nil_r. reflexivity. Qed.

Lemma extends_driver_call {A} c (f : World -> World * (exn + A)) :
  extends_trace (driver_call c f).
Proof.
  intros s. unfold driver_call. destruct (f (world s)) as [w r].
  eexists. reflexivity.
Qed.

Lemma extends_bind {A B} (m : M World A) (k : A -> M World B) :
  extends_trace m -> (forall a, extends_trace (k a)) ->
  extends_trace (bind m k).
Proof.
  intros Hm Hk s. unfold bind. destruct (Hm s) as [t Ht].
  destruct (m s) as [s' [e|a]]; simpl in *; [eauto|].
  destruct (Hk a s') as [t' Ht']. exists (t ++ t').
  rewrite Ht', Ht, app_assoc. reflexivity.
Qed.

Lemma extends_try {A} (m : M World A) h :
  extends_trace m -> (forall e, extends_trace (h e)) ->
  extends_trace (try_except m h).
Proof.
  intros Hm Hh s. unfold try_except. destruct (Hm s) as [t Ht].
  destruct (m s) as [s' [e|a]]; simpl in *; [|eauto].
  destruct (Hh e s') as [t' Ht']. exists (t ++ t').
  rewrite Ht', Ht, app_assoc. reflexivity.
Qed.

Lemma never_ret {A} (a : A) : never_raises (World := World) (ret a).
Proof. intros s. eexists. reflexivity. Qed.

Lemma never_logger lv msg : never_raises (World := World) (logger lv msg).
Proof. intros s. eexists. reflexivity. Qed.

Lemma never_bind {A B} (m : M World A) (k : A -> M World B) :
  never_raises m -> (forall a, never_raises (k a)) -> never_raises (bind m k).
Proof.
  intros Hm Hk s. unfold bind. destruct (Hm s) as [a Ha].
  destruct (m s) as [s' [e|a']]; simpl in *; [discriminate|]. apply Hk.
Qed.

Lemma never_try {A} (m : M World A) h :
  (forall e, never_raises (h e)) -> never_raises (try_except m h).
Proof.
  intros Hh s. unfold try_except.
  destruct (m s) as [s' [e|a]]; simpl; [apply Hh|eauto].
Qed.

(** Goals about the frame of a composite computation follow its syntax. *)
Create HintDb frame discriminated.

Ltac frame_step :=
  first
    [ assumption
    | solve [auto 1 with frame nocore]
    | match goal with |- forall _, _ => intro end
    | apply preserves_ret | apply preserves_raise | apply preserves_logger
    | apply preserves_driver_call | apply preserves_bind | apply preserves_try
    | apply extends_ret | apply extends_raise | apply extends_logger
    | apply extends_set_pool | apply extends_get_pool
    | apply extends_driver_call | apply extends_bind | apply extends_try
    | apply never_ret | apply never_logger | apply never_try
    | apply never_bind
    | match goal with
      | |- context [match ?x with _ => _ end] => destruct x
      end ].

Ltac frame := repeat frame_step.

Ltac unfold_driver :=
  unfold connect, get_cursor, execute, fetchone, fetchall, close.

Lemma preserves_liveness_probe c : preserves_pool (World := World) (liveness_probe c).
Proof. unfold liveness_probe; unfold_driver; frame. Qed.
#[local] Hint Resolve preserves_liveness_probe : frame.

Lemma preserves_set_role env cur : preserves_pool (World := World) (set_role env cur).
Proof. unfold set_role; unfold_driver; frame. Qed.
#[local] Hint Resolve preserves_set_role : frame.

Lemma preserves_try_warehouses env cur rows :
  preserves_pool (World := World) (try_warehouses env cur rows).
Proof.
  induction rows as [|r rows IH]; simpl; unfold_driver; frame.
Qed.
#[local] Hint Resolve preserves_try_warehouses : frame.

Lemma preserves_select_warehouse env cur :
  preserves_pool (World := World) (select_warehouse env cur).
Proof.
  unfold select_warehouse, find_alternative_warehouse; unfold_driver; frame.
Qed.
#[local] Hint Resolve preserves_select_warehouse : frame.

Lemma preserves_init_session env cur :
  preserves_pool (World := World) (init_session env cur).
Proof.
  unfold init_session, select_database, select_schema, set_session_parameters.
  unfold_driver; frame.
Qed.
#[local] Hint Resolve preserves_init_session : frame.

Lemma preserves_create_connection env :
  preserves_pool (World := World) (create_connection env).
Proof.
  unfold create_connection, connection_error_handler; unfold_driver; frame.
Qed.
#[local] Hint Resolve preserves_create_connection : frame.

Lemma preserves_query_identity c :
  preserves_pool (World := World) (query_identity c).
Proof. unfold query_identity, unpack4; unfold_driver; frame. Qed.
#[local] Hint Resolve preserves_query_identity : frame.

Lemma extends_try_warehouses env cur rows :
  extends_trace (World := World) (try_warehouses env cur rows).
Proof.
  induction rows as [|r rows IH]; simpl; unfold_driver; frame.
Qed.
#[local] Hint Resolve extends_try_warehouses : frame.

Lemma extends_get_snowflake_connection env :
  extends_trace (World := World) (get_snowflake_connection env).
Proof.
  unfold get_snowflake_connection, reuse_pooled, liveness_probe,
    create_connection, connection_error_handler, set_role, init_session,
    select_warehouse, find_alternative_warehouse, select_database,
    select_schema, set_session_parameters.
  unfold_driver; frame.
Qed.

Lemma extends_return_connection_to_pool env c :
  extends_trace (World := World) (return_connection_to_pool env c).
Proof.
  unfold return_connection_to_pool, query_identity, unpack4.
  unfold_driver; frame.
Qed.

Lemma never_select_warehouse env cur :
  never_raises (World := World) (select_warehouse env cur).
Proof. unfold select_warehouse, find_alternative_warehouse; frame. Qed.
#[local] Hint Resolve never_select_warehouse : frame.

Lemma never_init_session env cur :
  never_raises (World := World) (init_session env cur).
Proof.
  unfold init_session, select_database, select_schema, set_session_parameters.
  frame.
Qed.
#[local] Hint Resolve never_init_session : frame.

(** ** Returning a connection never raises *)

Lemma release_failed_spec c e (s : state World) :
  exists s' ok,
    release_failed c e s = (s', inr tt) /\
    connection_pool s' = connection_pool s /\
    trace s' = trace s ++ [Ev (Close c) ok].
Proof.
  unfold release_failed, bind, try_except, logger, close, driver_call. simpl.
  destruct (drv_close c (world s)) as [w [e'|[]]]; simpl;
    eexists _, _; split; reflexivity || (split; reflexivity).
Qed.

Lemma never_return_connection_to_pool env conn :
  never_raises (World := World) (return_connection_to_pool env conn).
Proof.
  unfold return_connection_to_pool. frame.
Qed.

(** After a failed identity query the connection is closed, the error is
    swallowed and the pool is as it was. *)
Lemma release_after_failed_identity env c (s s1 : state World) e :
  SNOWFLAKE_AVAILABLE env = true ->
  query_identity c s = (s1, inl e) ->
  exists s' ok,
    return_connection_to_pool env (Some c) s = (s', inr tt) /\
    connection_pool s' = connection_pool s /\
    trace s' = trace s1 ++ [Ev (Close c) ok].
Proof.
  intros Hav Hq. unfold return_connection_to_pool. rewrite Hav. simpl.
  rewrite (try_inl _ _ _ s1 e) by (apply bind_inl; exact Hq).
  destruct (release_failed_spec c e s1) as (s2 & ok & Hrf & Hp & Ht).
  exists s2, ok. split; [exact Hrf|]. split; [|exact Ht].
  rewrite Hp. pose proof (preserves_query_identity c s) as Hpq.
  rewrite Hq in Hpq. exact Hpq.
Qed.

(** C8: [return_connection_to_pool] returns normally on every input and in
    every state, whatever the driver does.  When the identity query fails
    (the cursor, the query, the fetch or the unpacking of the row), the
    pool is left as it was and the last call made to the driver is the
    [close] of the connection. *)
Theorem release_never_raises env conn (s : state World) :
  exists s',
    return_connection_to_pool env conn s = (s', inr tt) /\
    forall c s1 e,
      conn = Some c -> SNOWFLAKE_AVAILABLE env = true ->
      query_identity c s = (s1, inl e) ->
      connection_pool s' = connection_pool s /\
      exists ok, trace s' = trace s1 ++ [Ev (Close c) ok].
Proof.
  destruct (never_return_connection_to_pool env conn s) as [[] Hok].
  destruct (return_connection_to_pool env conn s) as [s' r] eqn:Hrun.
  simpl in Hok. subst r. exists s'. split; [reflexivity|].
  intros c s1 e -> Hav Hq.
  destruct (release_after_failed_identity env c s s1 e Hav Hq)
    as (s2 & ok & Hrun2 & Hp & Ht).
  rewrite Hrun in Hrun2. injection Hrun2 as <-.
  split; [exact Hp|]. exists ok. exact Ht.
Qed.

(** ** Creating a connection: the role is fatal, the warehouse is not *)

Ltac run_driver H :=
  unfold connect, get_cursor, execute, fetchone, fetchall, close,
    driver_call; simpl; rewrite H; simpl.

(** C3: when [USE ROLE] fails on the connection just created,
    [get_snowflake_connection] raises [PermissionError] and returns no
    connection; the failed statement is the last call made to the driver
    and the pool is not touched. *)
Theorem role_failure_raises_permission_error
  env (s s1 : state World) w2 w3 w4 c cur e :
  SNOWFLAKE_AVAILABLE env = true ->
  required_vars_set env = true ->
  reuse_pooled env (acquire_key env) s = (s1, inr None) ->
  drv_connect (connect_params env) (world s1) = (w2, inr c) ->
  drv_cursor c w2 = (w3, inr cur) ->
  drv_execute cur ("USE ROLE " +:+ fmt (SNOWFLAKE_ROLE env)) w3 = (w4, inl e) ->
  exists s',
    get_snowflake_connection env s =
      (s', inl (PermissionError
                  ("Cannot set role to " +:+ fmt (SNOWFLAKE_ROLE env)
                     +:+ ". Error: " +:+ exn_str e))) /\
    connection_pool s' = connection_pool s1 /\
    trace s' =
      trace s1 ++
        [Ev (Connect (connect_params env)) true;
         Ev (Cursor c) true;
         Ev (Execute cur ("USE ROLE " +:+ fmt (SNOWFLAKE_ROLE env))) false].
Proof.
  intros Hav Hreq Hpool Hconn Hcur Hrole.
  unfold get_snowflake_connection. rewrite Hav, Hreq. simpl.
  rewrite (bind_inr _ _ _ _ _ Hpool).
  unfold create_connection, set_role, try_except, bind.
  run_driver Hconn. run_driver Hcur. run_driver Hrole.
  eexists. split; [reflexivity|]. simpl. split; [reflexivity|].
  rewrite <- !app_assoc. reflexivity.
Qed.

Lemma candidates_cons_differs env name r rows :
  cell_differs name (SNOWFLAKE_WAREHOUSE env) = true ->
  candidates env ((name :: r) :: rows) = cell_str name :: candidates env rows.
Proof. intros H. unfold candidates. simpl. rewrite H. reflexivity. Qed.

Lemma candidates_cons_same env name r rows :
  cell_differs name (SNOWFLAKE_WAREHOUSE env) = false ->
  candidates env ((name :: r) :: rows) = candidates env rows.
Proof. intros H. unfold candidates. simpl. rewrite H. reflexivity. Qed.

Lemma fallback_attempts_cons cur w cands t :
  fallback_attempts cur cands t ->
  fallback_attempts cur (w :: cands) (use_warehouse cur false w :: t).
Proof.
  intros [|tried w' rest ->].
  - apply (none_usable cur (w :: cands)).
  - apply (first_usable cur (w :: tried ++ w' :: rest) (w :: tried) w' rest).
    reflexivity.
Qed.

(** The loop over the visible warehouses never raises on well-formed rows
    and makes exactly the attempts of [fallback_attempts]. *)
Lemma try_warehouses_attempts env cur rows :
  Forall (fun r : row => r <> []) rows ->
  forall s : state World,
  exists s' t,
    try_warehouses env cur rows s = (s', inr tt) /\
    trace s' = trace s ++ t /\
    fallback_attempts cur (candidates env rows) t.
Proof.
  induction 1 as [|r rows Hr _ IH]; intros s.
  - exists s, []. simpl. rewrite app_nil_r.
    repeat split. apply (none_usable cur []).
  - destruct r as [|name r]; [congruence|]. simpl.
    destruct (cell_differs name (SNOWFLAKE_WAREHOUSE env)) eqn:Hd.
    + rewrite (candidates_cons_differs _ _ _ _ Hd).
      unfold try_except, bind, execute, driver_call, logger. simpl.
      destruct (drv_execute cur ("USE WAREHOUSE " +:+ cell_str name) (world s))
        as [w [e|[]]]; simpl.
      * match goal with
        | |- context [try_warehouses env cur rows ?s0] =>
            destruct (IH s0) as (s' & t & Hrun & Ht & Hat)
        end.
        exists s', (use_warehouse cur false (cell_str name) :: t).
        split; [exact Hrun|]. split.
        { rewrite Ht. simpl. rewrite <- app_assoc. reflexivity. }
        apply fallback_attempts_cons. exact Hat.
      * eexists _, [use_warehouse cur true (cell_str name)].
        split; [reflexivity|]. split; [reflexivity|].
        apply (first_usable cur _ [] (cell_str name) (candidates env rows)).
        reflexivity.
    + rewrite (candidates_cons_same _ _ _ _ Hd). apply IH.
Qed.

Lemma loop_guard env cur (rows : list row) :
  match rows with
  | [] => ret tt
  | _ => try_warehouses (World := World) env cur rows
  end = try_warehouses env cur rows.
Proof. destruct rows; reflexivity. Qed.

Lemma select_warehouse_fallback env cur (s : state World) w5 w6 w7 e rows :
  drv_execute cur ("USE WAREHOUSE " +:+ fmt (SNOWFLAKE_WAREHOUSE env)) (world s)
    = (w5, inl e) ->
  drv_execute cur "SHOW WAREHOUSES" w5 = (w6, inr tt) ->
  drv_fetchall cur w6 = (w7, inr rows) ->
  Forall (fun r : row => r <> []) rows ->
  exists s' t,
    select_warehouse env cur s = (s', inr tt) /\
    trace s' =
      trace s ++
        [Ev (Execute cur ("USE WAREHOUSE " +:+ fmt (SNOWFLAKE_WAREHOUSE env)))
            false;
         Ev (Execute cur "SHOW WAREHOUSES") true;
         Ev (Fetchall cur) true] ++ t /\
    fallback_attempts cur (candidates env rows) t.
Proof.
  intros Huse Hshow Hfetch Hrows.
  unfold select_warehouse, find_alternative_warehouse, try_except, bind.
  run_driver Huse.
  assert (Hlog : forall (b : bool) (m1 m2 : M World unit) (s0 : state World),
             (forall s, world (fst (m1 s)) = world s /\ trace (fst (m1 s)) = trace s
                        /\ snd (m1 s) = inr tt) ->
             (forall s, world (fst (m2 s)) = world s /\ trace (fst (m2 s)) = trace s
                        /\ snd (m2 s) = inr tt) ->
             exists s1, (if b then m1 else m2) s0 = (s1, inr tt) /\
                        world s1 = world s0 /\ trace s1 = trace s0).
  { intros b m1 m2 s0 H1 H2. destruct b.
    - destruct (H1 s0) as (Hw & Ht & Hr). destruct (m1 s0) as [s1 r].
      simpl in *. subst r. eauto.
    - destruct (H2 s0) as (Hw & Ht & Hr). destruct (m2 s0) as [s1 r].
      simpl in *. subst r. eauto. }
  match goal with
  | |- context [(if ?b then ?m1 else ?m2) ?s0] =>
      destruct (Hlog b m1 m2 s0) as (s1 & -> & Hw1 & Ht1);
        [intros; repeat split.. |]
  end.
  simpl in Hw1, Ht1.
  unfold execute, fetchall, driver_call. rewrite Hw1, Hshow. simpl.
  rewrite Hfetch. simpl.
  rewrite loop_guard.
  match goal with
  | |- context [try_warehouses env cur rows ?s0] =>
      destruct (try_warehouses_attempts env cur rows Hrows s0)
        as (s' & t & -> & Ht & Hat)
  end.
  exists s', t. split; [reflexivity|]. split; [|exact Hat].
  rewrite Ht. simpl. rewrite Ht1. rewrite <- !app_assoc. reflexivity.
Qed.

Lemma set_role_ok env cur (s : state World) w :
  drv_execute cur ("USE ROLE " +:+ fmt (SNOWFLAKE_ROLE env)) (world s)
    = (w, inr tt) ->
  set_role env cur s =
    ({| connection_pool := connection_pool s;
        world := w;
        trace := trace s ++
                 [Ev (Execute cur ("USE ROLE " +:+ fmt (SNOWFLAKE_ROLE env)))
                     true];
        log := log s ++
               [(Info, "Successfully set role to "
                         +:+ fmt (SNOWFLAKE_ROLE env))] |}, inr tt).
Proof.
  intros H. unfold set_role, try_except, bind. run_driver H. reflexivity.
Qed.

Lemma init_session_ok env cur (s : state World) :
  exists s', init_session env cur s = (s', inr tt).
Proof.
  destruct (never_init_session env cur s) as [[] H].
  destruct (init_session env cur s) as [s' r]. simpl in H. subst r. eauto.
Qed.

Lemma emits_ret P {A} (a : A) : emits (World := World) P (ret a).
Proof. intros s. exists []. rewrite app_nil_r. split; [reflexivity|constructor]. Qed.

Lemma emits_logger P lv msg : emits (World := World) P (logger lv msg).
Proof. intros s. exists []. rewrite app_nil_r. split; [reflexivity|constructor]. Qed.

Lemma emits_bind P {A B} (m : M World A) (k : A -> M World B) :
  emits P m -> (forall a, emits P (k a)) -> emits P (bind m k).
Proof.
  intros Hm Hk s. unfold bind. destruct (Hm s) as (t & Ht & HP).
  destruct (m s) as [s' [e|a]]; simpl in *; [eauto|].
  destruct (Hk a s') as (t' & Ht' & HP'). exists (t ++ t').
  rewrite Ht', Ht, app_assoc. split; [reflexivity|].
  apply Forall_app. split; assumption.
Qed.

Lemma emits_try P {A} (m : M World A) h :
  emits P m -> (forall e, emits P (h e)) -> emits P (try_except m h).
Proof.
  intros Hm Hh s. unfold try_except. destruct (Hm s) as (t & Ht & HP).
  destruct (m s) as [s' [e|a]]; simpl in *; [|eauto].
  destruct (Hh e s') as (t' & Ht' & HP'). exists (t ++ t').
  rewrite Ht', Ht, app_assoc. split; [reflexivity|].
  apply Forall_app. split; assumption.
Qed.

Lemma emits_execute (P : event -> Prop) cur sql :
  (forall ok, P (Ev (Execute cur sql) ok)) ->
  emits (World := World) P (execute cur sql).
Proof.
  intros HP s. unfold execute, driver_call.
  destruct (drv_execute cur sql (world s)) as [w [e|[]]]; simpl;
    eexists; (split; [reflexivity|]); repeat constructor; apply HP.
Qed.

(** The statements that follow the choice of a warehouse are none of them
    a [USE WAREHOUSE]. *)
Lemma setup_after_warehouse env cur :
  emits (World := World) not_use_warehouse
    (bind (if truthy (SNOWFLAKE_DATABASE env)
           then select_database env cur else ret tt)
       (fun _ =>
          bind (if truthy (SNOWFLAKE_SCHEMA env)
                then select_schema env cur else ret tt)
            (fun _ => set_session_parameters cur))).
Proof.
  assert (Hother : forall sql,
            String.prefix "USE WAREHOUSE " sql = false ->
            emits (World := World) not_use_warehouse (execute cur sql)).
  { intros sql Hsql. apply emits_execute. intros ok. exact Hsql. }
  apply emits_bind; [|intros _; apply emits_bind; [|intros _]].
  - destruct (truthy (SNOWFLAKE_DATABASE env)); [|apply emits_ret].
    apply emits_try; [apply emits_bind; [apply Hother; reflexivity|]|];
      intros; apply emits_logger.
  - destruct (truthy (SNOWFLAKE_SCHEMA env)); [|apply emits_ret].
    apply emits_try; [apply emits_bind; [apply Hother; reflexivity|]|];
      intros; apply emits_logger.
  - apply emits_try; [|intros; apply emits_logger].
    repeat (apply emits_bind; [|intros _]); apply Hother; reflexivity.
Qed.

Lemma no_warehouse_attempts t :
  Forall not_use_warehouse t -> warehouse_attempts t = [].
Proof.
  induction 1 as [|ev t Hev _ IH]; [reflexivity|].
  unfold warehouse_attempts in *. simpl. rewrite Hev. exact IH.
Qed.

Lemma init_session_fallback env cur (s : state World) w5 w6 w7 e rows :
  truthy (SNOWFLAKE_WAREHOUSE env) = true ->
  drv_execute cur ("USE WAREHOUSE " +:+ fmt (SNOWFLAKE_WAREHOUSE env)) (world s)
    = (w5, inl e) ->
  drv_execute cur "SHOW WAREHOUSES" w5 = (w6, inr tt) ->
  drv_fetchall cur w6 = (w7, inr rows) ->
  Forall (fun r : row => r <> []) rows ->
  exists t rest,
    trace (fst (init_session env cur s)) =
      trace s ++
        [Ev (Execute cur ("USE WAREHOUSE " +:+ fmt (SNOWFLAKE_WAREHOUSE env)))
            false;
         Ev (Execute cur "SHOW WAREHOUSES") true;
         Ev (Fetchall cur) true] ++ t ++ rest /\
    fallback_attempts cur (candidates env rows) t /\
    warehouse_attempts rest = [].
Proof.
  intros Hwh Huse Hshow Hfetch Hrows.
  destruct (select_warehouse_fallback env cur s w5 w6 w7 e rows
              Huse Hshow Hfetch Hrows) as (s1 & t & Hsel & Ht & Hat).
  unfold init_session. rewrite Hwh. rewrite (bind_inr _ _ _ _ _ Hsel).
  destruct (setup_after_warehouse env cur s1) as (rest & Hrest & Hnone).
  exists t, rest.
  split; [|split; [exact Hat|apply no_warehouse_attempts; exact Hnone]].
  rewrite Hrest, Ht. rewrite <- !app_assoc. reflexivity.
Qed.

(** C2: when the configured warehouse cannot be selected on the connection
    just created, [get_snowflake_connection] still returns that connection,
    whatever the driver answers afterwards.  When [SHOW WAREHOUSES] lists
    rows, the statements that follow it are one [USE WAREHOUSE] per visible
    warehouse other than the configured one, in the order listed, each one
    failing until the first that succeeds; that one ends the search: no
    statement of the history after it is a [USE WAREHOUSE], so the
    session stays on the first usable warehouse.  When none succeeds all of them have been
    tried, and the connection is returned all the same. *)
Theorem warehouse_failure_is_not_fatal
  env (s s1 : state World) w2 w3 w4 w5 c cur e :
  SNOWFLAKE_AVAILABLE env = true ->
  required_vars_set env = true ->
  truthy (SNOWFLAKE_WAREHOUSE env) = true ->
  reuse_pooled env (acquire_key env) s = (s1, inr None) ->
  drv_connect (connect_params env) (world s1) = (w2, inr c) ->
  drv_cursor c w2 = (w3, inr cur) ->
  drv_execute cur ("USE ROLE " +:+ fmt (SNOWFLAKE_ROLE env)) w3 = (w4, inr tt) ->
  drv_execute cur ("USE WAREHOUSE " +:+ fmt (SNOWFLAKE_WAREHOUSE env)) w4
    = (w5, inl e) ->
  exists s',
    get_snowflake_connection env s = (s', inr c) /\
    forall w6 w7 rows,
      drv_execute cur "SHOW WAREHOUSES" w5 = (w6, inr tt) ->
      drv_fetchall cur w6 = (w7, inr rows) ->
      Forall (fun r : row => r <> []) rows ->
      exists t rest,
        trace s' =
          trace s1 ++
            [Ev (Connect (connect_params env)) true;
             Ev (Cursor c) true;
             Ev (Execute cur ("USE ROLE " +:+ fmt (SNOWFLAKE_ROLE env))) true;
             Ev (Execute cur
                   ("USE WAREHOUSE " +:+ fmt (SNOWFLAKE_WAREHOUSE env))) false;
             Ev (Execute cur "SHOW WAREHOUSES") true;
             Ev (Fetchall cur) true] ++ t ++ rest /\
        fallback_attempts cur (candidates env rows) t /\
        warehouse_attempts rest = [].
Proof.
  intros Hav Hreq Hwh Hpool Hconn Hcur Hrole Huse.
  unfold get_snowflake_connection. rewrite Hav, Hreq. simpl.
  rewrite (bind_inr _ _ _ _ _ Hpool).
  unfold create_connection.
  pose proof (driver_call_eq (Connect (connect_params env))
                (drv_connect (connect_params env)) s1 w2 (inr c) Hconn) as H2.
  fold (connect (connect_params env)) in H2.
  set (s2 := {| connection_pool := connection_pool s1; world := w2;
                trace := trace s1 ++ [Ev (Connect (connect_params env)) true];
                log := log s1 |}) in *.
  pose proof (driver_call_eq (Cursor c) (drv_cursor c) s2 w3 (inr cur) Hcur)
    as H3.
  fold (get_cursor c) in H3.
  set (s3 := {| connection_pool := connection_pool s2; world := w3;
                trace := trace s2 ++ [Ev (Cursor c) true];
                log := log s2 |}) in *.
  pose proof (set_role_ok env cur s3 w4 Hrole) as H4.
  set (s4 := {| connection_pool := connection_pool s3; world := w4;
                trace := trace s3 ++
                  [Ev (Execute cur ("USE ROLE " +:+ fmt (SNOWFLAKE_ROLE env)))
                      true];
                log := log s3 ++
                  [(Info, "Successfully set role to "
                            +:+ fmt (SNOWFLAKE_ROLE env))] |}) in *.
  destruct (init_session_ok env cur s4) as [s5 H5].
  eexists. split.
  - apply try_inr.
    rewrite (bind_inr _ _ _ _ _ H2), (bind_inr _ _ _ _ _ H3),
      (bind_inr _ _ _ _ _ H4), (bind_inr _ _ _ _ _ H5).
    reflexivity.
  - intros w6 w7 rows Hshow Hfetch Hrows. simpl.
    destruct (init_session_fallback env cur s4 w5 w6 w7 e rows
                Hwh Huse Hshow Hfetch Hrows) as (t & rest & Ht & Hat).
    rewrite H5 in Ht. simpl in Ht. exists t, rest. split; [|exact Hat].
    rewrite Ht. unfold s4, s3, s2. simpl. rewrite <- !app_assoc. reflexivity.
Qed.

(** ** What the two operations do to the pool *)

Lemma bind_pool {A B} (m : M World A) (k : A -> M World B) s :
  (forall a, preserves_pool (k a)) ->
  connection_pool (fst (bind m k s)) = connection_pool (fst (m s)).
Proof.
  intros Hk. unfold bind. destruct (m s) as [s' [e|a]]; simpl; [reflexivity|].
  apply Hk.
Qed.

Lemma bind_get_pool {B} (k : gmap string (list conn) -> M World B) s :
  bind get_pool k s = k (connection_pool s) s.
Proof. reflexivity. Qed.

Lemma bind_set_pool {B} p (k : unit -> M World B) (s : state World) :
  bind (set_pool p) k s =
    k tt {| connection_pool := p; world := world s;
            trace := trace s; log := log s |}.
Proof. reflexivity. Qed.

Lemma reuse_pooled_pool env key (s : state World) :
  connection_pool (fst (reuse_pooled env key s)) = connection_pool s \/
  exists c l',
    connection_pool s !! key = Some (l' ++ [c]) /\
    connection_pool (fst (reuse_pooled env key s))
      = <[key := l']> (connection_pool s).
Proof.
  unfold reuse_pooled. rewrite bind_get_pool.
  destruct (connection_pool s !! key) as [l|] eqn:Hl; [|left; reflexivity].
  destruct (list_pop l) as [[c l']|] eqn:Hpop; [|left; reflexivity].
  right. exists c, l'. split.
  - rewrite (list_pop_Some _ _ _ Hpop). reflexivity.
  - rewrite bind_pool; [reflexivity|].
    intros _. unfold liveness_probe. unfold_driver. frame.
Qed.

Lemma acquire_pool env (s : state World) :
  connection_pool (fst (get_snowflake_connection env s)) = connection_pool s \/
  exists c l',
    connection_pool s !! acquire_key env = Some (l' ++ [c]) /\
    connection_pool (fst (get_snowflake_connection env s))
      = <[acquire_key env := l']> (connection_pool s).
Proof.
  unfold get_snowflake_connection.
  destruct (negb (SNOWFLAKE_AVAILABLE env)); [left; reflexivity|].
  destruct (negb (required_vars_set env)); [left; reflexivity|].
  rewrite bind_pool by (intros [c|]; frame).
  apply reuse_pooled_pool.
Qed.

Lemma release_pushes env c (s s1 : state World) a u r w :
  SNOWFLAKE_AVAILABLE env = true ->
  query_identity c s = (s1, inr (a, u, r, w)) ->
  List.length (default [] (connection_pool s !! release_key a u r w))
    < MAX_POOL_SIZE ->
  return_connection_to_pool env (Some c) s =
    ({| connection_pool :=
          <[release_key a u r w :=
              default [] (connection_pool s !! release_key a u r w) ++ [c]]>
            (connection_pool s);
        world := world s1;
        trace := trace s1;
        log := log s1 ++
               [(Debug, "Returned connection to pool for " +:+ cell_str u)] |},
     inr tt).
Proof.
  intros Hav Hq Hlen.
  pose proof (preserves_query_identity c s) as Hp. rewrite Hq in Hp.
  simpl in Hp. rewrite <- Hp in *.
  unfold return_connection_to_pool. rewrite Hav. simpl.
  apply try_inr. rewrite (bind_inr _ _ _ _ _ Hq).
  unfold bind, get_pool, set_pool, logger. simpl.
  destruct (connection_pool s1 !! release_key a u r w) as [l|] eqn:Hl; simpl.
  - rewrite Hl. simpl in *.
    apply Nat.ltb_lt in Hlen. rewrite Hlen. reflexivity.
  - rewrite lookup_insert_eq. simpl. rewrite insert_insert_eq. reflexivity.
Qed.

Lemma release_closes env c (s s1 : state World) a u r w :
  SNOWFLAKE_AVAILABLE env = true ->
  query_identity c s = (s1, inr (a, u, r, w)) ->
  MAX_POOL_SIZE <=
    List.length (default [] (connection_pool s !! release_key a u r w)) ->
  exists s' ok t,
    return_connection_to_pool env (Some c) s = (s', inr tt) /\
    connection_pool s' = connection_pool s /\
    trace s' = trace s1 ++ Ev (Close c) ok :: t.
Proof.
  intros Hav Hq Hlen.
  pose proof (preserves_query_identity c s) as Hp. rewrite Hq in Hp.
  simpl in Hp. rewrite <- Hp in *.
  unfold return_connection_to_pool. rewrite Hav. simpl.
  destruct (connection_pool s1 !! release_key a u r w) as [l|] eqn:Hl;
    [|simpl in Hlen; unfold MAX_POOL_SIZE in Hlen; lia].
  simpl in Hlen. apply Nat.ltb_ge in Hlen.
  unfold try_except at 1. rewrite (bind_inr _ _ _ _ _ Hq).
  unfold bind, get_pool, ret. simpl. rewrite Hl. simpl. rewrite Hl. simpl.
  rewrite Hlen. unfold close, driver_call, logger.
  destruct (drv_close c (world s1)) as [w' [e|[]]]; simpl.
  - match goal with
    | |- context [release_failed c e ?s0] =>
        destruct (release_failed_spec c e s0) as (s' & ok & -> & Hp' & Ht')
    end.
    exists s', false, [Ev (Close c) ok]. split; [reflexivity|].
    split; [exact Hp'|]. rewrite Ht'. simpl. rewrite <- app_assoc. reflexivity.
  - eexists _, true, []. split; [reflexivity|]. split; reflexivity.
Qed.

(** Both operations keep every key of the pool within capacity. *)
Lemma release_bounded env conn (s : state World) :
  pool_bounded (connection_pool s) ->
  pool_bounded (connection_pool (fst (return_connection_to_pool env conn s))).
Proof.
  intros Hb. destruct conn as [c|]; [|exact Hb].
  destruct (SNOWFLAKE_AVAILABLE env) eqn:Hav;
    [|unfold return_connection_to_pool; rewrite Hav; exact Hb].
  destruct (query_identity c s) as [s1 [e|[[[a u] r] w]]] eqn:Hq.
  - destruct (release_after_failed_identity env c s s1 e Hav Hq)
      as (s' & ok & Hrun & Hp & _).
    rewrite Hrun. simpl. rewrite Hp. exact Hb.
  - destruct (Nat.lt_ge_cases
                (List.length
                   (default [] (connection_pool s !! release_key a u r w)))
                MAX_POOL_SIZE) as [Hlt|Hge].
    + rewrite (release_pushes env c s s1 a u r w Hav Hq Hlt). simpl.
      intros k l. rewrite lookup_insert. case_decide.
      * intros [= <-]. rewrite length_app. simpl. lia.
      * apply Hb.
    + destruct (release_closes env c s s1 a u r w Hav Hq Hge)
        as (s' & ok & t & -> & Hp & _). simpl. rewrite Hp. exact Hb.
Qed.

Lemma acquire_bounded env (s : state World) :
  pool_bounded (connection_pool s) ->
  pool_bounded (connection_pool (fst (get_snowflake_connection env s))).
Proof.
  intros Hb. destruct (acquire_pool env s) as [->|(c & l' & Hl & ->)];
    [exact Hb|].
  intros k l. rewrite lookup_insert. case_decide; [|apply Hb].
  intros [= <-]. apply Hb in Hl. rewrite length_app in Hl. simpl in Hl. lia.
Qed.

Lemma run_ops_bounded ops (s : state World) :
  pool_bounded (connection_pool s) ->
  pool_bounded (connection_pool (run_ops ops s)).
Proof.
  revert s. induction ops as [|o ops IH]; intros s Hb; [exact Hb|].
  simpl. apply IH. destruct o; simpl;
    [apply acquire_bounded | apply release_bounded]; exact Hb.
Qed.

(** ** Capacity *)

Lemma closed_in_app c (t t' : list event) :
  closed_in c t -> closed_in c (t ++ t').
Proof. intros [ok H]. exists ok. apply in_or_app. left. exact H. Qed.

Lemma release_all_cons env c cs (s : state World) :
  release_all env (c :: cs) s
    = release_all env cs (fst (return_connection_to_pool env (Some c) s)).
Proof. reflexivity. Qed.

Lemma release_all_extends env cs (s : state World) :
  exists t, trace (release_all env cs s) = trace s ++ t.
Proof.
  revert s. induction cs as [|c cs IH]; intros s.
  - exists []. simpl. rewrite app_nil_r. reflexivity.
  - rewrite release_all_cons.
    destruct (IH (fst (return_connection_to_pool env (Some c) s)))
      as [t Ht].
    destruct (extends_return_connection_to_pool env (Some c) s) as [t0 Ht0].
    exists (t0 ++ t). rewrite Ht, Ht0, app_assoc. reflexivity.
Qed.

Lemma release_all_spec env a u r w cs :
  SNOWFLAKE_AVAILABLE env = true ->
  forall s : state World,
  all_report env a u r w cs s ->
  List.length (default [] (connection_pool s !! release_key a u r w))
    <= MAX_POOL_SIZE ->
  default [] (connection_pool (release_all env cs s) !! release_key a u r w)
    = take MAX_POOL_SIZE
        (default [] (connection_pool s !! release_key a u r w) ++ cs) /\
  forall c,
    In c (drop (MAX_POOL_SIZE -
                  List.length
                    (default [] (connection_pool s !! release_key a u r w)))
               cs) ->
    closed_in c (trace (release_all env cs s)).
Proof.
  intros Hav. induction cs as [|c cs IH]; intros s Hrep Hlen.
  - simpl. rewrite app_nil_r, firstn_all2 by exact Hlen.
    split; [reflexivity|]. intros c. rewrite skipn_nil. intros [].
  - destruct Hrep as [[s1 Hq] Hrep]. rewrite release_all_cons.
    set (key := release_key a u r w) in *.
    set (l0 := default [] (connection_pool s !! key)) in *.
    destruct (Nat.lt_ge_cases (List.length l0) MAX_POOL_SIZE) as [Hlt|Hge].
    + pose proof (release_pushes env c s s1 a u r w Hav Hq Hlt) as Hrun.
      fold key in Hrun. fold l0 in Hrun.
      rewrite Hrun in Hrep |- *. simpl in Hrep |- *.
      specialize (IH _ Hrep). simpl in IH.
      rewrite lookup_insert_eq in IH. simpl in IH.
      rewrite length_app in IH. simpl in IH.
      destruct IH as [IH1 IH2]; [lia|].
      split.
      * rewrite IH1, <- app_assoc. reflexivity.
      * intros c0 Hin. apply IH2.
        replace (MAX_POOL_SIZE - List.length l0)
          with (S (MAX_POOL_SIZE - (List.length l0 + 1))) in Hin by lia.
        exact Hin.
    + destruct (release_closes env c s s1 a u r w Hav Hq Hge)
        as (s' & ok & t & Hrun & Hp & Ht).
      rewrite Hrun in Hrep |- *. simpl in Hrep |- *.
      specialize (IH _ Hrep). rewrite Hp in IH. fold key in IH. fold l0 in IH.
      destruct (IH Hlen) as [IH1 IH2].
      assert (Hfull : List.length l0 = MAX_POOL_SIZE) by lia.
      split.
      * rewrite IH1, !firstn_app, Hfull, Nat.sub_diag. reflexivity.
      * rewrite Hfull, Nat.sub_diag in IH2 |- *. simpl.
        intros c0 [<-|Hin]; [|apply IH2; exact Hin].
        destruct (release_all_extends env cs s') as [t' ->].
        apply closed_in_app. exists ok. rewrite Ht.
        apply in_or_app. right. left. reflexivity.
Qed.

(** C4: every run of acquisitions and releases, from the empty pool or from
    any pool within capacity, leaves every key with at most
    [MAX_POOL_SIZE] = 5 idle connections.  Releasing connections that all
    report one identity into an empty collection retains the first five in
    the order released and calls [close] on every further one; for six
    connections that is five retained and the sixth closed. *)
Theorem pool_never_exceeds_capacity :
  MAX_POOL_SIZE = 5 /\
  (forall ops (s : state World),
     pool_bounded (connection_pool s) ->
     pool_bounded (connection_pool (run_ops ops s))) /\
  (forall ops (w : World),
     pool_bounded (connection_pool (run_ops ops (initial_state w)))) /\
  (forall env a u r w cs (s : state World),
     SNOWFLAKE_AVAILABLE env = true ->
     default [] (connection_pool s !! release_key a u r w) = [] ->
     all_report env a u r w cs s ->
     default [] (connection_pool (release_all env cs s)
                   !! release_key a u r w)
       = take MAX_POOL_SIZE cs /\
     forall c, In c (drop MAX_POOL_SIZE cs) ->
               closed_in c (trace (release_all env cs s))).
Proof.
  split; [reflexivity|]. split; [exact run_ops_bounded|]. split.
  - intros ops w. apply run_ops_bounded. intros k l.
    simpl. rewrite lookup_empty. discriminate.
  - intros env a u r w cs s Hav Hempty Hrep.
    destruct (release_all_spec env a u r w cs Hav s Hrep) as [H1 H2].
    + rewrite Hempty. simpl. lia.
    + rewrite Hempty in H1, H2. simpl in H1, H2.
      split; assumption.
Qed.

(** ** Reuse of a released connection *)

Lemma list_pop_None {A} (l : list A) : list_pop l = None -> l = [].
Proof.
  unfold list_pop. destruct (rev l) as [|x r] eqn:E; [|discriminate].
  intros _. rewrite <- (rev_involutive l), E. reflexivity.
Qed.

(** The probe reads and writes the world only. *)
Lemma liveness_probe_with_pool c p (s : state World) :
  liveness_probe c (with_pool p s) =
    (with_pool p (fst (liveness_probe c s)), snd (liveness_probe c s)).
Proof.
  unfold liveness_probe, bind, get_cursor, execute, fetchone, driver_call.
  simpl. destruct (drv_cursor c (world s)) as [w1 [e|cur]]; simpl;
    [reflexivity|].
  destruct (drv_execute cur "SELECT 1" w1) as [w2 [e|[]]]; simpl;
    [reflexivity|].
  destruct (drv_fetchone cur w2) as [w3 [e|r]]; reflexivity.
Qed.

(** The fast path: a live connection on top of the key's collection is
    handed out, and nothing but the probe reaches the driver. *)
Lemma acquire_reuses env c l (s : state World) :
  SNOWFLAKE_AVAILABLE env = true ->
  required_vars_set env = true ->
  connection_pool s !! acquire_key env = Some (l ++ [c]) ->
  snd (liveness_probe c s) = inr tt ->
  exists s3,
    get_snowflake_connection env s = (s3, inr c) /\
    trace s3 = trace (fst (liveness_probe c s)) /\
    connection_pool s3 = <[acquire_key env := l]> (connection_pool s).
Proof.
  intros Hav Hreq Hl Hprobe.
  unfold get_snowflake_connection. rewrite Hav, Hreq. simpl.
  unfold reuse_pooled at 1. unfold bind at 1. rewrite bind_get_pool.
  rewrite Hl, list_pop_snoc, bind_set_pool.
  change {| connection_pool := <[acquire_key env := l]> (connection_pool s);
            world := world s; trace := trace s; log := log s |}
    with (with_pool (<[acquire_key env := l]> (connection_pool s)) s).
  unfold try_except, bind at 1.
  rewrite liveness_probe_with_pool, Hprobe. simpl.
  eexists. split; [reflexivity|]. split; reflexivity.
Qed.

Lemma acquire_leaves_room env (s s1 : state World) c :
  pool_bounded (connection_pool s) ->
  get_snowflake_connection env s = (s1, inr c) ->
  List.length (default [] (connection_pool s1 !! acquire_key env))
    < MAX_POOL_SIZE.
Proof.
  intros Hb Hrun.
  assert (Hs1 : s1 = fst (get_snowflake_connection env s))
    by (rewrite Hrun; reflexivity).
  unfold get_snowflake_connection in Hrun, Hs1.
  destruct (negb (SNOWFLAKE_AVAILABLE env)); [discriminate|].
  destruct (negb (required_vars_set env)); [discriminate|].
  assert (Hp : connection_pool s1
               = connection_pool (fst (reuse_pooled env (acquire_key env) s))).
  { rewrite Hs1. apply bind_pool. intros [c0|]; frame. }
  rewrite Hp. clear Hrun Hs1 Hp.
  unfold reuse_pooled. rewrite bind_get_pool.
  destruct (connection_pool s !! acquire_key env) as [l|] eqn:Hl.
  - destruct (list_pop l) as [[c0 l']|] eqn:Hpop.
    + rewrite bind_pool
        by (intros _; unfold liveness_probe; unfold_driver; frame).
      simpl. rewrite lookup_insert_eq. simpl.
      apply list_pop_Some in Hpop. subst l. apply Hb in Hl.
      rewrite length_app in Hl. simpl in Hl. lia.
    + simpl. rewrite Hl. simpl. apply list_pop_None in Hpop. subst l.
      simpl. unfold MAX_POOL_SIZE. lia.
  - simpl. rewrite Hl. simpl. unfold MAX_POOL_SIZE. lia.
Qed.

Lemma keys_agree env A U R W :
  SNOWFLAKE_ACCOUNT env = Some A ->
  SNOWFLAKE_USER env = Some U ->
  SNOWFLAKE_ROLE env = Some R ->
  SNOWFLAKE_WAREHOUSE env = Some W ->
  W <> "" ->
  release_key (CStr A) (CStr U) (CStr R) (CStr W) = acquire_key env.
Proof.
  intros HA HU HR HW Hne. unfold release_key, acquire_key.
  rewrite HA, HU, HR, HW. simpl.
  destruct (String.eqb_spec W ""); [congruence|]. simpl.
  rewrite !append_assoc. reflexivity.
Qed.

(** C1, as amended: for a principal with a configured default warehouse,
    when the connection handed out by [get_snowflake_connection] reports at
    release the principal's own account, user, role and warehouse, and the
    liveness probe succeeds, the next [get_snowflake_connection] returns
    the same handle, and the probe is all that reaches the driver: no
    connection is created. *)
Theorem reuse_after_release env A U R W (s0 s1 s1' : state World) c :
  SNOWFLAKE_AVAILABLE env = true ->
  required_vars_set env = true ->
  SNOWFLAKE_ACCOUNT env = Some A ->
  SNOWFLAKE_USER env = Some U ->
  SNOWFLAKE_ROLE env = Some R ->
  SNOWFLAKE_WAREHOUSE env = Some W ->
  W <> "" ->
  pool_bounded (connection_pool s0) ->
  get_snowflake_connection env s0 = (s1, inr c) ->
  query_identity c s1 = (s1', inr (CStr A, CStr U, CStr R, CStr W)) ->
  snd (liveness_probe c (fst (return_connection_to_pool env (Some c) s1)))
    = inr tt ->
  exists s3,
    get_snowflake_connection env
      (fst (return_connection_to_pool env (Some c) s1)) = (s3, inr c) /\
    trace s3 =
      trace (fst (liveness_probe c
                    (fst (return_connection_to_pool env (Some c) s1)))).
Proof.
  intros Hav Hreq HA HU HR HW Hne Hb Hacq Hq Hprobe.
  pose proof (keys_agree env A U R W HA HU HR HW Hne) as Hkey.
  pose proof (acquire_leaves_room env s0 s1 c Hb Hacq) as Hroom.
  rewrite <- Hkey in Hroom.
  pose proof (release_pushes env c s1 s1' _ _ _ _ Hav Hq Hroom) as Hrel.
  rewrite Hrel in Hprobe |- *. simpl fst in *.
  match type of Hprobe with
  | snd (liveness_probe c ?s2) = _ =>
      destruct (acquire_reuses env c
                  (default [] (connection_pool s1 !! acquire_key env)) s2
                  Hav Hreq) as (s3 & Hrun & Ht & _);
        [simpl; rewrite Hkey; apply lookup_insert_eq | exact Hprobe |]
  end.
  exists s3. split; assumption.
Qed.

(** ** The two key formats *)

Lemma acquire_other_key env k (s : state World) :
  k <> acquire_key env ->
  connection_pool (fst (get_snowflake_connection env s)) !! k
    = connection_pool s !! k.
Proof.
  intros Hk. destruct (acquire_pool env s) as [->|(c & l' & _ & ->)];
    [reflexivity|].
  apply lookup_insert_ne. congruence.
Qed.

Lemma acquire_times_other_key env k n (s : state World) :
  k <> acquire_key env ->
  connection_pool (acquire_times env n s) !! k = connection_pool s !! k.
Proof.
  intros Hk. induction n as [|n IH]; [reflexivity|].
  unfold acquire_times in *. simpl.
  rewrite acquire_other_key by exact Hk. exact IH.
Qed.

Lemma release_key_longer env A U R w :
  SNOWFLAKE_ACCOUNT env = Some A ->
  SNOWFLAKE_USER env = Some U ->
  SNOWFLAKE_ROLE env = Some R ->
  truthy (SNOWFLAKE_WAREHOUSE env) = false ->
  release_key (CStr A) (CStr U) (CStr R) w
    = acquire_key env +:+ ("_" +:+ cell_str w).
Proof.
  intros HA HU HR HW. unfold release_key, acquire_key.
  rewrite HA, HU, HR, HW. simpl. rewrite !append_assoc. reflexivity.
Qed.

(** With nothing idle under its key, acquisition is creation. *)
Lemma acquire_creates env (s : state World) :
  SNOWFLAKE_AVAILABLE env = true ->
  required_vars_set env = true ->
  default [] (connection_pool s !! acquire_key env) = [] ->
  get_snowflake_connection env s = create_connection env s.
Proof.
  intros Hav Hreq Hnone. unfold get_snowflake_connection.
  rewrite Hav, Hreq. simpl.
  assert (Hpool : reuse_pooled env (acquire_key env) s = (s, inr None)).
  { unfold reuse_pooled. rewrite bind_get_pool.
    destruct (connection_pool s !! acquire_key env) as [l|]; [|reflexivity].
    simpl in Hnone. subst l. reflexivity. }
  rewrite (bind_inr _ _ _ _ _ Hpool). reflexivity.
Qed.

(** C9: [get_snowflake_connection] looks under account_user_role, with
    _warehouse appended only when a default warehouse is configured;
    [return_connection_to_pool] files under account_user_role_warehouse of
    the session, a NULL warehouse printing as None.  With no default
    warehouse configured, the key under which a connection whose session
    reports the configured account, user and role is released differs
    from the key acquisition computes, whatever the session's warehouse.
    The released connection is stored under it, or closed when that key
    already holds [MAX_POOL_SIZE] connections; no number of later
    acquisitions takes anything out from under that key, and an
    acquisition that finds nothing idle under its own key creates a
    connection. *)
Theorem keys_differ_without_default_warehouse
  env A U R w (s s1 : state World) c :
  SNOWFLAKE_AVAILABLE env = true ->
  SNOWFLAKE_ACCOUNT env = Some A ->
  SNOWFLAKE_USER env = Some U ->
  SNOWFLAKE_ROLE env = Some R ->
  truthy (SNOWFLAKE_WAREHOUSE env) = false ->
  query_identity c s = (s1, inr (CStr A, CStr U, CStr R, w)) ->
  acquire_key env = A +:+ "_" +:+ U +:+ "_" +:+ R /\
  release_key (CStr A) (CStr U) (CStr R) w
    = A +:+ "_" +:+ U +:+ "_" +:+ R +:+ "_" +:+ cell_str w /\
  cell_str CNull = "None" /\
  release_key (CStr A) (CStr U) (CStr R) w <> acquire_key env /\
  (forall n,
     connection_pool
       (acquire_times env n (fst (return_connection_to_pool env (Some c) s)))
       !! release_key (CStr A) (CStr U) (CStr R) w
     = if (List.length
             (default []
                (connection_pool s
                   !! release_key (CStr A) (CStr U) (CStr R) w))
           <? MAX_POOL_SIZE)%nat
       then Some (default []
                    (connection_pool s
                       !! release_key (CStr A) (CStr U) (CStr R) w)
                  ++ [c])
       else connection_pool s !! release_key (CStr A) (CStr U) (CStr R) w) /\
  (MAX_POOL_SIZE <=
     List.length
       (default []
          (connection_pool s !! release_key (CStr A) (CStr U) (CStr R) w)) ->
   closed_in c (trace (fst (return_connection_to_pool env (Some c) s)))) /\
  (required_vars_set env = true ->
   default [] (connection_pool s !! acquire_key env) = [] ->
   get_snowflake_connection env (fst (return_connection_to_pool env (Some c) s))
     = create_connection env (fst (return_connection_to_pool env (Some c) s))).
Proof.
  intros Hav HA HU HR HW Hq.
  assert (Hne : release_key (CStr A) (CStr U) (CStr R) w <> acquire_key env).
  { rewrite (release_key_longer env A U R w HA HU HR HW).
    apply append_longer. discriminate. }
  split; [unfold acquire_key; rewrite HA, HU, HR, HW; reflexivity|].
  split; [reflexivity|]. split; [reflexivity|]. split; [exact Hne|].
  destruct (Nat.lt_ge_cases
              (List.length
                 (default []
                    (connection_pool s
                       !! release_key (CStr A) (CStr U) (CStr R) w)))
              MAX_POOL_SIZE) as [Hroom|Hfull].
  - rewrite (release_pushes env c s s1 _ _ _ _ Hav Hq Hroom). simpl fst.
    rewrite (proj2 (Nat.ltb_lt _ _) Hroom).
    split; [|split].
    + intros n. rewrite acquire_times_other_key by exact Hne. simpl.
      apply lookup_insert_eq.
    + intros Hfull. lia.
    + intros Hreq Hnone. apply acquire_creates; [exact Hav|exact Hreq|].
      simpl. rewrite lookup_insert_ne by exact Hne. exact Hnone.
  - destruct (release_closes env c s s1 _ _ _ _ Hav Hq Hfull)
      as (s' & ok & t & Hrun & Hp & Htr).
    rewrite Hrun. simpl fst.
    rewrite (proj2 (Nat.ltb_ge _ _) Hfull).
    split; [|split].
    + intros n. rewrite acquire_times_other_key by exact Hne.
      rewrite Hp. reflexivity.
    + intros _. exists ok. rewrite Htr. apply in_or_app. right. left.
      reflexivity.
    + intros Hreq Hnone. apply acquire_creates; [exact Hav|exact Hreq|].
      rewrite Hp. exact Hnone.
Qed.

(** ** Further properties of acquisition and release *)

(** X1: the checks come before anything else.  Without the connector the
    result is [ImportError]; with it, one required variable that is unset
    or empty gives [ValueError]; in both cases the state is returned as it
    was: the pool is not read and the driver is not called. *)
Theorem missing_configuration_fails_before_any_effect env (s : state World) :
  (SNOWFLAKE_AVAILABLE env = false ->
   get_snowflake_connection env s =
     (s, inl (ImportError
                "snowflake-connector-python is not installed. Cannot connect to Snowflake."))) /\
  (forall o,
     SNOWFLAKE_AVAILABLE env = true ->
     In o [SNOWFLAKE_ACCOUNT env; SNOWFLAKE_USER env;
           SNOWFLAKE_PASSWORD env; SNOWFLAKE_ROLE env] ->
     o = None \/ o = Some "" ->
     get_snowflake_connection env s =
       (s, inl (ValueError
                  "Missing required Snowflake environment variables. Ensure SNOWFLAKE_ACCOUNT, SNOWFLAKE_USER, SNOWFLAKE_PASSWORD, and SNOWFLAKE_ROLE are set."))).
Proof.
  split.
  - intros Hav. unfold get_snowflake_connection. rewrite Hav. reflexivity.
  - intros o Hav Hin Hempty. unfold get_snowflake_connection.
    rewrite Hav. simpl negb.
    assert (Hreq : required_vars_set env = false).
    { unfold required_vars_set.
      destruct (forallb truthy _) eqn:Hall; [|reflexivity].
      rewrite forallb_forall in Hall. specialize (Hall o Hin).
      destruct Hempty as [->| ->]; discriminate. }
    rewrite Hreq. reflexivity.
Qed.

(** X2: a pooled connection that fails the probe is taken out of the pool,
    [close] is called on it, whatever [close] answers, and the acquisition
    goes on as the creation of a connection: the failure of the probe is
    not the failure of the acquisition. *)
Theorem dead_pooled_connection_is_replaced env c l (s s1 : state World) e :
  SNOWFLAKE_AVAILABLE env = true ->
  required_vars_set env = true ->
  connection_pool s !! acquire_key env = Some (l ++ [c]) ->
  liveness_probe c s = (s1, inl e) ->
  exists s' ok,
    get_snowflake_connection env s = create_connection env s' /\
    connection_pool s' = <[acquire_key env := l]> (connection_pool s) /\
    trace s' = trace s1 ++ [Ev (Close c) ok].
Proof.
  intros Hav Hreq Hl Hprobe.
  unfold get_snowflake_connection. rewrite Hav, Hreq. simpl.
  unfold reuse_pooled at 1. unfold bind at 1. rewrite bind_get_pool.
  rewrite Hl, list_pop_snoc, bind_set_pool.
  change {| connection_pool := <[acquire_key env := l]> (connection_pool s);
            world := world s; trace := trace s; log := log s |}
    with (with_pool (<[acquire_key env := l]> (connection_pool s)) s).
  unfold try_except at 1. unfold bind at 1.
  rewrite liveness_probe_with_pool, Hprobe. simpl fst. simpl snd. cbv iota.
  unfold bind, try_except, logger, close, driver_call, ret. simpl.
  destruct (drv_close c (world s1)) as [w [e'|[]]]; simpl;
    eexists _, _; (split; [reflexivity|]); split; reflexivity.
Qed.

(** X3: a failure of [connect] is classified by its class and text.  A
    [DatabaseError] mentioning insufficient privileges becomes
    [PermissionError]; otherwise one mentioning a failed authentication
    becomes [ValueError] with a fixed text; any other exception is raised
    again as it is.  The pool is untouched and [connect] is the only call
    made to the driver. *)
Theorem connect_errors_are_classified env (s s1 : state World) w e :
  SNOWFLAKE_AVAILABLE env = true ->
  required_vars_set env = true ->
  reuse_pooled env (acquire_key env) s = (s1, inr None) ->
  drv_connect (connect_params env) (world s1) = (w, inl e) ->
  exists s',
    get_snowflake_connection env s =
      (s', inl
             match e with
             | DatabaseError m =>
                 if contains "Insufficient privileges" m
                 then PermissionError
                        ("Insufficient privileges for role "
                           +:+ fmt (SNOWFLAKE_ROLE env) +:+ ". Error: " +:+ m)
                 else if contains "Authentication failed" m
                 then ValueError
                        "Authentication failed. Please check your Snowflake credentials."
                 else e
             | _ => e
             end) /\
    connection_pool s' = connection_pool s1 /\
    trace s' = trace s1 ++ [Ev (Connect (connect_params env)) false].
Proof.
  intros Hav Hreq Hpool Hconn.
  unfold get_snowflake_connection. rewrite Hav, Hreq. simpl.
  rewrite (bind_inr _ _ _ _ _ Hpool).
  unfold create_connection, try_except, bind at 1.
  run_driver Hconn.
  unfold connection_error_handler.
  destruct e as [m|m|m|m|m|m|m]; simpl;
    try (eexists; split; [reflexivity|split; reflexivity]).
  destruct (contains "Insufficient privileges" m);
    [eexists; split; [reflexivity|split; reflexivity]|].
  destruct (contains "Authentication failed" m);
    eexists; split; reflexivity || (split; reflexivity).
Qed.

(** X4: once the connection is made and its role set, nothing that the
    driver answers to the warehouse, database, schema and session
    statements can make the acquisition fail: the connection is returned,
    and the pool is as the pool branch left it. *)
Theorem session_setup_failures_are_not_fatal
  env (s s1 : state World) w2 w3 w4 c cur :
  SNOWFLAKE_AVAILABLE env = true ->
  required_vars_set env = true ->
  reuse_pooled env (acquire_key env) s = (s1, inr None) ->
  drv_connect (connect_params env) (world s1) = (w2, inr c) ->
  drv_cursor c w2 = (w3, inr cur) ->
  drv_execute cur ("USE ROLE " +:+ fmt (SNOWFLAKE_ROLE env)) w3 = (w4, inr tt) ->
  exists s',
    get_snowflake_connection env s = (s', inr c) /\
    connection_pool s' = connection_pool s1.
Proof.
  intros Hav Hreq Hpool Hconn Hcur Hrole.
  assert (Hp : connection_pool (fst (get_snowflake_connection env s))
               = connection_pool s1).
  { unfold get_snowflake_connection. rewrite Hav, Hreq. simpl.
    rewrite (bind_inr _ _ _ _ _ Hpool). apply preserves_create_connection. }
  assert (Hrun : exists s', get_snowflake_connection env s = (s', inr c)).
  { unfold get_snowflake_connection. rewrite Hav, Hreq. simpl.
    rewrite (bind_inr _ _ _ _ _ Hpool). unfold create_connection.
    pose proof (driver_call_eq (Connect (connect_params env))
                  (drv_connect (connect_params env)) s1 w2 (inr c) Hconn)
      as H2.
    fold (connect (connect_params env)) in H2.
    set (s2 := {| connection_pool := connection_pool s1; world := w2;
                  trace := trace s1 ++ [Ev (Connect (connect_params env)) true];
                  log := log s1 |}) in *.
    pose proof (driver_call_eq (Cursor c) (drv_cursor c) s2 w3 (inr cur) Hcur)
      as H3.
    fold (get_cursor c) in H3.
    set (s3 := {| connection_pool := connection_pool s2; world := w3;
                  trace := trace s2 ++ [Ev (Cursor c) true];
                  log := log s2 |}) in *.
    pose proof (set_role_ok env cur s3 w4 Hrole) as H4.
    match type of H4 with
    | _ = (?st, _) => destruct (init_session_ok env cur st) as [s5 H5]
    end.
    eexists. apply try_inr.
    rewrite (bind_inr _ _ _ _ _ H2), (bind_inr _ _ _ _ _ H3),
      (bind_inr _ _ _ _ _ H4), (bind_inr _ _ _ _ _ H5).
    reflexivity. }
  destruct Hrun as [s' Hrun]. exists s'. split; [exact Hrun|].
  rewrite Hrun in Hp. exact Hp.
Qed.

(** What a release does to the pool. *)
Lemma release_pool env conn (s : state World) :
  connection_pool (fst (return_connection_to_pool env conn s))
    = connection_pool s \/
  exists c key,
    conn = Some c /\
    List.length (default [] (connection_pool s !! key)) < MAX_POOL_SIZE /\
    connection_pool (fst (return_connection_to_pool env conn s))
      = <[key := default [] (connection_pool s !! key) ++ [c]]>
          (connection_pool s).
Proof.
  destruct conn as [c|]; [|left; reflexivity].
  destruct (SNOWFLAKE_AVAILABLE env) eqn:Hav;
    [|left; unfold return_connection_to_pool; rewrite Hav; reflexivity].
  destruct (query_identity c s) as [s1 [e|[[[a u] r] w]]] eqn:Hq.
  - destruct (release_after_failed_identity env c s s1 e Hav Hq)
      as (s' & ok & Hrun & Hp & _).
    left. rewrite Hrun. exact Hp.
  - destruct (Nat.lt_ge_cases
                (List.length
                   (default [] (connection_pool s !! release_key a u r w)))
                MAX_POOL_SIZE) as [Hlt|Hge].
    + right. exists c, (release_key a u r w).
      rewrite (release_pushes env c s s1 a u r w Hav Hq Hlt).
      split; [reflexivity|]. split; [exact Hlt|reflexivity].
    + destruct (release_closes env c s s1 a u r w Hav Hq Hge)
        as (s' & ok & t & Hrun & Hp & _).
      left. rewrite Hrun. exact Hp.
Qed.

(** X5: an acquisition leaves the pool as it is or takes the last
    connection of its own key; a release leaves the pool as it is or puts
    the released connection at the end of one key that has room.  Neither
    touches a second key, a release never removes an idle connection and
    an acquisition never adds one. *)
Theorem operations_change_one_pool_entry env conn (s : state World) :
  (connection_pool (fst (get_snowflake_connection env s)) = connection_pool s \/
   exists c l',
     connection_pool s !! acquire_key env = Some (l' ++ [c]) /\
     connection_pool (fst (get_snowflake_connection env s))
       = <[acquire_key env := l']> (connection_pool s)) /\
  (connection_pool (fst (return_connection_to_pool env conn s))
     = connection_pool s \/
   exists c key,
     conn = Some c /\
     List.length (default [] (connection_pool s !! key)) < MAX_POOL_SIZE /\
     connection_pool (fst (return_connection_to_pool env conn s))
       = <[key := default [] (connection_pool s !! key) ++ [c]]>
           (connection_pool s)).
Proof. split; [apply acquire_pool|apply release_pool]. Qed.

(** X6: the pool of a key is a stack.  Of two connections released one
    after the other under the principal's identity, the next acquisition
    returns the one released last and the acquisition after it the one
    released first, provided their probes succeed. *)
Theorem most_recently_released_is_reused_first
  env A U R W c1 c2 (s sa sb : state World) :
  SNOWFLAKE_AVAILABLE env = true ->
  required_vars_set env = true ->
  SNOWFLAKE_ACCOUNT env = Some A ->
  SNOWFLAKE_USER env = Some U ->
  SNOWFLAKE_ROLE env = Some R ->
  SNOWFLAKE_WAREHOUSE env = Some W ->
  W <> "" ->
  List.length (default [] (connection_pool s !! acquire_key env)) + 2
    <= MAX_POOL_SIZE ->
  query_identity c1 s = (sa, inr (CStr A, CStr U, CStr R, CStr W)) ->
  query_identity c2 (fst (return_connection_to_pool env (Some c1) s))
    = (sb, inr (CStr A, CStr U, CStr R, CStr W)) ->
  snd (liveness_probe c2
         (fst (return_connection_to_pool env (Some c2)
                 (fst (return_connection_to_pool env (Some c1) s)))))
    = inr tt ->
  snd (liveness_probe c1
         (fst (get_snowflake_connection env
                 (fst (return_connection_to_pool env (Some c2)
                         (fst (return_connection_to_pool env (Some c1) s)))))))
    = inr tt ->
  snd (get_snowflake_connection env
         (fst (return_connection_to_pool env (Some c2)
                 (fst (return_connection_to_pool env (Some c1) s)))))
    = inr c2 /\
  snd (get_snowflake_connection env
         (fst (get_snowflake_connection env
                 (fst (return_connection_to_pool env (Some c2)
                         (fst (return_connection_to_pool env (Some c1) s)))))))
    = inr c1.
Proof.
  intros Hav Hreq HA HU HR HW Hne Hroom Hq1.
  pose proof (keys_agree env A U R W HA HU HR HW Hne) as Hkey.
  set (idle := default [] (connection_pool s !! acquire_key env)) in *.
  set (s1 := fst (return_connection_to_pool env (Some c1) s)).
  assert (Hs1 : connection_pool s1 !! acquire_key env = Some (idle ++ [c1])).
  { unfold s1. rewrite (release_pushes env c1 s sa _ _ _ _ Hav Hq1);
      rewrite Hkey; [|fold idle; lia].
    simpl. apply lookup_insert_eq. }
  intros Hq2.
  set (s2 := fst (return_connection_to_pool env (Some c2) s1)).
  assert (Hs2 : connection_pool s2 !! acquire_key env
                = Some ((idle ++ [c1]) ++ [c2])).
  { unfold s2. rewrite (release_pushes env c2 s1 sb _ _ _ _ Hav Hq2);
      rewrite Hkey, Hs1; simpl; [|rewrite length_app; simpl; lia].
    apply lookup_insert_eq. }
  intros Hp2.
  destruct (acquire_reuses env c2 (idle ++ [c1]) s2 Hav Hreq Hs2 Hp2)
    as (s3 & Hrun3 & _ & Hpool3).
  rewrite Hrun3. simpl fst. intros Hp1. split; [reflexivity|].
  destruct (acquire_reuses env c1 idle s3 Hav Hreq) as (s4 & Hrun4 & _);
    [rewrite Hpool3; apply lookup_insert_eq | exact Hp1 |].
  rewrite Hrun4. reflexivity.
Qed.

End PoolProofs.

(** ** The pool on the reference backend *)

Section PoolScenarios.
Import Pool.

(** The amended C1 on a usable warehouse: handle 0 is handed out, released
    and handed out again. *)
Lemma reuse_after_release_witness :
  let env := acme_env (Some "WH_BACKUP") in
  let s1 := fst (get_snowflake_connection env (initial_state acme_backend)) in
  exists s3,
    get_snowflake_connection env
      (fst (return_connection_to_pool env (Some 0) s1)) = (s3, inr 0) /\
    trace s3 =
      trace (fst (liveness_probe 0
                    (fst (return_connection_to_pool env (Some 0) s1)))).
Proof.
  intros env s1.
  apply (reuse_after_release env "ACME" "BOT" "ANALYST" "WH_BACKUP"
           (initial_state acme_backend) s1 (fst (query_identity 0 s1)) 0);
    first
      [ discriminate
      | intros k l; simpl; rewrite lookup_empty; discriminate
      | vm_compute; reflexivity ].
Defined.

(** C1 as stated fails where the session's warehouse is not the configured
    one: ANALYST cannot use WH_MISSING, the session falls back to
    WH_BACKUP, the connection is released under the WH_BACKUP key, and the
    next acquisition, which looks under the WH_MISSING key, creates
    connection 1 although the probe of connection 0 succeeds. *)
Lemma reuse_fails_after_warehouse_fallback :
  let env := acme_env (Some "WH_MISSING") in
  let s0 := initial_state acme_backend in
  let s1 := fst (get_snowflake_connection env s0) in
  let s2 := fst (return_connection_to_pool env (Some 0) s1) in
  required_vars_set env = true /\
  snd (get_snowflake_connection env s0) = inr 0 /\
  snd (return_connection_to_pool env (Some 0) s1) = inr tt /\
  snd (liveness_probe 0 s2) = inr tt /\
  snd (get_snowflake_connection env s2) = inr 1 /\
  snd (get_snowflake_connection env s2)
    <> snd (get_snowflake_connection env s0) /\
  connection_pool s2 !! "ACME_BOT_ANALYST_WH_BACKUP" = Some [0] /\
  acquire_key env = "ACME_BOT_ANALYST_WH_MISSING".
Proof. vm_compute. repeat split; try reflexivity. discriminate. Qed.

(** The same with no default warehouse configured: the connection is
    released under the None key and connection 1 is created. *)
Example no_warehouse_connection_recreated :
  let env := acme_env None in
  let s0 := initial_state acme_backend in
  let s1 := fst (get_snowflake_connection env s0) in
  let s2 := fst (return_connection_to_pool env (Some 0) s1) in
  snd (get_snowflake_connection env s0) = inr 0 /\
  snd (liveness_probe 0 s2) = inr tt /\
  snd (get_snowflake_connection env s2) = inr 1 /\
  connection_pool s2 !! "ACME_BOT_ANALYST_None" = Some [0] /\
  acquire_key env = "ACME_BOT_ANALYST".
Proof. vm_compute. repeat split; reflexivity. Qed.

(** C2 on the scenario of the specification: WH_MISSING fails, WH_BACKUP
    is found, the connection is returned. *)
Lemma warehouse_failure_is_not_fatal_witness :
  let env := acme_env (Some "WH_MISSING") in
  let s0 := initial_state acme_backend in
  exists s' t rest,
    get_snowflake_connection env s0 = (s', inr 0) /\
    trace s' =
      trace s0 ++
        [Ev (Connect (connect_params env)) true;
         Ev (Cursor 0) true;
         Ev (Execute 0 "USE ROLE ANALYST") true;
         Ev (Execute 0 "USE WAREHOUSE WH_MISSING") false;
         Ev (Execute 0 "SHOW WAREHOUSES") true;
         Ev (Fetchall 0) true] ++ t ++ rest /\
    fallback_attempts 0 ["WH_BACKUP"] t /\
    warehouse_attempts rest = [].
Proof.
  intros env s0.
  pose (w2 := fst (backend_connect (connect_params env) (world s0))).
  pose (w3 := fst (backend_cursor 0 w2)).
  pose (w4 := fst (backend_execute 0 "USE ROLE ANALYST" w3)).
  pose (w5 := fst (backend_execute 0 "USE WAREHOUSE WH_MISSING" w4)).
  pose (w6 := fst (backend_execute 0 "SHOW WAREHOUSES" w5)).
  destruct (warehouse_failure_is_not_fatal env s0 s0 w2 w3 w4 w5 0 0
              (DatabaseError "Insufficient privileges to operate on warehouse"))
    as (s' & Hrun & Hfallback); try (vm_compute; reflexivity).
  destruct (Hfallback w6 (fst (backend_fetchall 0 w6))
              [[CStr "WH_MISSING"; CStr "STARTED"];
               [CStr "WH_BACKUP"; CStr "STARTED"]])
    as (t & rest & Ht & Hat & Hnone); try (vm_compute; reflexivity).
  - repeat constructor; discriminate.
  - exists s', t, rest. repeat split; assumption.
Defined.

(** The search stops at the first usable warehouse: with WH_A and WH_B
    both usable behind WH_LOCKED, the statements are one failed attempt on
    WH_LOCKED and one successful attempt on WH_A; WH_B is not tried and
    the session is on WH_A. *)
Example fallback_stops_at_first_usable_warehouse :
  let env := acme_env (Some "WH_MISSING") in
  let s' := fst (get_snowflake_connection env (initial_state spare_backend)) in
  snd (get_snowflake_connection env (initial_state spare_backend)) = inr 0 /\
  warehouse_attempts (trace s')
    = [use_warehouse 0 false "WH_MISSING";
       use_warehouse 0 false "WH_LOCKED";
       use_warehouse 0 true "WH_A"] /\
  s_warehouse <$> sessions (world s') !! 0 = Some (CStr "WH_A").
Proof. vm_compute. repeat split; reflexivity. Qed.

(** C3 on a backend that grants no role. *)
Lemma role_failure_raises_permission_error_witness :
  let env := acme_env None in
  let s0 := initial_state locked_backend in
  exists s',
    get_snowflake_connection env s0 =
      (s', inl (PermissionError
                  "Cannot set role to ANALYST. Error: Role does not exist or not authorized")) /\
    connection_pool s' = connection_pool s0 /\
    trace s' =
      trace s0 ++
        [Ev (Connect (connect_params env)) true;
         Ev (Cursor 0) true;
         Ev (Execute 0 "USE ROLE ANALYST") false].
Proof.
  intros env s0.
  pose (w2 := fst (backend_connect (connect_params env) (world s0))).
  apply (role_failure_raises_permission_error env s0 s0 w2 w2 w2 0 0
           (DatabaseError "Role does not exist or not authorized"));
    vm_compute; reflexivity.
Defined.

(** C4 on six connections: five are retained, the sixth is closed. *)
Lemma pool_never_exceeds_capacity_witness :
  let env := acme_env (Some "WH_BACKUP") in
  let s := acquire_times env 6 (initial_state acme_backend) in
  let s' := release_all env [0; 1; 2; 3; 4; 5] s in
  default [] (connection_pool s' !! "ACME_BOT_ANALYST_WH_BACKUP")
    = [0; 1; 2; 3; 4] /\
  closed_in 5 (trace s').
Proof.
  intros env s s'.
  destruct (@pool_never_exceeds_capacity backend backend_driver)
    as (_ & _ & _ & Hsix).
  destruct (Hsix env (CStr "ACME") (CStr "BOT") (CStr "ANALYST")
              (CStr "WH_BACKUP") [0; 1; 2; 3; 4; 5] s) as [Hkept Hclosed].
  - reflexivity.
  - vm_compute. reflexivity.
  - vm_compute. repeat split; eexists; reflexivity.
  - split; [exact Hkept|]. apply Hclosed. left. reflexivity.
Defined.

(** C8 on a handle the backend does not know: the fetch raises, the
    connection is closed and the release returns normally. *)
Lemma release_never_raises_witness :
  let env := acme_env None in
  let s0 := initial_state acme_backend in
  exists s',
    return_connection_to_pool env (Some 7) s0 = (s', inr tt) /\
    connection_pool s' = connection_pool s0 /\
    exists ok,
      trace s' = trace (fst (query_identity 7 s0)) ++ [Ev (Close 7) ok].
Proof.
  intros env s0.
  destruct (release_never_raises env (Some 7) s0) as (s' & Hrun & Hfail).
  destruct (Hfail 7 (fst (query_identity 7 s0)) (OtherError "no such cursor"))
    as [Hp Ht]; try (vm_compute; reflexivity).
  exists s'. repeat split; assumption.
Defined.

(** C9 on the reference backend with no default warehouse. *)
Lemma keys_differ_without_default_warehouse_witness :
  let env := acme_env None in
  let s := fst (get_snowflake_connection env (initial_state acme_backend)) in
  acquire_key env = "ACME_BOT_ANALYST" /\
  release_key (CStr "ACME") (CStr "BOT") (CStr "ANALYST") CNull
    = "ACME_BOT_ANALYST_None" /\
  forall n,
    connection_pool
      (acquire_times env n (fst (return_connection_to_pool env (Some 0) s)))
      !! "ACME_BOT_ANALYST_None" = Some [0].
Proof.
  intros env s.
  destruct (keys_differ_without_default_warehouse env "ACME" "BOT" "ANALYST"
              CNull s (fst (query_identity 0 s)) 0)
    as (Hacq & Hrel & _ & _ & Hstays & _);
    try (vm_compute; reflexivity).
  split; [exact Hacq|]. split; [exact Hrel|]. exact Hstays.
Defined.

(** X1 on the reference backend: without the connector, and with an empty
    password, the acquisition fails and the state is the initial one. *)
Lemma missing_configuration_fails_before_any_effect_witness :
  let s := initial_state acme_backend in
  let offline :=
    {| SNOWFLAKE_AVAILABLE := false;
       SNOWFLAKE_ACCOUNT := Some "ACME"; SNOWFLAKE_USER := Some "BOT";
       SNOWFLAKE_PASSWORD := Some "secret"; SNOWFLAKE_ROLE := Some "ANALYST";
       SNOWFLAKE_WAREHOUSE := None; SNOWFLAKE_DATABASE := None;
       SNOWFLAKE_SCHEMA := None |} in
  let no_password :=
    {| SNOWFLAKE_AVAILABLE := true;
       SNOWFLAKE_ACCOUNT := Some "ACME"; SNOWFLAKE_USER := Some "BOT";
       SNOWFLAKE_PASSWORD := Some ""; SNOWFLAKE_ROLE := Some "ANALYST";
       SNOWFLAKE_WAREHOUSE := None; SNOWFLAKE_DATABASE := None;
       SNOWFLAKE_SCHEMA := None |} in
  get_snowflake_connection offline s =
    (s, inl (ImportError
               "snowflake-connector-python is not installed. Cannot connect to Snowflake.")) /\
  get_snowflake_connection no_password s =
    (s, inl (ValueError
               "Missing required Snowflake environment variables. Ensure SNOWFLAKE_ACCOUNT, SNOWFLAKE_USER, SNOWFLAKE_PASSWORD, and SNOWFLAKE_ROLE are set.")).
Proof.
  intros s offline no_password. split.
  - apply (proj1 (missing_configuration_fails_before_any_effect offline s)).
    reflexivity.
  - apply (proj2 (missing_configuration_fails_before_any_effect no_password s)
             (Some "")).
    + reflexivity.
    + right. right. left. reflexivity.
    + right. reflexivity.
Defined.

(** X2 on a pool holding a handle the backend does not know: its probe
    fails at the fetch, it is closed and taken out of the pool. *)
Lemma dead_pooled_connection_is_replaced_witness :
  let env := acme_env (Some "WH_BACKUP") in
  let s := with_pool {[acquire_key env := [7]]} (initial_state acme_backend) in
  exists s' ok,
    get_snowflake_connection env s = create_connection env s' /\
    connection_pool s' = <[acquire_key env := []]> (connection_pool s) /\
    trace s' = trace (fst (liveness_probe 7 s)) ++ [Ev (Close 7) ok].
Proof.
  intros env s.
  apply (dead_pooled_connection_is_replaced env 7 [] s
           (fst (liveness_probe 7 s)) (OtherError "no such cursor"));
    vm_compute; reflexivity.
Defined.

(** X3 on a driver that refuses every connection for want of privileges. *)
Lemma connect_errors_are_classified_witness :
  let env := acme_env None in
  let s := initial_state "Insufficient privileges to operate on account" in
  exists s',
    get_snowflake_connection (driver := Tools.refusing_driver) env s =
      (s', inl (PermissionError
                  "Insufficient privileges for role ANALYST. Error: Insufficient privileges to operate on account")) /\
    connection_pool s' = connection_pool s /\
    trace s' = [Ev (Connect (connect_params env)) false].
Proof.
  intros env s.
  destruct (connect_errors_are_classified (driver := Tools.refusing_driver)
              env s s "Insufficient privileges to operate on account"
              (DatabaseError "Insufficient privileges to operate on account"))
    as (s' & Hrun & Hp & Ht); try (vm_compute; reflexivity).
  exists s'. split; [exact Hrun|]. split; [exact Hp|exact Ht].
Defined.

(** X4 on the scenario of the specification: the warehouse cannot be
    used, the connection is returned all the same. *)
Lemma session_setup_failures_are_not_fatal_witness :
  let env := acme_env (Some "WH_MISSING") in
  let s := initial_state acme_backend in
  exists s',
    get_snowflake_connection env s = (s', inr 0) /\
    connection_pool s' = connection_pool s.
Proof.
  intros env s.
  pose (w2 := fst (backend_connect (connect_params env) (world s))).
  pose (w4 := fst (backend_execute 0 "USE ROLE ANALYST" w2)).
  apply (session_setup_failures_are_not_fatal env s s w2 w2 w4 0 0);
    vm_compute; reflexivity.
Defined.

(** X6 on two connections of the reference backend: released in the
    order 0, 1, they are handed out in the order 1, 0. *)
Lemma most_recently_released_is_reused_first_witness :
  let env := acme_env (Some "WH_BACKUP") in
  let s := acquire_times env 2 (initial_state acme_backend) in
  let s2 :=
    fst (return_connection_to_pool env (Some 1)
           (fst (return_connection_to_pool env (Some 0) s))) in
  snd (get_snowflake_connection env s2) = inr 1 /\
  snd (get_snowflake_connection env (fst (get_snowflake_connection env s2)))
    = inr 0.
Proof.
  intros env s s2.
  apply (most_recently_released_is_reused_first env
           "ACME" "BOT" "ANALYST" "WH_BACKUP" 0 1 s
           (fst (query_identity 0 s))
           (fst (query_identity 1
                   (fst (return_connection_to_pool env (Some 0) s)))));
    first [ discriminate | vm_compute; reflexivity | vm_compute; lia ].
Defined.

End PoolScenarios.

(** * Properties of the OAuth token manager *)

Section OAuthProofs.
Import OAuth.
Context {World : Type} {platform : Platform World} {urllib : UrlLib}.

Lemma key_in_Some k v (d : gmap string pyval) :
  d !! k = Some v -> key_in k d = true.
Proof.
  intros H. unfold key_in. apply bool_decide_eq_true. rewrite H. eauto.
Qed.

Lemma key_in_None k (d : gmap string pyval) :
  d !! k = None -> key_in k d = false.
Proof.
  intros H. unfold key_in. apply bool_decide_eq_false. rewrite H.
  intros [v Hv]. discriminate.
Qed.

Lemma has_access_token a (d : gmap string pyval) :
  d !! "access_token" = Some a -> no_access_token d = false.
Proof.
  intros H. unfold no_access_token. rewrite (key_in_Some _ _ _ H).
  rewrite orb_false_r. apply bool_decide_eq_false.
  intros ->. rewrite lookup_empty in H. discriminate.
Qed.

Lemma now_eq (s : state World) w t :
  time_time (world s) = (w, t) -> now s = (with_world s w, inr t).
Proof. unfold now. intros ->. reflexivity. Qed.

Lemma post_eq url data auth (s : state World) w r :
  requests_post url data auth (world s) = (w, r) ->
  post url data auth s =
    ({| tokens := tokens s; world := w;
        trace := trace s ++
                 [Ev (Post url data auth)
                     (match r with PostRaised _ => false | _ => true end)];
        log := log s |}, inr r).
Proof. unfold post. intros ->. reflexivity. Qed.

Lemma bind_ok {A B} (m : M World A) (k : A -> M World B) s s' a :
  m s = (s', inr a) -> bind m k s = k a s'.
Proof. unfold bind. intros ->. reflexivity. Qed.

(** [is_expired] on a numeric expiry instant. *)
Lemma is_expired_eq (s : state World) w t e :
  time_time (world s) = (w, t) ->
  dict_get_default "expires_at" (PNum 0) (tokens s) = PNum e ->
  is_expired s = (with_world s w, inr (e <? t)%Z).
Proof.
  intros Ht He. unfold is_expired.
  rewrite (bind_ok _ _ _ _ _ (now_eq s w t Ht)).
  unfold bind, get_tokens. simpl. rewrite He. reflexivity.
Qed.

(** [_save_tokens] never raises and records one write of the tokens. *)
Lemma save_tokens_spec mgr (s : state World) :
  exists s' ok,
    _save_tokens mgr s = (s', inr tt) /\
    tokens s' = tokens s /\
    trace s' = trace s ++ [Ev (WriteCache (token_cache_file mgr) (tokens s)) ok].
Proof.
  unfold _save_tokens.
  destruct (write_cache (token_cache_file mgr) (tokens s) (world s))
    as [w [e|]]; simpl; eexists _, _; repeat split; reflexivity.
Qed.

Lemma request_failed_spec what e (s : state World) :
  exists s',
    request_failed what e s = (s', inr false) /\
    tokens s' = tokens s /\ trace s' = trace s /\ world s' = world s.
Proof.
  unfold request_failed, bind, logger, ret.
  destruct (re_response_text e); simpl; eexists; repeat split; reflexivity.
Qed.

Lemma bind_get_tokens {B} (k : gmap string pyval -> M World B) s :
  bind get_tokens k s = k (tokens s) s.
Proof. reflexivity. Qed.

Lemma expiry_of_eq token_data (s : state World) w t n :
  time_time (world s) = (w, t) ->
  dict_get_default "expires_in" (PNum 3600) token_data = PNum n ->
  expiry_of token_data s = (with_world s w, inr (t + n)%Z).
Proof.
  intros Ht Hn. unfold expiry_of.
  rewrite (bind_ok _ _ _ _ _ (now_eq s w t Ht)), Hn. reflexivity.
Qed.

(** ** [refresh_token] *)

Lemma refresh_without_token mgr (s : state World) :
  tokens s !! "refresh_token" = None ->
  refresh_token mgr s =
    ({| tokens := tokens s; world := world s; trace := trace s;
        log := log s ++ [(Error, "No refresh token available")] |},
     inr false).
Proof.
  intros H. unfold refresh_token. rewrite bind_get_tokens, H. reflexivity.
Qed.

Lemma refresh_rejected mgr (s : state World) stored w r :
  tokens s !! "refresh_token" = Some stored ->
  requests_post (token_url mgr)
    [("grant_type", PStr "refresh_token"); ("refresh_token", stored)]
    (client_id mgr, client_secret mgr) (world s) = (w, r) ->
  rejected r ->
  exists s',
    refresh_token mgr s = (s', inr false) /\
    tokens s' = tokens s /\
    trace s' = trace s ++ [Ev (refresh_call mgr stored) (post_ok r)].
Proof.
  intros Hrt Hpost Hrej. unfold refresh_token.
  rewrite bind_get_tokens, Hrt, (bind_ok _ _ _ _ _ (post_eq _ _ _ s w r Hpost)).
  destruct r as [e|[e|] td]; [| |destruct Hrej];
    match goal with
    | |- context [request_failed ?what e ?s0] =>
        destruct (request_failed_spec what e s0) as (s' & -> & Htok & Htr & _)
    end;
    exists s'; (split; [reflexivity|]); split; assumption.
Qed.

Lemma refresh_success mgr (s : state World) stored w w' td t n :
  tokens s !! "refresh_token" = Some stored ->
  requests_post (token_url mgr)
    [("grant_type", PStr "refresh_token"); ("refresh_token", stored)]
    (client_id mgr, client_secret mgr) (world s) = (w, PostResponse None td) ->
  time_time w = (w', t) ->
  dict_get_default "expires_in" (PNum 3600) td = PNum n ->
  exists s' ok,
    refresh_token mgr s = (s', inr true) /\
    tokens s' = refreshed_tokens stored t n td /\
    trace s' =
      trace s ++
        [Ev (refresh_call mgr stored) true;
         Ev (WriteCache (token_cache_file mgr) (refreshed_tokens stored t n td))
            ok].
Proof.
  intros Hrt Hpost Ht Hn. unfold refresh_token.
  rewrite bind_get_tokens, Hrt,
    (bind_ok _ _ _ _ _ (post_eq _ _ _ s w _ Hpost)).
  set (s0 := {| tokens := tokens s; world := w; trace := _; log := log s |}).
  rewrite (bind_ok _ _ _ _ _ (expiry_of_eq td s0 w' t n Ht Hn)).
  rewrite bind_get_tokens. simpl tokens. rewrite Hrt.
  rewrite lookup_insert_ne by discriminate.
  fold (refreshed_tokens stored t n td).
  set (s1 := {| tokens := refreshed_tokens stored t n td;
                world := world (with_world s0 w');
                trace := trace (with_world s0 w');
                log := log (with_world s0 w') |}).
  destruct (save_tokens_spec mgr s1) as (s2 & ok & Hsave & Htok & Htr).
  exists {| tokens := tokens s2; world := world s2; trace := trace s2;
            log := log s2 ++ [(Info, "Successfully refreshed OAuth tokens")] |},
    ok.
  split; [|split; [exact Htok|]].
  - change (bind (set_tokens (refreshed_tokens stored t n td)) ?k
              (with_world s0 w')) with (k tt s1).
    cbv beta. rewrite (bind_ok _ _ _ _ _ Hsave). reflexivity.
  - simpl. rewrite Htr. unfold s1, s0. simpl. rewrite <- app_assoc.
    reflexivity.
Qed.


Lemma refreshed_access_token stored t n td :
  refreshed_tokens stored t n td !! "access_token" = td !! "access_token".
Proof.
  unfold refreshed_tokens. destruct (td !! "refresh_token");
    rewrite ?lookup_insert_ne by discriminate; reflexivity.
Qed.


(** ** [get_access_token] *)

(** What [get_access_token] does for the answers the token calls handle.
    When an access token is stored whose expiry instant has passed and a
    refresh token is stored, it posts exactly one refresh request.  When
    the endpoint answers it with a numeric or absent lifetime, the result
    is the access token of the answer; when the endpoint rejects it or the
    request fails, the result is [None], no exception is raised and the
    tokens are unchanged.  When no access token is stored the result is
    [None] and nothing is posted.  The answer left out here is a
    successful one whose lifetime is not a number. *)
Theorem get_access_token_refreshes_once mgr (s : state World) :
  (no_access_token (tokens s) = true ->
   exists s',
     get_access_token mgr s = (s', inr PNone) /\
     tokens s' = tokens s /\ trace s' = trace s /\ world s' = world s) /\
  (forall a stored e t w1 w2 r,
     tokens s !! "access_token" = Some a ->
     tokens s !! "refresh_token" = Some stored ->
     dict_get_default "expires_at" (PNum 0) (tokens s) = PNum e ->
     time_time (world s) = (w1, t) ->
     (e < t)%Z ->
     requests_post (token_url mgr)
       [("grant_type", PStr "refresh_token"); ("refresh_token", stored)]
       (client_id mgr, client_secret mgr) w1 = (w2, r) ->
     (rejected r ->
      exists s',
        get_access_token mgr s = (s', inr PNone) /\
        tokens s' = tokens s /\
        trace s' = trace s ++ [Ev (refresh_call mgr stored) (post_ok r)]) /\
     (forall td w3 t' n,
        r = PostResponse None td ->
        time_time w2 = (w3, t') ->
        dict_get_default "expires_in" (PNum 3600) td = PNum n ->
        exists s' ok,
          get_access_token mgr s = (s', inr (dict_get "access_token" td)) /\
          tokens s' = refreshed_tokens stored t' n td /\
          trace s' =
            trace s ++
              [Ev (refresh_call mgr stored) true;
               Ev (WriteCache (token_cache_file mgr) (tokens s')) ok])).
Proof.
  split.
  - intros H. unfold get_access_token. rewrite bind_get_tokens, H.
    eexists. split; [reflexivity|]. repeat split; reflexivity.
  - intros a stored e t w1 w2 r Ha Hrt He Ht Hlt Hpost.
    assert (Hstart :
      get_access_token mgr s =
        bind (refresh_token mgr)
          (fun refreshed : bool =>
             if negb refreshed then ret PNone
             else bind get_tokens
                    (fun d => ret (dict_get "access_token" d)))
          {| tokens := tokens s; world := w1; trace := trace s;
             log := log s ++
                    [(Info, "Access token expired, attempting to refresh")] |}).
    { unfold get_access_token.
      rewrite bind_get_tokens, (has_access_token a _ Ha).
      rewrite (bind_ok _ _ _ _ _ (is_expired_eq s w1 t e Ht He)).
      apply Z.ltb_lt in Hlt. rewrite Hlt. reflexivity. }
    rewrite Hstart. clear Hstart.
    set (s1 := {| tokens := tokens s; world := w1; trace := trace s;
                  log := _ |}).
    split.
    + intros Hrej.
      destruct (refresh_rejected mgr s1 stored w2 r Hrt Hpost Hrej)
        as (s' & Hrun & Htok & Htr).
      exists s'. rewrite (bind_ok _ _ _ _ _ Hrun).
      split; [reflexivity|]. split; assumption.
    + intros td w3 t' n -> Ht' Hn.
      destruct (refresh_success mgr s1 stored w2 w3 td t' n Hrt Hpost Ht' Hn)
        as (s' & ok & Hrun & Htok & Htr).
      exists s', ok. rewrite (bind_ok _ _ _ _ _ Hrun). simpl.
      rewrite bind_get_tokens. unfold ret, dict_get.
      rewrite Htok, refreshed_access_token.
      split; [reflexivity|]. split; [reflexivity|exact Htr].
Qed.

(** ** [get_connection_parameters] *)

(** C10: for a stored access token whose expiry instant has passed, with a
    refresh token stored, [has_valid_tokens] answers true and
    [get_connection_parameters] returns the stored access token as it is:
    nothing is posted to the token endpoint and the tokens are unchanged. *)
Theorem expired_token_returned_without_refresh
  mgr (s : state World) a stored e t w1 :
  tokens s !! "access_token" = Some a ->
  tokens s !! "refresh_token" = Some stored ->
  dict_get_default "expires_at" (PNum 0) (tokens s) = PNum e ->
  time_time (world s) = (w1, t) ->
  (e < t)%Z ->
  has_valid_tokens s = (with_world s w1, inr true) /\
  get_connection_parameters mgr s =
    (with_world s w1,
     inr (<["token" := a]> (<["authenticator" := PStr "oauth"]> ∅))) /\
  trace (fst (get_connection_parameters mgr s)) = trace s /\
  tokens (fst (get_connection_parameters mgr s)) = tokens s.
Proof.
  intros Ha Hrt He Ht Hlt.
  assert (Hvalid : has_valid_tokens s = (with_world s w1, inr true)).
  { unfold has_valid_tokens.
    rewrite bind_get_tokens, (has_access_token a _ Ha).
    rewrite (bind_ok _ _ _ _ _ (is_expired_eq s w1 t e Ht He)).
    apply Z.ltb_lt in Hlt. rewrite Hlt, bind_get_tokens. simpl.
    rewrite (key_in_Some _ _ _ Hrt). reflexivity. }
  assert (Hrun : get_connection_parameters mgr s =
            (with_world s w1,
             inr (<["token" := a]> (<["authenticator" := PStr "oauth"]> ∅)))).
  { unfold get_connection_parameters.
    rewrite (bind_ok _ _ _ _ _ Hvalid). simpl.
    rewrite bind_get_tokens. simpl. unfold dict_get. rewrite Ha. reflexivity. }
  split; [exact Hvalid|]. split; [exact Hrun|]. rewrite Hrun.
  split; reflexivity.
Qed.

(** ** The callback handler *)

Lemma expiry_of_trace td (s : state World) :
  trace (fst (expiry_of td s)) = trace s.
Proof.
  unfold expiry_of, bind, now. destruct (time_time (world s)) as [w t].
  destruct (dict_get_default "expires_in" (PNum 3600) td); reflexivity.
Qed.

(** Every call of [exchange_code_for_token] posts to the token endpoint. *)
Lemma exchange_posts mgr code (s : state World) :
  exists ok t,
    trace (fst (exchange_code_for_token mgr code s)) =
      trace s ++
        Ev (Post (token_url mgr)
              [("grant_type", PStr "authorization_code");
               ("code", PStr code);
               ("redirect_uri", PStr (redirect_uri mgr))]
              (client_id mgr, client_secret mgr)) ok :: t.
Proof.
  unfold exchange_code_for_token.
  destruct (requests_post (token_url mgr)
              [("grant_type", PStr "authorization_code");
               ("code", PStr code);
               ("redirect_uri", PStr (redirect_uri mgr))]
              (client_id mgr, client_secret mgr) (world s))
    as [w r] eqn:Hpost.
  rewrite (bind_ok _ _ _ _ _ (post_eq _ _ _ s w r Hpost)).
  set (s0 := {| tokens := tokens s; world := w; trace := _; log := log s |}).
  destruct r as [e|[e|] td].
  - destruct (request_failed_spec "Error exchanging code for token: " e s0)
      as (s' & -> & _ & Htr & _).
    eexists _, []. simpl. rewrite Htr. reflexivity.
  - destruct (request_failed_spec "Error exchanging code for token: " e s0)
      as (s' & -> & _ & Htr & _).
    eexists _, []. simpl. rewrite Htr. reflexivity.
  - pose proof (expiry_of_trace td s0) as Hexp.
    unfold bind at 1. destruct (expiry_of td s0) as [s1 [e|n]]; simpl in Hexp.
    + eexists _, []. simpl. rewrite Hexp. reflexivity.
    + set (s2 := {| tokens := <["expires_at" := PNum n]> td;
                    world := world s1; trace := trace s1; log := log s1 |}).
      destruct (save_tokens_spec mgr s2) as (s3 & ok & Hsave & _ & Htr).
      change (bind (set_tokens (<["expires_at" := PNum n]> td)) ?k s1)
        with (k tt s2).
      cbv beta. rewrite (bind_ok _ _ _ _ _ Hsave).
      eexists _, [_]. simpl. rewrite Htr. simpl. rewrite Hexp. unfold s0.
      simpl. rewrite <- app_assoc. reflexivity.
Qed.

Lemma send_response_eq requestline msg code (s : state World) :
  send_response requestline msg code s =
    ({| tokens := tokens s; world := world s; trace := trace s;
        log := log s ++ [(Info, request_log requestline code)] |},
     inr {| message := msg; status_code := code |}).
Proof. reflexivity. Qed.

(** C5: a request to the callback path whose [state] parameter is absent,
    or whose first [state] value is not the state the server was set up
    with, is answered 400, and the one thing it changes is the log, which
    gains the line of the answer: the tokens, the world and the history of
    calls are as they were, so no token exchange is made.  In general a
    request changes the history of calls only when its [state] equals the
    expected one, and every call of [exchange_code_for_token] does change
    it. *)
Theorem invalid_state_rejected_before_exchange
  mgr expected requestline path (s : state World) :
  (String.prefix "/oauth/callback" path = true ->
   (parse_qs (urlparse_query path) !! "state" = None \/
    exists v vs,
      parse_qs (urlparse_query path) !! "state" = Some (v :: vs) /\
      v <> expected) ->
   do_GET mgr expected requestline path s =
     ({| tokens := tokens s; world := world s; trace := trace s;
         log := log s ++ [(Info, request_log requestline 400)] |},
      inr {| message := "Error: Invalid state parameter";
             status_code := 400 |})) /\
  (trace (fst (do_GET mgr expected requestline path s)) <> trace s ->
   String.prefix "/oauth/callback" path = true /\
   exists vs,
     parse_qs (urlparse_query path) !! "state" = Some (expected :: vs)) /\
  (forall code s0,
     trace (fst (exchange_code_for_token mgr code s0)) <> trace s0).
Proof.
  split; [|split].
  - intros Hp [Hnone|(v & vs & Hsome & Hne)];
      unfold do_GET, try_except, bind, first_value; rewrite Hp.
    + rewrite Hnone. reflexivity.
    + rewrite Hsome. simpl.
      destruct (String.eqb_spec v expected); [congruence|]. reflexivity.
  - intros Hchanged.
    destruct (String.prefix "/oauth/callback" path) eqn:Hp.
    + split; [reflexivity|].
      destruct (parse_qs (urlparse_query path) !! "state") as [[|v vs]|] eqn:Hs.
      * exfalso. apply Hchanged.
        unfold do_GET, try_except, bind, first_value. rewrite Hp, Hs.
        reflexivity.
      * destruct (String.eqb_spec v expected) as [->|Hne]; [eauto|].
        exfalso. apply Hchanged.
        unfold do_GET, try_except, bind, first_value. rewrite Hp, Hs. simpl.
        destruct (String.eqb_spec v expected); [congruence|]. reflexivity.
      * exfalso. apply Hchanged.
        unfold do_GET, try_except, bind. rewrite Hp, Hs. reflexivity.
    + exfalso. apply Hchanged. unfold do_GET, try_except. rewrite Hp.
      reflexivity.
  - intros code s0 Heq.
    destruct (exchange_posts mgr code s0) as (ok & t & Ht).
    rewrite Ht in Heq. apply (f_equal (@List.length _)) in Heq.
    rewrite length_app in Heq. simpl in Heq. lia.
Qed.

(** ** Further properties of the token manager *)



(** X12: [do_GET] answers every request: whatever the path, the
    parameters and the token endpoint do, an exception inside the handler
    included, it returns a response, and the status is 200, 400, 404 or
    500. *)
Theorem callback_always_answers
  mgr expected requestline path (s : state World) :
  exists s' resp,
    do_GET mgr expected requestline path s = (s', inr resp) /\
    In (status_code resp) [200; 400; 404; 500]%Z.
Proof.
  unfold do_GET.
  assert (Hbody : forall (body : M World response),
            (forall s1 resp, body s = (s1, inr resp) ->
               In (status_code resp) [200; 400; 404; 500]%Z) ->
            exists s' resp,
              try_except body
                (fun e =>
                   bind (logger Error
                           ("Error handling OAuth callback: " +:+ exn_str e))
                     (fun _ =>
                        send_response requestline
                          ("Server Error: " +:+ exn_str e) 500))
                s = (s', inr resp) /\
              In (status_code resp) [200; 400; 404; 500]%Z).
  { intros body Hstatus. unfold try_except.
    destruct (body s) as [s1 [e|resp]] eqn:Hrun.
    - eexists _, _. split; [reflexivity|]. simpl. tauto.
    - exists s1, resp. split; [reflexivity|]. eapply Hstatus. reflexivity. }
  apply Hbody. clear Hbody. intros s1 resp.
  destruct (String.prefix "/oauth/callback" path);
    [|rewrite send_response_eq; intros [= <- <-]; simpl; tauto].
  unfold bind at 1.
  destruct (parse_qs (urlparse_query path) !! "state") as [vs|] eqn:Hs.
  - unfold bind at 1. unfold first_value. rewrite Hs.
    destruct vs as [|v vs]; simpl; [discriminate|].
    destruct (negb (String.eqb v expected));
      [rewrite send_response_eq; intros [= <- <-]; simpl; tauto|].
    destruct (parse_qs (urlparse_query path) !! "error") as [es|] eqn:He.
    + unfold bind at 1.
      destruct es as [|e es]; simpl; [discriminate|].
      unfold bind at 1.
      destruct (default ["Unknown error"]
                  (parse_qs (urlparse_query path) !! "error_description"))
        as [|d ds]; simpl; [discriminate|].
      rewrite send_response_eq. intros [= <- <-]. simpl. tauto.
    + destruct (parse_qs (urlparse_query path) !! "code") as [cs|] eqn:Hc;
        [|rewrite send_response_eq; intros [= <- <-]; simpl; tauto].
      unfold bind at 1.
      destruct cs as [|c cs]; simpl; [discriminate|].
      unfold bind at 1.
      destruct (exchange_code_for_token mgr c s) as [s2 [e|[|]]];
        [discriminate| |];
        rewrite send_response_eq; intros [= <- <-]; simpl; tauto.
  - simpl. rewrite send_response_eq. intros [= <- <-]. simpl. tauto.
Qed.

Lemma expiry_of_tokens td (s : state World) :
  tokens (fst (expiry_of td s)) = tokens s.
Proof.
  unfold expiry_of, bind, now. destruct (time_time (world s)) as [w t].
  destruct (dict_get_default "expires_in" (PNum 3600) td); reflexivity.
Qed.

(** An exchange that does not return true leaves the tokens as they
    were. *)
Lemma exchange_keeps_tokens mgr code (s : state World) :
  exists s' r,
    exchange_code_for_token mgr code s = (s', r) /\
    (r = inr true \/ tokens s' = tokens s).
Proof.
  unfold exchange_code_for_token.
  destruct (requests_post (token_url mgr)
              [("grant_type", PStr "authorization_code");
               ("code", PStr code);
               ("redirect_uri", PStr (redirect_uri mgr))]
              (client_id mgr, client_secret mgr) (world s))
    as [w r] eqn:Hpost.
  rewrite (bind_ok _ _ _ _ _ (post_eq _ _ _ s w r Hpost)).
  set (s0 := {| tokens := tokens s; world := w; trace := _; log := log s |}).
  destruct r as [e|[e|] td].
  - destruct (request_failed_spec "Error exchanging code for token: " e s0)
      as (s' & -> & Htok & _).
    eexists _, _. split; [reflexivity|]. right. exact Htok.
  - destruct (request_failed_spec "Error exchanging code for token: " e s0)
      as (s' & -> & Htok & _).
    eexists _, _. split; [reflexivity|]. right. exact Htok.
  - pose proof (expiry_of_tokens td s0) as Hexp.
    unfold bind at 1. destruct (expiry_of td s0) as [s1 [e|n]]; simpl in Hexp.
    + eexists _, _. split; [reflexivity|]. right. exact Hexp.
    + set (s2 := {| tokens := <["expires_at" := PNum n]> td;
                    world := world s1; trace := trace s1; log := log s1 |}).
      destruct (save_tokens_spec mgr s2) as (s3 & ok & Hsave & _).
      change (bind (set_tokens (<["expires_at" := PNum n]> td)) ?k s1)
        with (k tt s2).
      cbv beta. rewrite (bind_ok _ _ _ _ _ Hsave).
      eexists _, _. split; [reflexivity|]. left. reflexivity.
Qed.

(** X13: the callback changes the stored tokens only when it answers 200.
    Whatever else it answers, a failed exchange and an exception inside
    the handler included, the tokens are the ones stored before; and it
    answers 200 only for a request to the callback path whose first
    [state] is the expected one, that carries no [error], and whose first
    [code] the token endpoint accepted: the state is then the one the
    exchange left, with the line of the answer added to the log. *)
Theorem callback_stores_tokens_only_with_200
  mgr expected requestline path (s s' : state World) resp :
  do_GET mgr expected requestline path s = (s', inr resp) ->
  (status_code resp <> 200%Z -> tokens s' = tokens s) /\
  (status_code resp = 200%Z ->
   String.prefix "/oauth/callback" path = true /\
   exists vs code cs s1,
     parse_qs (urlparse_query path) !! "state" = Some (expected :: vs) /\
     parse_qs (urlparse_query path) !! "error" = None /\
     parse_qs (urlparse_query path) !! "code" = Some (code :: cs) /\
     exchange_code_for_token mgr code s = (s1, inr true) /\
     s' = {| tokens := tokens s1; world := world s1; trace := trace s1;
             log := log s1 ++ [(Info, request_log requestline 200)] |}).
Proof.
  unfold do_GET.
  assert (Hbody : forall (body : M World response) (P : state World -> Prop),
            (forall s1 e, body s = (s1, inl e) -> tokens s1 = tokens s) ->
            (forall s1 r, body s = (s1, inr r) ->
               (status_code r <> 200%Z -> tokens s1 = tokens s) /\
               (status_code r = 200%Z -> P s1)) ->
            try_except body
              (fun e =>
                 bind (logger Error
                         ("Error handling OAuth callback: " +:+ exn_str e))
                   (fun _ =>
                      send_response requestline
                        ("Server Error: " +:+ exn_str e) 500))
              s = (s', inr resp) ->
            (status_code resp <> 200%Z -> tokens s' = tokens s) /\
            (status_code resp = 200%Z -> P s')).
  { intros body P Hraise Hret. unfold try_except.
    destruct (body s) as [s1 [e|r]] eqn:Hrun.
    - unfold bind, logger, send_response, ret. intros [= <- <-]. simpl.
      split; [intros _; eapply Hraise; reflexivity|discriminate].
    - intros [= <- <-]. eapply Hret. reflexivity. }
  apply (Hbody _
           (fun s2 =>
              String.prefix "/oauth/callback" path = true /\
              exists vs code cs s1,
                parse_qs (urlparse_query path) !! "state"
                  = Some (expected :: vs) /\
                parse_qs (urlparse_query path) !! "error" = None /\
                parse_qs (urlparse_query path) !! "code" = Some (code :: cs) /\
                exchange_code_for_token mgr code s = (s1, inr true) /\
                s2 = {| tokens := tokens s1; world := world s1;
                        trace := trace s1;
                        log := log s1
                               ++ [(Info, request_log requestline 200)] |}));
    clear Hbody.
  - (* the body raises *)
    intros s1 e.
    destruct (String.prefix "/oauth/callback" path);
      [|rewrite send_response_eq; discriminate].
    unfold bind at 1.
    destruct (parse_qs (urlparse_query path) !! "state") as [vs|] eqn:Hs;
      [|simpl; rewrite send_response_eq; discriminate].
    unfold bind at 1. unfold first_value. rewrite Hs.
    destruct vs as [|v vs]; simpl; [intros [= <- _]; reflexivity|].
    destruct (negb (String.eqb v expected));
      [rewrite send_response_eq; discriminate|].
    destruct (parse_qs (urlparse_query path) !! "error") as [es|] eqn:He.
    + unfold bind at 1.
      destruct es as [|e0 es]; simpl; [intros [= <- _]; reflexivity|].
      unfold bind at 1.
      destruct (default ["Unknown error"]
                  (parse_qs (urlparse_query path) !! "error_description"))
        as [|d ds]; simpl;
        [intros [= <- _]; reflexivity
        |rewrite send_response_eq; discriminate].
    + destruct (parse_qs (urlparse_query path) !! "code") as [cs|] eqn:Hc;
        [|rewrite send_response_eq; discriminate].
      unfold bind at 1.
      destruct cs as [|c cs]; simpl; [intros [= <- _]; reflexivity|].
      unfold bind at 1.
      destruct (exchange_keeps_tokens mgr c s) as (s2 & r & -> & [->|Hkeep]);
        [rewrite send_response_eq; discriminate|].
      destruct r as [e2|[|]];
        [intros [= Hs' _]; subst s2; exact Hkeep| |];
        rewrite send_response_eq; discriminate.
  - (* the body returns *)
    intros s1 r.
    destruct (String.prefix "/oauth/callback" path);
      [|rewrite send_response_eq; intros [= <- <-]; simpl;
        split; [reflexivity|discriminate]].
    unfold bind at 1.
    destruct (parse_qs (urlparse_query path) !! "state") as [vs|] eqn:Hs;
      [|simpl; rewrite send_response_eq; intros [= <- <-]; simpl;
        split; [reflexivity|discriminate]].
    unfold bind at 1. unfold first_value. rewrite Hs.
    destruct vs as [|v vs]; simpl; [discriminate|].
    destruct (String.eqb_spec v expected) as [->|Hne]; simpl;
      [|rewrite send_response_eq; intros [= <- <-]; simpl;
        split; [reflexivity|discriminate]].
    destruct (parse_qs (urlparse_query path) !! "error") as [es|] eqn:He.
    + unfold bind at 1.
      destruct es as [|e0 es]; simpl; [discriminate|].
      unfold bind at 1.
      destruct (default ["Unknown error"]
                  (parse_qs (urlparse_query path) !! "error_description"))
        as [|d ds]; simpl; [discriminate|].
      rewrite send_response_eq. intros [= <- <-]. simpl.
      split; [reflexivity|discriminate].
    + destruct (parse_qs (urlparse_query path) !! "code") as [cs|] eqn:Hc;
        [|rewrite send_response_eq; intros [= <- <-]; simpl;
          split; [reflexivity|discriminate]].
      unfold bind at 1.
      destruct cs as [|c cs]; simpl; [discriminate|].
      unfold bind at 1.
      destruct (exchange_keeps_tokens mgr c s) as (s2 & r0 & Hex & Hcase).
      rewrite Hex.
      destruct r0 as [e2|[|]]; [discriminate| |].
      * rewrite send_response_eq. intros [= <- <-]. simpl.
        split; [congruence|]. intros _. split; [reflexivity|].
        exists vs, c, cs, s2. repeat split; reflexivity || exact Hex.
      * destruct Hcase as [Htrue|Hkeep]; [discriminate|].
        rewrite send_response_eq. intros [= <- <-]. simpl.
        split; [intros _; exact Hkeep|discriminate].
Qed.

(** X14: an access token whose expiry instant has not passed is used as
    it is.  The comparison is strict, so at the expiry instant itself the
    token still counts; the clock is read once, nothing is posted, nothing
    is logged and the tokens are unchanged. *)
Theorem unexpired_token_is_used_as_it_is mgr (s : state World) a e t w1 :
  tokens s !! "access_token" = Some a ->
  dict_get_default "expires_at" (PNum 0) (tokens s) = PNum e ->
  time_time (world s) = (w1, t) ->
  (t <= e)%Z ->
  get_access_token mgr s = (with_world s w1, inr a) /\
  has_valid_tokens s = (with_world s w1, inr true) /\
  get_connection_parameters mgr s =
    (with_world s w1,
     inr (<["token" := a]> (<["authenticator" := PStr "oauth"]> ∅))).
Proof.
  intros Ha He Ht Hle.
  assert (Hfresh : (e <? t)%Z = false) by (apply Z.ltb_ge; exact Hle).
  assert (Hvalid : has_valid_tokens s = (with_world s w1, inr true)).
  { unfold has_valid_tokens.
    rewrite bind_get_tokens, (has_access_token a _ Ha).
    rewrite (bind_ok _ _ _ _ _ (is_expired_eq s w1 t e Ht He)), Hfresh.
    reflexivity. }
  split; [|split; [exact Hvalid|]].
  - unfold get_access_token.
    rewrite bind_get_tokens, (has_access_token a _ Ha).
    rewrite (bind_ok _ _ _ _ _ (is_expired_eq s w1 t e Ht He)), Hfresh.
    rewrite bind_get_tokens. simpl. unfold dict_get. rewrite Ha. reflexivity.
  - unfold get_connection_parameters.
    rewrite (bind_ok _ _ _ _ _ Hvalid). simpl.
    rewrite bind_get_tokens. simpl. unfold dict_get. rewrite Ha. reflexivity.
Qed.

(** X15: an access token whose expiry instant has passed, with no refresh
    token stored, is a logged-out state for all three readers:
    [get_access_token] returns [None], [has_valid_tokens] false and
    [get_connection_parameters] the empty dictionary.  None of them posts
    to the token endpoint or changes the tokens. *)
Theorem expired_token_without_refresh_token mgr (s : state World) a e t w1 :
  tokens s !! "access_token" = Some a ->
  tokens s !! "refresh_token" = None ->
  dict_get_default "expires_at" (PNum 0) (tokens s) = PNum e ->
  time_time (world s) = (w1, t) ->
  (e < t)%Z ->
  get_access_token mgr s =
    ({| tokens := tokens s; world := w1; trace := trace s;
        log := log s ++
               [(Info, "Access token expired, attempting to refresh");
                (Error, "No refresh token available")] |},
     inr PNone) /\
  has_valid_tokens s = (with_world s w1, inr false) /\
  get_connection_parameters mgr s = (with_world s w1, inr ∅).
Proof.
  intros Ha Hrt He Ht Hlt.
  assert (Hexp : (e <? t)%Z = true) by (apply Z.ltb_lt; exact Hlt).
  assert (Hvalid : has_valid_tokens s = (with_world s w1, inr false)).
  { unfold has_valid_tokens.
    rewrite bind_get_tokens, (has_access_token a _ Ha).
    rewrite (bind_ok _ _ _ _ _ (is_expired_eq s w1 t e Ht He)), Hexp.
    rewrite bind_get_tokens. simpl. rewrite (key_in_None _ _ Hrt).
    reflexivity. }
  split; [|split; [exact Hvalid|]].
  - unfold get_access_token.
    rewrite bind_get_tokens, (has_access_token a _ Ha).
    rewrite (bind_ok _ _ _ _ _ (is_expired_eq s w1 t e Ht He)), Hexp.
    set (s1 := {| tokens := tokens s; world := w1; trace := trace s;
                  log := log s ++
                         [(Info, "Access token expired, attempting to refresh")] |}).
    assert (Hrt1 : tokens s1 !! "refresh_token" = None) by exact Hrt.
    change (bind (logger Info "Access token expired, attempting to refresh")
              ?k (with_world s w1)) with (k tt s1).
    cbv beta. rewrite (bind_ok _ _ _ _ _ (refresh_without_token mgr s1 Hrt1)).
    simpl. rewrite <- app_assoc. reflexivity.
  - unfold get_connection_parameters.
    rewrite (bind_ok _ _ _ _ _ Hvalid). simpl.
    rewrite bind_get_tokens. simpl. rewrite (key_in_None _ _ Hrt).
    reflexivity.
Qed.

Lemma expiry_of_raises td (s : state World) w t v :
  time_time (world s) = (w, t) ->
  td !! "expires_in" = Some v ->
  (forall n, v <> PNum n) ->
  exists m, expiry_of td s = (with_world s w, inl (TypeError m)).
Proof.
  intros Ht Hv Hnum. unfold expiry_of.
  rewrite (bind_ok _ _ _ _ _ (now_eq s w t Ht)).
  unfold dict_get_default. rewrite Hv. simpl.
  destruct v as [|x|n]; [eexists; reflexivity|eexists; reflexivity|].
  destruct (Hnum n). reflexivity.
Qed.

(** X16: a successful answer of the token endpoint whose [expires_in] is
    not a number makes both token calls raise [TypeError]: the exception
    is not a [RequestException], so it is not turned into false.  The
    request has been posted, the tokens are unchanged and nothing is
    written to the cache file. *)
Theorem non_numeric_lifetime_raises_type_error
  mgr (s : state World) w w' t td v :
  time_time w = (w', t) ->
  td !! "expires_in" = Some v ->
  (forall n, v <> PNum n) ->
  (forall code,
     requests_post (token_url mgr)
       [("grant_type", PStr "authorization_code");
        ("code", PStr code);
        ("redirect_uri", PStr (redirect_uri mgr))]
       (client_id mgr, client_secret mgr) (world s)
       = (w, PostResponse None td) ->
     exists s' m,
       exchange_code_for_token mgr code s = (s', inl (TypeError m)) /\
       tokens s' = tokens s /\
       trace s' =
         trace s ++
           [Ev (Post (token_url mgr)
                  [("grant_type", PStr "authorization_code");
                   ("code", PStr code);
                   ("redirect_uri", PStr (redirect_uri mgr))]
                  (client_id mgr, client_secret mgr)) true]) /\
  (forall stored,
     tokens s !! "refresh_token" = Some stored ->
     requests_post (token_url mgr)
       [("grant_type", PStr "refresh_token"); ("refresh_token", stored)]
       (client_id mgr, client_secret mgr) (world s)
       = (w, PostResponse None td) ->
     exists s' m,
       refresh_token mgr s = (s', inl (TypeError m)) /\
       tokens s' = tokens s /\
       trace s' = trace s ++ [Ev (refresh_call mgr stored) true]).
Proof.
  intros Ht Hv Hnum. split.
  - intros code Hpost. unfold exchange_code_for_token.
    rewrite (bind_ok _ _ _ _ _ (post_eq _ _ _ s w _ Hpost)).
    set (s0 := {| tokens := tokens s; world := w; trace := _; log := log s |}).
    destruct (expiry_of_raises td s0 w' t v Ht Hv Hnum) as [m Hraise].
    unfold bind at 1. rewrite Hraise.
    eexists _, m. split; [reflexivity|]. split; reflexivity.
  - intros stored Hrt Hpost. unfold refresh_token.
    rewrite bind_get_tokens, Hrt,
      (bind_ok _ _ _ _ _ (post_eq _ _ _ s w _ Hpost)).
    set (s0 := {| tokens := tokens s; world := w; trace := _; log := log s |}).
    destruct (expiry_of_raises td s0 w' t v Ht Hv Hnum) as [m Hraise].
    unfold bind at 1. rewrite Hraise.
    eexists _, m. split; [reflexivity|]. split; reflexivity.
Qed.

(** An expired access token, a refresh token, and an answer whose
    lifetime is not a number: the [TypeError] of [refresh_token] passes
    through [get_access_token]. *)
Lemma get_access_token_propagates_type_error
  mgr (s : state World) a stored e t w1 w2 w3 t' td v :
  tokens s !! "access_token" = Some a ->
  tokens s !! "refresh_token" = Some stored ->
  dict_get_default "expires_at" (PNum 0) (tokens s) = PNum e ->
  time_time (world s) = (w1, t) ->
  (e < t)%Z ->
  requests_post (token_url mgr)
    [("grant_type", PStr "refresh_token"); ("refresh_token", stored)]
    (client_id mgr, client_secret mgr) w1 = (w2, PostResponse None td) ->
  time_time w2 = (w3, t') ->
  td !! "expires_in" = Some v ->
  (forall n, v <> PNum n) ->
  exists s' m,
    get_access_token mgr s = (s', inl (TypeError m)) /\
    tokens s' = tokens s /\
    trace s' = trace s ++ [Ev (refresh_call mgr stored) true].
Proof.
  intros Ha Hrt He Ht Hlt Hpost Ht' Hv Hnum.
  unfold get_access_token.
  rewrite bind_get_tokens, (has_access_token a _ Ha).
  rewrite (bind_ok _ _ _ _ _ (is_expired_eq s w1 t e Ht He)).
  apply Z.ltb_lt in Hlt. rewrite Hlt.
  set (s1 := {| tokens := tokens s; world := w1; trace := trace s;
                log := log s ++
                       [(Info, "Access token expired, attempting to refresh")] |}).
  change (bind (logger Info "Access token expired, attempting to refresh")
            ?k (with_world s w1)) with (k tt s1).
  cbv beta.
  assert (Hraise : exists s' m,
            refresh_token mgr s1 = (s', inl (TypeError m)) /\
            tokens s' = tokens s /\
            trace s' = trace s ++ [Ev (refresh_call mgr stored) true]).
  { assert (Hrt1 : tokens s1 !! "refresh_token" = Some stored) by exact Hrt.
    unfold refresh_token.
    rewrite bind_get_tokens, Hrt1.
    rewrite (bind_ok _ _ _ _ _ (post_eq _ _ _ s1 w2 _ Hpost)).
    set (s2 := {| tokens := tokens s1; world := w2; trace := _;
                  log := log s1 |}).
    destruct (expiry_of_raises td s2 w3 t' v Ht' Hv Hnum) as [m Hm].
    unfold bind at 1. rewrite Hm.
    eexists _, m. split; [reflexivity|]. split; reflexivity. }
  destruct Hraise as (s' & m & Hrun & Htok & Htr).
  exists s', m. unfold bind at 1. rewrite Hrun.
  split; [reflexivity|]. split; assumption.
Qed.




Lemma no_access_token_empty : no_access_token ∅ = true.
Proof.
  unfold no_access_token. rewrite bool_decide_eq_true_2 by reflexivity.
  reflexivity.
Qed.

Section LogoutProofs.
Context {files : CacheFiles World}.

(** X19: [clear_tokens] never raises and always empties the token set,
    whether the cache file is there or not and whether it can be removed
    or not.  Afterwards [get_access_token] returns [None],
    [has_valid_tokens] false and [get_connection_parameters] the empty
    dictionary; nothing is posted to the token endpoint. *)
Theorem clear_tokens_logs_out mgr (s : state World) :
  exists s',
    clear_tokens mgr s = (s', inr tt) /\
    tokens s' = ∅ /\
    trace s' = trace s /\
    (exists s2,
       get_access_token mgr s' = (s2, inr PNone) /\ trace s2 = trace s) /\
    has_valid_tokens s' = (s', inr false) /\
    get_connection_parameters mgr s' = (s', inr ∅).
Proof.
  assert (Hreaders : forall s' : state World,
            tokens s' = ∅ -> trace s' = trace s ->
            (exists s2,
               get_access_token mgr s' = (s2, inr PNone) /\
               trace s2 = trace s) /\
            has_valid_tokens s' = (s', inr false) /\
            get_connection_parameters mgr s' = (s', inr ∅)).
  { intros s' Htok Htr.
    assert (Hvalid : has_valid_tokens s' = (s', inr false)).
    { unfold has_valid_tokens.
      rewrite bind_get_tokens, Htok, no_access_token_empty. reflexivity. }
    split; [|split; [exact Hvalid|]].
    - unfold get_access_token.
      rewrite bind_get_tokens, Htok, no_access_token_empty.
      eexists. split; [reflexivity|exact Htr].
    - unfold get_connection_parameters.
      rewrite (bind_ok _ _ _ _ _ Hvalid). simpl.
      rewrite bind_get_tokens, Htok.
      rewrite (key_in_None "refresh_token" ∅) by apply lookup_empty.
      reflexivity. }
  unfold clear_tokens, bind at 1, set_tokens. simpl.
  destruct (path_exists (token_cache_file mgr) (world s)).
  - unfold bind, remove_cache. simpl.
    destruct (os_remove (token_cache_file mgr) (world s)) as [w [e|]]; simpl;
      eexists; (split; [reflexivity|]);
      (split; [reflexivity|]); (split; [reflexivity|]);
      apply Hreaders; reflexivity.
  - eexists. split; [reflexivity|]. split; [reflexivity|].
    split; [reflexivity|]. apply Hreaders; reflexivity.
Qed.

End LogoutProofs.

End OAuthProofs.

(** ** The token manager on the reference platform *)

Section OAuthScenarios.
Import OAuth.

(** C5: a callback carrying a foreign state is answered 400 and only
    logged, although a code is present and a reply is waiting. *)
Lemma invalid_state_rejected_before_exchange_witness :
  let s := initial_state ∅
             {| clock := 2000; replies := [refreshed_reply];
                disk_full := false |} in
  let requestline := "GET /oauth/callback?code=abc&state=evil HTTP/1.1" in
  do_GET snow_manager "good" requestline
    "/oauth/callback?code=abc&state=evil" s =
    ({| tokens := tokens s; world := world s; trace := trace s;
        log := log s ++ [(Info, request_log requestline 400)] |},
     inr {| message := "Error: Invalid state parameter";
            status_code := 400 |}).
Proof.
  intros s requestline.
  apply (proj1 (invalid_state_rejected_before_exchange snow_manager "good"
                  requestline "/oauth/callback?code=abc&state=evil" s)).
  - vm_compute. reflexivity.
  - right. exists "evil", []. split; [vm_compute; reflexivity|discriminate].
Defined.

(** One refresh and the new access token; on rejection [None]. *)
Lemma get_access_token_refreshes_once_witness :
  (exists s' ok,
     get_access_token snow_manager (expired_state refreshed_reply)
       = (s', inr (PStr "new-access")) /\
     trace s' =
       [Ev (refresh_call snow_manager (PStr "the-refresh")) true;
        Ev (WriteCache "/tmp/oauth_tokens.json" (tokens s')) ok]) /\
  (exists s',
     get_access_token snow_manager (expired_state rejected_reply)
       = (s', inr PNone) /\
     tokens s' = expired_tokens /\
     trace s' = [Ev (refresh_call snow_manager (PStr "the-refresh")) true]).
Proof.
  pose (w := {| clock := 2000; replies := []; disk_full := false |}).
  split.
  - destruct (proj2 (get_access_token_refreshes_once snow_manager
                       (expired_state refreshed_reply))
                (PStr "old-access") (PStr "the-refresh") 1000%Z 2000%Z
                (world (expired_state refreshed_reply)) w refreshed_reply)
      as [_ Hok]; try (vm_compute; reflexivity).
    destruct (Hok (<["access_token" := PStr "new-access"]>
                     (<["expires_in" := PNum 600]> ∅)) w 2000%Z 600%Z)
      as (s' & ok & Hrun & _ & Htr); try (vm_compute; reflexivity).
    exists s', ok. split; [exact Hrun|exact Htr].
  - destruct (proj2 (get_access_token_refreshes_once snow_manager
                       (expired_state rejected_reply))
                (PStr "old-access") (PStr "the-refresh") 1000%Z 2000%Z
                (world (expired_state rejected_reply)) w rejected_reply)
      as [Hrej _]; try (vm_compute; reflexivity).
    destruct (Hrej I) as (s' & Hrun & Htok & Htr).
    exists s'. split; [exact Hrun|]. split; [exact Htok|exact Htr].
Defined.

(** C6: on an expired token set that holds a refresh token, when the token
    endpoint answers the refresh with status 200 and the lifetime as the
    text 600, [get_access_token] raises [TypeError]: it returns neither
    the new access token nor [None].  The one refresh request has been
    posted, the tokens are the expired ones and nothing is written to the
    cache file. *)
Theorem get_access_token_raises_on_textual_lifetime :
  let reply :=
    PostResponse None
      (<["access_token" := PStr "new-access"]>
         (<["expires_in" := PStr "600"]> ∅)) in
  exists s',
    get_access_token snow_manager (expired_state reply) =
      (s', inl (TypeError
                  "unsupported operand type(s) for +: 'float' and 'str'")) /\
    tokens s' = expired_tokens /\
    trace s' = [Ev (refresh_call snow_manager (PStr "the-refresh")) true].
Proof.
  intros reply.
  pose (w := {| clock := 2000; replies := []; disk_full := false |}).
  destruct (get_access_token_propagates_type_error snow_manager
              (expired_state reply) (PStr "old-access") (PStr "the-refresh")
              1000%Z 2000%Z (world (expired_state reply)) w w 2000%Z
              (<["access_token" := PStr "new-access"]>
                 (<["expires_in" := PStr "600"]> ∅))
              (PStr "600"))
    as (s' & m & Hrun & Htok & Htr);
    first [ vm_compute; reflexivity | lia | intros n; discriminate | idtac ].
  exists s'. split; [|split; [exact Htok|exact Htr]].
  rewrite Hrun. f_equal. f_equal.
  assert (Hm : snd (get_access_token snow_manager (expired_state reply))
               = inl (TypeError
                        "unsupported operand type(s) for +: 'float' and 'str'"))
    by (vm_compute; reflexivity).
  rewrite Hrun in Hm. simpl in Hm. injection Hm as ->. reflexivity.
Qed.


(** C10: the expired access token is handed out and nothing is posted,
    although a reply is waiting at the token endpoint. *)
Lemma expired_token_returned_without_refresh_witness :
  get_connection_parameters snow_manager (expired_state refreshed_reply) =
    (expired_state refreshed_reply,
     inr (<["token" := PStr "old-access"]>
            (<["authenticator" := PStr "oauth"]> ∅))) /\
  trace (fst (get_connection_parameters snow_manager
                (expired_state refreshed_reply))) = [].
Proof.
  destruct (expired_token_returned_without_refresh snow_manager
              (expired_state refreshed_reply)
              (PStr "old-access") (PStr "the-refresh") 1000%Z 2000%Z
              (world (expired_state refreshed_reply)))
    as (_ & Hrun & Htr & _); try (vm_compute; reflexivity).
  split; [exact Hrun|exact Htr].
Defined.


(** X13: a callback with the right state whose code the endpoint rejects
    is answered 500 and the expired token set stays; one whose code is
    accepted is answered 200 by a successful exchange of that code. *)
Lemma callback_stores_tokens_only_with_200_witness :
  let path := "/oauth/callback?code=abc&state=good" in
  let requestline := "GET /oauth/callback?code=abc&state=good HTTP/1.1" in
  tokens (fst (do_GET snow_manager "good" requestline path
                 (expired_state rejected_reply)))
    = expired_tokens /\
  exists vs code cs s1,
    parse_qs (urlparse_query path) !! "state" = Some ("good" :: vs) /\
    parse_qs (urlparse_query path) !! "error" = None /\
    parse_qs (urlparse_query path) !! "code" = Some (code :: cs) /\
    exchange_code_for_token snow_manager code (expired_state refreshed_reply)
      = (s1, inr true) /\
    fst (do_GET snow_manager "good" requestline path
           (expired_state refreshed_reply))
      = {| tokens := tokens s1; world := world s1; trace := trace s1;
           log := log s1 ++ [(Info, request_log requestline 200)] |}.
Proof.
  intros path requestline. split.
  - destruct (callback_stores_tokens_only_with_200 snow_manager "good"
                requestline path (expired_state rejected_reply)
                (fst (do_GET snow_manager "good" requestline path
                        (expired_state rejected_reply)))
                {| message := "Error: Failed to exchange code for token";
                   status_code := 500 |})
      as [Hkept _]; [vm_compute; reflexivity|].
    apply Hkept. discriminate.
  - destruct (callback_stores_tokens_only_with_200 snow_manager "good"
                requestline path (expired_state refreshed_reply)
                (fst (do_GET snow_manager "good" requestline path
                        (expired_state refreshed_reply)))
                {| message :=
                     "Authentication successful! You can close this window and return to the application.";
                   status_code := 200 |})
      as [_ Hstored]; [vm_compute; reflexivity|].
    destruct (Hstored eq_refl) as [_ Hcode]. exact Hcode.
Defined.

(** X14 at the boundary: a token that expires at 2000 is used at 2000,
    although a reply is waiting at the token endpoint. *)
Lemma unexpired_token_is_used_as_it_is_witness :
  let s := initial_state (<["expires_at" := PNum 2000]> expired_tokens)
             {| clock := 2000; replies := [refreshed_reply];
                disk_full := false |} in
  get_access_token snow_manager s = (s, inr (PStr "old-access")) /\
  has_valid_tokens s = (s, inr true) /\
  get_connection_parameters snow_manager s =
    (s, inr (<["token" := PStr "old-access"]>
               (<["authenticator" := PStr "oauth"]> ∅))).
Proof.
  intros s.
  apply (unexpired_token_is_used_as_it_is snow_manager s (PStr "old-access")
           2000%Z 2000%Z (world s));
    first [ vm_compute; reflexivity | lia ].
Defined.

(** X15: an expired access token alone. *)
Lemma expired_token_without_refresh_token_witness :
  let s := initial_state
             (<["access_token" := PStr "old-access"]>
                (<["expires_at" := PNum 1000]> ∅))
             {| clock := 2000; replies := [refreshed_reply];
                disk_full := false |} in
  snd (get_access_token snow_manager s) = inr PNone /\
  trace (fst (get_access_token snow_manager s)) = [] /\
  has_valid_tokens s = (s, inr false) /\
  get_connection_parameters snow_manager s = (s, inr ∅).
Proof.
  intros s.
  destruct (expired_token_without_refresh_token snow_manager s
              (PStr "old-access") 1000%Z 2000%Z (world s))
    as (Hget & Hvalid & Hparams);
    first [ vm_compute; reflexivity | lia | idtac ].
  rewrite Hget. split; [reflexivity|]. split; [reflexivity|].
  split; [exact Hvalid|exact Hparams].
Defined.

(** X16 on an answer whose lifetime is the text 600. *)
Lemma non_numeric_lifetime_raises_type_error_witness :
  let td := <["access_token" := PStr "new-access"]>
              (<["expires_in" := PStr "600"]> ∅) in
  let s := expired_state (PostResponse None td) in
  (exists s' m,
     exchange_code_for_token snow_manager "abc" s = (s', inl (TypeError m)) /\
     tokens s' = expired_tokens) /\
  (exists s' m,
     refresh_token snow_manager s = (s', inl (TypeError m)) /\
     tokens s' = expired_tokens).
Proof.
  intros td s.
  pose (w := {| clock := 2000; replies := []; disk_full := false |}).
  destruct (non_numeric_lifetime_raises_type_error snow_manager s w w 2000%Z
              td (PStr "600"))
    as [Hexchange Hrefresh];
    [reflexivity|vm_compute; reflexivity|intros n; discriminate|].
  split.
  - destruct (Hexchange "abc") as (s' & m & Hrun & Htok & _);
      [vm_compute; reflexivity|].
    exists s', m. split; [exact Hrun|exact Htok].
  - destruct (Hrefresh (PStr "the-refresh")) as (s' & m & Hrun & Htok & _);
      [vm_compute; reflexivity|vm_compute; reflexivity|].
    exists s', m. split; [exact Hrun|exact Htok].
Defined.


End OAuthScenarios.

(** * Properties of the tools *)

Section ToolsProofs.
Import Pool Tools.
Context {World : Type} {driver : Driver World} {qdriver : QueryDriver World}
  {pylib : PyLib}.

(** The identity query begins with a cursor on the connection. *)
Lemma query_identity_trace c (s : state World) :
  exists ok t,
    trace (fst (query_identity c s)) = trace s ++ Ev (Cursor c) ok :: t.
Proof.
  unfold query_identity, bind, get_cursor, execute, fetchone, driver_call.
  destruct (drv_cursor c (world s)) as [w1 [e|cur]]; simpl;
    [eexists _, []; reflexivity|].
  destruct (drv_execute cur _ w1) as [w2 [e|[]]]; simpl;
    [eexists _, [_]; rewrite <- app_assoc; reflexivity|].
  destruct (drv_fetchone cur w2) as [w3 [e|r]]; simpl;
    [eexists _, [_; _]; rewrite <- !app_assoc; reflexivity|].
  assert (Ht : forall s0 : state World, trace (fst (unpack4 r s0)) = trace s0).
  { intros s0. unfold unpack4.
    destruct r as [[|a [|b [|c0 [|d [|x l]]]]]|]; try reflexivity;
      simpl; reflexivity. }
  rewrite Ht. simpl. eexists _, [_; _]. rewrite <- !app_assoc. reflexivity.
Qed.

(** Every release of a connection begins with a cursor on it. *)
Lemma release_begins_with_cursor env c (s : state World) :
  SNOWFLAKE_AVAILABLE env = true ->
  exists ok t,
    trace (fst (return_connection_to_pool env (Some c) s))
      = trace s ++ Ev (Cursor c) ok :: t.
Proof.
  intros Hav. destruct (query_identity_trace c s) as (ok & t & Hq).
  destruct (query_identity c s) as [s1 [e|[[[a u] r] w]]] eqn:Hrun;
    simpl in Hq.
  - destruct (release_after_failed_identity env c s s1 e Hav Hrun)
      as (s' & ok' & -> & _ & Ht).
    exists ok, (t ++ [Ev (Close c) ok']). simpl. rewrite Ht, Hq.
    rewrite <- app_assoc. reflexivity.
  - destruct (Nat.lt_ge_cases
                (List.length
                   (default [] (connection_pool s !! release_key a u r w)))
                MAX_POOL_SIZE) as [Hlt|Hge].
    + rewrite (release_pushes env c s s1 a u r w Hav Hrun Hlt). simpl.
      exists ok, t. exact Hq.
    + destruct (release_closes env c s s1 a u r w Hav Hrun Hge)
        as (s' & ok' & t' & -> & _ & Ht).
      exists ok, (t ++ Ev (Close c) ok' :: t'). simpl. rewrite Ht, Hq.
      rewrite <- app_assoc. reflexivity.
Qed.

(** A body followed by the release in [finally]: the outcome is the
    body's, the state is the state after the release. *)
Lemma with_release {A} env c (body : M World A) (s : state World) :
  try_finally body (return_connection_to_pool env (Some c)) s =
    (fst (return_connection_to_pool env (Some c) (fst (body s))),
     snd (body s)).
Proof.
  unfold try_finally. destruct (body s) as [s1 r]. cbn [fst snd].
  destruct (never_return_connection_to_pool env (Some c) s1) as [[] Hok].
  destruct (return_connection_to_pool env (Some c) s1) as [s2 r2].
  cbn [fst snd] in *. subst r2. reflexivity.
Qed.

Lemma acquired_then_released {A} env c (body : conn -> M World A)
  (s s1 : state World) :
  SNOWFLAKE_AVAILABLE env = true ->
  get_snowflake_connection env s = (s1, inr c) ->
  bind (get_snowflake_connection env)
    (fun conn =>
       try_finally (body conn) (return_connection_to_pool env (Some conn))) s
    = (fst (return_connection_to_pool env (Some c) (fst (body c s1))),
       snd (body c s1)) /\
  exists ok t,
    trace (fst (return_connection_to_pool env (Some c) (fst (body c s1))))
      = trace (fst (body c s1)) ++ Ev (Cursor c) ok :: t.
Proof.
  intros Hav Hacq. rewrite (bind_inr _ _ _ _ _ Hacq), with_release.
  split; [reflexivity|]. apply release_begins_with_cursor. exact Hav.
Qed.

(** X7: a tool that has acquired a connection hands it back on every path.
    Whether the body of a show_... tool, of a describe_... tool or of
    [execute_query] returns or raises, the outcome of the tool is the
    outcome of the body, the state is the one
    [return_connection_to_pool] leaves, and the history goes on after the
    body with a cursor opened on the connection for its identity query. *)
Theorem tools_release_on_every_path env c (s1 : state World) :
  SNOWFLAKE_AVAILABLE env = true ->
  (forall what query s,
     get_snowflake_connection env (fst (logger Info ("Listing all " +:+ what) s))
       = (s1, inr c) ->
     list_objects env what query s =
       (fst (return_connection_to_pool env (Some c)
               (fst (list_objects_body what query c s1))),
        snd (list_objects_body what query c s1)) /\
     exists ok t,
       trace (fst (list_objects env what query s)) =
         trace (fst (list_objects_body what query c s1))
           ++ Ev (Cursor c) ok :: t) /\
  (forall what name query s,
     get_snowflake_connection env
       (fst (logger Info ("Describing " +:+ what +:+ ": " +:+ name) s))
       = (s1, inr c) ->
     describe_object env what name query s =
       (fst (return_connection_to_pool env (Some c)
               (fst (describe_object_body what name query c s1))),
        snd (describe_object_body what name query c s1)) /\
     exists ok t,
       trace (fst (describe_object env what name query s)) =
         trace (fst (describe_object_body what name query c s1))
           ++ Ev (Cursor c) ok :: t) /\
  (forall allow_write query limit_rows s,
     negb allow_write && mentions_write query = false ->
     get_snowflake_connection env
       (fst (logger Info ("Executing query: " +:+ query) s)) = (s1, inr c) ->
     execute_query env allow_write query limit_rows s =
       (fst (return_connection_to_pool env (Some c)
               (fst (execute_query_body query limit_rows c s1))),
        snd (execute_query_body query limit_rows c s1)) /\
     exists ok t,
       trace (fst (execute_query env allow_write query limit_rows s)) =
         trace (fst (execute_query_body query limit_rows c s1))
           ++ Ev (Cursor c) ok :: t).
Proof.
  intros Hav. split; [|split].
  - intros what query s Hacq.
    destruct (acquired_then_released env c (list_objects_body what query)
                _ s1 Hav Hacq) as [Hrun Htr].
    assert (Heq : list_objects env what query s =
                  (fst (return_connection_to_pool env (Some c)
                          (fst (list_objects_body what query c s1))),
                   snd (list_objects_body what query c s1))).
    { unfold list_objects. rewrite Hav. exact Hrun. }
    split; [exact Heq|]. rewrite Heq. exact Htr.
  - intros what name query s Hacq.
    destruct (acquired_then_released env c
                (describe_object_body what name query) _ s1 Hav Hacq)
      as [Hrun Htr].
    assert (Heq : describe_object env what name query s =
                  (fst (return_connection_to_pool env (Some c)
                          (fst (describe_object_body what name query c s1))),
                   snd (describe_object_body what name query c s1))).
    { unfold describe_object. rewrite Hav. exact Hrun. }
    split; [exact Heq|]. rewrite Heq. exact Htr.
  - intros allow_write query limit_rows s Hguard Hacq.
    destruct (acquired_then_released env c
                (execute_query_body query limit_rows) _ s1 Hav Hacq)
      as [Hrun Htr].
    assert (Heq : execute_query env allow_write query limit_rows s =
                  (fst (return_connection_to_pool env (Some c)
                          (fst (execute_query_body query limit_rows c s1))),
                   snd (execute_query_body query limit_rows c s1))).
    { unfold execute_query. rewrite Hav, Hguard. exact Hrun. }
    split; [exact Heq|]. rewrite Heq. exact Htr.
Qed.

Lemma description_eq cur (s : state World) :
  description cur s = (s, inr (drv_description cur (world s))).
Proof. reflexivity. Qed.

Ltac step_driver H :=
  unfold bind at 1;
  unfold get_cursor, execute, fetchall, fetchone, driver_call;
  simpl; rewrite H; simpl.

(** X8: when the statement returns no row, a show_... tool returns the
    formatted empty list, while a describe_... tool raises [IndexError]:
    it logs the error, hands the connection back and raises. *)
Theorem describe_without_rows_raises_index_error
  env what name query c cur names (s s1 : state World) w2 w3 w4 :
  SNOWFLAKE_AVAILABLE env = true ->
  get_snowflake_connection env
    (fst (logger Info ("Describing " +:+ what +:+ ": " +:+ name) s))
    = (s1, inr c) ->
  drv_cursor c (world s1) = (w2, inr cur) ->
  drv_execute cur query w2 = (w3, inr tt) ->
  drv_fetchall cur w3 = (w4, inr []) ->
  drv_description cur w4 = Some names ->
  snd (describe_object env what name query s)
    = inl (IndexError "list index out of range") /\
  snd (list_objects_body what query c s1)
    = inr (format_output (Some (Rows []))) /\
  exists ok t,
    trace (fst (describe_object env what name query s)) =
      trace s1 ++
        [Ev (Cursor c) true; Ev (Execute cur query) true;
         Ev (Fetchall cur) true] ++ Ev (Cursor c) ok :: t.
Proof.
  intros Hav Hacq Hcur Hexec Hfetch Hdesc.
  assert (Hbody : exists s2,
             describe_object_body what name query c s1
               = (s2, inl (IndexError "list index out of range")) /\
             trace s2 = trace s1 ++
                          [Ev (Cursor c) true; Ev (Execute cur query) true;
                           Ev (Fetchall cur) true]).
  { unfold describe_object_body. unfold try_except at 1.
    step_driver Hcur. step_driver Hexec. step_driver Hfetch.
    unfold column_names, bind. rewrite description_eq. simpl.
    rewrite Hdesc. simpl. eexists. split; [reflexivity|].
    simpl. rewrite <- !app_assoc. reflexivity. }
  destruct Hbody as (s2 & Hbody & Ht2).
  destruct (acquired_then_released env c
              (describe_object_body what name query) _ s1 Hav Hacq)
    as [Hrun (ok & t & Htr)].
  assert (Heq : describe_object env what name query s =
                (fst (return_connection_to_pool env (Some c) s2),
                 inl (IndexError "list index out of range"))).
  { unfold describe_object. rewrite Hav. simpl negb. cbv iota.
    etransitivity; [exact Hrun|]. rewrite Hbody. reflexivity. }
  split; [rewrite Heq; reflexivity|]. split.
  - unfold list_objects_body. unfold try_except at 1.
    step_driver Hcur. step_driver Hexec. step_driver Hfetch.
    unfold column_names, bind. rewrite description_eq. simpl.
    rewrite Hdesc. reflexivity.
  - exists ok, t. rewrite Heq. simpl fst.
    rewrite Hbody in Htr. simpl fst in Htr. rewrite Htr, Ht2.
    rewrite <- app_assoc. reflexivity.
Qed.

(** X9: the two checks of [execute_query] come before any connection.
    Without the connector the test-mode answer is returned, whatever the
    query and whatever [allow_write]; with it and without [allow_write], a
    query whose upper case contains one of INSERT, UPDATE, DELETE, CREATE,
    DROP, ALTER anywhere, inside an identifier too, raises [ValueError];
    in both cases only the log has changed. *)
Theorem write_guard_comes_before_acquisition
  env query limit_rows (s : state World) :
  (forall allow_write,
     SNOWFLAKE_AVAILABLE env = false ->
     execute_query env allow_write query limit_rows s =
       (fst (logger Info ("Executing query: " +:+ query) s),
        inr (TestMode
               "snowflake-connector-python is not installed. Running in test mode only."
               query))) /\
  (forall write_op,
     SNOWFLAKE_AVAILABLE env = true ->
     In write_op write_ops ->
     contains write_op (upper query) = true ->
     execute_query env false query limit_rows s =
       (fst (logger Info ("Executing query: " +:+ query) s),
        inl (ValueError
               "Write operations are not allowed. Start the server with --allow-write to enable them."))) /\
  connection_pool (fst (logger Info ("Executing query: " +:+ query) s))
    = connection_pool s /\
  trace (fst (logger Info ("Executing query: " +:+ query) s)) = trace s /\
  world (fst (logger Info ("Executing query: " +:+ query) s)) = world s.
Proof.
  split; [|split; [|repeat split]].
  - intros allow_write Hav. unfold execute_query. rewrite Hav. reflexivity.
  - intros write_op Hav Hin Hc. unfold execute_query. rewrite Hav.
    assert (Hm : mentions_write query = true).
    { unfold mentions_write. apply existsb_exists. exists write_op.
      split; assumption. }
    rewrite Hm. reflexivity.
Qed.

Lemma format_rows_long_enough columns rows (s : state World) :
  Forall (fun r : row => List.length columns <= List.length r) rows ->
  format_rows columns rows s
    = (s, inr (map (fun r => combine columns r) rows)).
Proof.
  induction 1 as [|r rows Hr _ IH]; [reflexivity|].
  simpl. unfold bind, format_row.
  apply Nat.ltb_ge in Hr. rewrite Hr. simpl. rewrite IH. reflexivity.
Qed.

(** X10: the result of a query.  With [limit_rows] unset or 0 the rows are
    those of [fetchall], so there is no limit; otherwise those of
    [fetchmany(limit_rows)].  [row_count] is the number of rows fetched,
    [truncated] says whether one more [fetchone] returned a row, and every
    row is paired with the column names of the description read after the
    statement ran. *)
Theorem execute_query_result
  query limit_rows c cur rows next (s1 : state World) w2 w3 w4 w5 :
  drv_cursor c (world s1) = (w2, inr cur) ->
  drv_execute cur query w2 = (w3, inr tt) ->
  (limit_set limit_rows = false /\ drv_fetchall cur w3 = (w4, inr rows)) \/
  (exists n, limit_rows = Some n /\ n <> 0%Z /\
             drv_fetchmany cur n w3 = (w4, inr rows)) ->
  drv_fetchone cur w4 = (w5, inr next) ->
  Forall (fun r : row =>
            List.length (default [] (drv_description cur w3))
              <= List.length r) rows ->
  exists s2,
    execute_query_body query limit_rows c s1 =
      (s2, inr (Output
                  (format_output
                     (Some (QueryResult
                              (default [] (drv_description cur w3))
                              (map (fun r =>
                                      combine
                                        (default [] (drv_description cur w3))
                                        r) rows)
                              (List.length rows)
                              (match next with
                               | Some _ => true
                               | None => false
                               end)))))) /\
    connection_pool s2 = connection_pool s1 /\
    world s2 = w5.
Proof.
  intros Hcur Hexec Hrows Hone Hlong.
  unfold execute_query_body. unfold try_except at 1.
  unfold bind at 1. unfold get_cursor, driver_call. rewrite Hcur. simpl.
  unfold bind at 1. unfold execute, driver_call. simpl. rewrite Hexec. simpl.
  unfold bind at 1. rewrite description_eq. simpl.
  destruct Hrows as [[Hlim Hall]|(n & -> & Hn & Hmany)].
  - rewrite Hlim. unfold bind at 1. unfold fetchall, driver_call. simpl.
    rewrite Hall. simpl.
    unfold bind at 1. unfold fetchone, driver_call. simpl. rewrite Hone. simpl.
    unfold bind at 1. rewrite (format_rows_long_enough _ _ _ Hlong).
    eexists. split; [reflexivity|]. split; reflexivity.
  - assert (Hlim : limit_set (Some n) = true).
    { simpl. destruct (Z.eqb_spec n 0); [congruence|reflexivity]. }
    rewrite Hlim. unfold bind at 1. unfold fetchmany. simpl.
    rewrite Hmany. simpl.
    unfold bind at 1. unfold fetchone, driver_call. simpl. rewrite Hone. simpl.
    unfold bind at 1. rewrite (format_rows_long_enough _ _ _ Hlong).
    eexists. split; [reflexivity|]. split; reflexivity.
Qed.

(** X18: a filter that a tool cannot place is dropped without notice.
    [show_alerts] ignores a schema given without a database;
    [show_columns] ignores a table given without a schema or without a
    database; [describe_alert] ignores a database given without a schema.
    An empty string counts as not given. *)
Theorem unplaced_filters_are_ignored env :
  (forall database schema,
     truthy database = false ->
     show_alerts env database schema = show_alerts env None None) /\
  (forall table_name database schema,
     truthy schema = false ->
     show_columns env table_name database schema
       = show_columns env None database None) /\
  (forall table_name database schema,
     truthy database = false ->
     show_columns env table_name database schema
       = show_columns env None None None) /\
  (forall name database schema,
     truthy database && truthy schema = false ->
     describe_alert env name database schema
       = describe_alert env name None None).
Proof.
  split; [|split; [|split]].
  - intros database schema Hd. unfold show_alerts, in_scope.
    rewrite Hd. reflexivity.
  - intros table_name database schema Hs. unfold show_columns, in_scope.
    rewrite Hs, !andb_false_r. simpl. reflexivity.
  - intros table_name database schema Hd. unfold show_columns, in_scope.
    rewrite Hd, !andb_false_r. simpl. reflexivity.
  - intros name database schema Hds. unfold describe_alert.
    rewrite Hds. reflexivity.
Qed.

End ToolsProofs.

(** ** The tools on the reference backend *)

Section ToolsScenarios.
Import Pool Tools.

(** The three kinds of tool on the reference backend: each hands back
    connection 0 after its body. *)
Lemma tools_release_on_every_path_witness :
  let env := acme_env (Some "WH_BACKUP") in
  let s := initial_state acme_backend in
  let acquired msg :=
    fst (get_snowflake_connection env (fst (logger Info msg s))) in
  (exists ok t,
     trace (fst (show_warehouses env s)) =
       trace (fst (list_objects_body "warehouses" "SHOW WAREHOUSES" 0
                     (acquired "Listing all warehouses")))
         ++ Ev (Cursor 0) ok :: t) /\
  (exists ok t,
     trace (fst (describe_account env "ACME" s)) =
       trace (fst (describe_object_body "account" "ACME"
                     "DESCRIBE ACCOUNT ACME" 0
                     (acquired "Describing account: ACME")))
         ++ Ev (Cursor 0) ok :: t) /\
  (exists ok t,
     trace (fst (execute_query env false "SELECT 1" None s)) =
       trace (fst (execute_query_body "SELECT 1" None 0
                     (acquired "Executing query: SELECT 1")))
         ++ Ev (Cursor 0) ok :: t).
Proof.
  intros env s acquired. split; [|split].
  - destruct (tools_release_on_every_path env 0
                (acquired "Listing all warehouses") eq_refl)
      as (Hshow & _ & _).
    destruct (Hshow "warehouses" "SHOW WAREHOUSES" s) as [_ Htr];
      [vm_compute; reflexivity|exact Htr].
  - destruct (tools_release_on_every_path env 0
                (acquired "Describing account: ACME") eq_refl)
      as (_ & Hdescribe & _).
    destruct (Hdescribe "account" "ACME" "DESCRIBE ACCOUNT ACME" s)
      as [_ Htr]; [vm_compute; reflexivity|exact Htr].
  - destruct (tools_release_on_every_path env 0
                (acquired "Executing query: SELECT 1") eq_refl)
      as (_ & _ & Hquery).
    destruct (Hquery false "SELECT 1" None s) as [_ Htr];
      [vm_compute; reflexivity|vm_compute; reflexivity|exact Htr].
Defined.

(** What the tools answer on the reference backend, and where connection
    0 is afterwards. *)
Example show_warehouses_on_the_backend :
  let env := acme_env (Some "WH_BACKUP") in
  let s := initial_state acme_backend in
  snd (show_warehouses env s) =
    inr "[{name: WH_MISSING, state: STARTED}, {name: WH_BACKUP, state: STARTED}]" /\
  connection_pool (fst (show_warehouses env s))
    !! "ACME_BOT_ANALYST_WH_BACKUP" = Some [0] /\
  snd (execute_query env false "SHOW WAREHOUSES" (Some 1%Z) s) =
    inr (Output "[{name: WH_MISSING, state: STARTED}] (truncated)").
Proof. vm_compute. repeat split; reflexivity. Qed.

(** X8: the backend returns no row for a DESCRIBE statement. *)
Lemma describe_without_rows_raises_index_error_witness :
  let env := acme_env (Some "WH_BACKUP") in
  let s := initial_state acme_backend in
  snd (describe_account env "ACME" s)
    = inl (IndexError "list index out of range") /\
  connection_pool (fst (describe_account env "ACME" s))
    !! "ACME_BOT_ANALYST_WH_BACKUP" = Some [0].
Proof.
  intros env s.
  pose (s1 := fst (get_snowflake_connection env
                     (fst (logger Info "Describing account: ACME" s)))).
  destruct (describe_without_rows_raises_index_error env "account" "ACME"
              "DESCRIBE ACCOUNT ACME" 0 0 ["name"; "state"] s s1
              (world s1) (world s1) (fst (backend_fetchall 0 (world s1))))
    as (Hraise & _ & _); try (vm_compute; reflexivity).
  split; [exact Hraise|]. vm_compute. reflexivity.
Defined.

(** X9: without the connector every query is answered in test mode; with
    it, a query that reads a column named created_at is refused as a
    write. *)
Lemma write_guard_comes_before_acquisition_witness :
  let s := initial_state acme_backend in
  let offline :=
    {| SNOWFLAKE_AVAILABLE := false;
       SNOWFLAKE_ACCOUNT := None; SNOWFLAKE_USER := None;
       SNOWFLAKE_PASSWORD := None; SNOWFLAKE_ROLE := None;
       SNOWFLAKE_WAREHOUSE := None; SNOWFLAKE_DATABASE := None;
       SNOWFLAKE_SCHEMA := None |} in
  snd (execute_query offline true "DROP TABLE t" None s) =
    inr (TestMode
           "snowflake-connector-python is not installed. Running in test mode only."
           "DROP TABLE t") /\
  snd (execute_query (acme_env None) false "select created_at from t" None s) =
    inl (ValueError
           "Write operations are not allowed. Start the server with --allow-write to enable them.") /\
  trace (fst (execute_query (acme_env None) false "select created_at from t"
                None s)) = [].
Proof.
  intros s offline. split; [|split].
  - destruct (write_guard_comes_before_acquisition offline "DROP TABLE t"
                None s) as (Htest & _).
    rewrite (Htest true eq_refl). reflexivity.
  - destruct (write_guard_comes_before_acquisition (acme_env None)
                "select created_at from t" None s) as (_ & Hguard & _).
    rewrite (Hguard "CREATE" eq_refl); [reflexivity| |vm_compute; reflexivity].
    right. right. right. left. reflexivity.
  - destruct (write_guard_comes_before_acquisition (acme_env None)
                "select created_at from t" None s)
      as (_ & Hguard & _ & Htr & _).
    rewrite (Hguard "CREATE" eq_refl); [exact Htr| |vm_compute; reflexivity].
    right. right. right. left. reflexivity.
Defined.

(** X10: of the two warehouses, a limit of one row returns the first and
    reports the result as truncated. *)
Lemma execute_query_result_witness :
  let env := acme_env (Some "WH_BACKUP") in
  let s1 := fst (get_snowflake_connection env (initial_state acme_backend)) in
  exists s2,
    execute_query_body "SHOW WAREHOUSES" (Some 1%Z) 0 s1 =
      (s2, inr (Output
                  (json_dumps
                     (QueryResult ["name"; "state"]
                        [[("name", CStr "WH_MISSING");
                          ("state", CStr "STARTED")]] 1 true)))) /\
    connection_pool s2 = connection_pool s1.
Proof.
  intros env s1.
  pose (w3 := fst (backend_execute 0 "SHOW WAREHOUSES" (world s1))).
  pose (w4 := fst (backend_fetchmany 0 1 w3)).
  destruct (execute_query_result "SHOW WAREHOUSES" (Some 1%Z) 0 0
              [[CStr "WH_MISSING"; CStr "STARTED"]]
              (Some [CStr "WH_BACKUP"; CStr "STARTED"])
              s1 (world s1) w3 w4 (fst (backend_fetchone 0 w4)))
    as (s2 & Hrun & Hpool & _).
  - vm_compute. reflexivity.
  - vm_compute. reflexivity.
  - right. exists 1%Z. split; [reflexivity|]. split; [lia|].
    vm_compute. reflexivity.
  - vm_compute. reflexivity.
  - constructor; [vm_compute; lia|constructor].
  - exists s2. split; [exact Hrun|exact Hpool].
Defined.

(** C9 as stated fails for a released connection whose session no longer
    reports the configured role.  No default warehouse is configured and
    the role is ANALYST_None; the query USE ROLE ANALYST passes the write
    guard and changes the role of the session, so [execute_query] releases
    connection 0 under ACME_BOT_ANALYST_None, which is the key acquisition
    computes: the next acquisition probes connection 0 and returns it,
    without connecting. *)
Lemma released_connection_reused_without_default_warehouse :
  let env :=
    {| SNOWFLAKE_AVAILABLE := true;
       SNOWFLAKE_ACCOUNT := Some "ACME"; SNOWFLAKE_USER := Some "BOT";
       SNOWFLAKE_PASSWORD := Some "secret";
       SNOWFLAKE_ROLE := Some "ANALYST_None";
       SNOWFLAKE_WAREHOUSE := None; SNOWFLAKE_DATABASE := None;
       SNOWFLAKE_SCHEMA := None |} in
  let s0 := initial_state two_role_backend in
  let s1 := fst (execute_query env false "USE ROLE ANALYST" None s0) in
  truthy (SNOWFLAKE_WAREHOUSE env) = false /\
  snd (get_snowflake_connection env s0) = inr 0 /\
  acquire_key env = "ACME_BOT_ANALYST_None" /\
  release_key (CStr "ACME") (CStr "BOT") (CStr "ANALYST") CNull
    = acquire_key env /\
  connection_pool s1 !! acquire_key env = Some [0] /\
  snd (get_snowflake_connection env s1) = inr 0 /\
  trace (fst (get_snowflake_connection env s1)) =
    trace s1 ++
      [Ev (Cursor 0) true; Ev (Execute 0 "SELECT 1") true;
       Ev (Fetchone 0) true].
Proof. vm_compute. repeat split; reflexivity. Qed.

(** X18: a schema alone, a table alone and a database alone change
    nothing. *)
Lemma unplaced_filters_are_ignored_witness :
  let env := acme_env (Some "WH_BACKUP") in
  show_alerts env None (Some "PUBLIC") = show_alerts env None None /\
  show_columns env (Some "CUSTOMERS") (Some "MYDB") None
    = show_columns env None (Some "MYDB") None /\
  show_columns env (Some "CUSTOMERS") (Some "") (Some "PUBLIC")
    = show_columns env None None None /\
  describe_alert env "A1" (Some "MYDB") None
    = describe_alert env "A1" None None.
Proof.
  intros env.
  destruct (unplaced_filters_are_ignored
              (driver := backend_driver) (qdriver := backend_query_driver)
              (pylib := plain_pylib) env)
    as (Halerts & Htable & Hdatabase & Hdescribe).
  split; [apply Halerts; reflexivity|].
  split; [apply Htable; reflexivity|].
  split; [apply Hdatabase; reflexivity|].
  apply Hdescribe. reflexivity.
Defined.

End ToolsScenarios.
